(** * Stoner: DataFile and ImageStack core, a shallow embedding

    The development follows [Stoner/Core.py] (class [DataFile]) and
    [Stoner/Image/stack.py] (class [ImageStackMixin]).  Python objects are
    rendered as records, exceptions as an inductive type carried by a result
    type, dictionaries as finite maps and numpy arrays as lists with their
    shape written out. *)

From Stdlib Require Import ZArith Ascii String Bool Lia.
From stdpp Require Import base option list strings pretty gmap sorting.

Local Open Scope list_scope.

(** ** Python exceptions and results *)

Module Py.

(** The exception classes that the two source files raise or catch by
    name; [OtherError] stands for any class outside that list. *)
Inductive exn : Type :=
| StonerLoadError (msg : string)
| StonerUnrecognisedFormat (fname : string) (recognised : list string)
| UnicodeDecodeError
| SyntaxError (msg : string)
| IOError (msg : string)
| ValueError (msg : string)
| TypeError (msg : string)
| KeyError (msg : string)
| IndexError (msg : string)
| OtherError (cls : string).

Inductive res (A : Type) : Type :=
| Ret (a : A)
| Raise (e : exn).
Arguments Ret {A} a.
Arguments Raise {A} e.

Definition bind {A B} (r : res A) (k : A → res B) : res B :=
  match r with
  | Ret a => k a
  | Raise e => Raise e
  end.

(** [isinstance(e, StonerLoadError)] *)
Definition is_load_error (e : exn) : bool :=
  match e with StonerLoadError _ => true | _ => false end.

(** [isinstance(e, UnicodeDecodeError)] *)
Definition is_unicode_error (e : exn) : bool :=
  match e with UnicodeDecodeError => true | _ => false end.

(** Python's [needle in hay] on strings. *)
Fixpoint str_contains (needle hay : string) : bool :=
  String.prefix needle hay ||
  match hay with
  | EmptyString => false
  | String _ rest => str_contains needle rest
  end.

End Py.

#[global] Instance res_ret : MRet Py.res := @Py.Ret.
#[global] Instance res_bind : MBind Py.res := fun A B k r => Py.bind r k.

(** ** The auto-detecting loader, [DataFile.load] *)

Module Loader.
Import Py.

(** Metadata values, as the typed metadata store keeps them. *)
Inductive mdval : Type :=
| MStr (s : string)
| MInt (z : Z)
| MBool (b : bool)
| MList (zs : list Z).

(** The part of a [DataFile] instance that [load] reads and writes:
    the numeric matrix (a list of rows), the metadata dictionary, the
    column headers and the file name. *)
Record DataFile : Type := mkDataFile {
  data : list (list Z);
  metadata : gmap string mdval;
  column_headers : list string;
  filename : option string
}.

(** [d[key] = value]: a string key on a DataFile stores metadata. *)
Definition setitem (d : DataFile) (key : string) (v : mdval) : DataFile :=
  mkDataFile (data d) (<[key := v]> (metadata d)) (column_headers d) (filename d).

Definition set_filename (d : DataFile) (f : option string) : DataFile :=
  mkDataFile (data d) (metadata d) (column_headers d) f.

(** Modelled from the spec: [copy_into] of [Stoner/core/utils.py] is not
    among the sources.  Section 4.5: the winning handler's "matrix,
    metadata, and column headers are copied onto the caller's instance". *)
Definition copy_into (source dest : DataFile) : DataFile :=
  mkDataFile (data source) (metadata source) (column_headers source) (filename dest).

(** A format handler: a subclass of [DataFile] seen through what [load]
    uses of it.  [_load] is the outcome of [cls()._load(filename)]:
    the instance it returns ([None] when the routine returns nothing),
    or the exception it raises. *)
Record handler : Type := mkHandler {
  cls_name : string;
  mime_type : list string;
  _load : string → res (option DataFile)
}.

(** What [load] takes from its surroundings: [os.path.exists], the
    optional [magic] module ([None] when the import failed), the file
    dialog's answer, and the registry [subclasses(DataFile)], an ordered
    dictionary from class name to class, already sorted by priority. *)
Record env : Type := mkEnv {
  path_exists : string → bool;
  filemagic : option (string → string);
  file_dialog : option string;
  subclasses : list (string * handler)
}.

(** [filemagic is not None and mimetype not in cls.mime_type] *)
Definition mime_mismatch (mimetype : option string) (cls : handler) : bool :=
  match mimetype with
  | None => false
  | Some m => negb (bool_decide (m ∈ mime_type cls))
  end.

(** How one turn of the [for cls in subclasses(DataFile).values()] loop
    ends. *)
Inductive turn : Type :=
| Skipped                 (* [continue] before any parse attempt *)
| NextCandidate           (* parse attempted, [except ...: continue] *)
| Loaded (d : DataFile)   (* [break] *)
| Propagates (e : exn).   (* exception leaves [load] *)

Definition attempt (self : DataFile) (fname : string)
    (mimetype : option string) (cls : handler) : turn :=
  if mime_mismatch mimetype cls then Skipped
  else
    match _load cls fname with
    | Raise e =>
        if is_load_error e then NextCandidate
        else if is_unicode_error e then NextCandidate
        else Propagates e
    | Ret None =>
        Propagates (SyntaxError ("Class " +:+ cls_name cls +:+ "'s _load returned None !!"))
    | Ret (Some test) =>
        Loaded (copy_into (setitem test "Loaded as" (MStr (cls_name cls))) self)
    end.

(** The loop with its [else] clause.  The first component lists, in
    order, the classes whose [_load] has been called. *)
Fixpoint auto_loop (all_keys : list string) (self : DataFile) (fname : string)
    (mimetype : option string) (candidates : list (string * handler))
    : list string * res DataFile :=
  match candidates with
  | [] => ([], Raise (StonerUnrecognisedFormat fname all_keys))
  | (_, cls) :: rest =>
      match attempt self fname mimetype cls with
      | Skipped => auto_loop all_keys self fname mimetype rest
      | NextCandidate =>
          let '(tried, r) := auto_loop all_keys self fname mimetype rest in
          (cls_name cls :: tried, r)
      | Loaded d => ([cls_name cls], Ret d)
      | Propagates e => ([cls_name cls], Raise e)
      end
  end.

(** [filetype] given as a string: exact key first, then the first key
    that contains it. *)
Definition resolve_filetype (reg : list (string * handler)) (filetype : string)
    : res handler :=
  match list_find (fun kc => bool_decide (kc.1 = filetype)) reg with
  | Some (_, (_, cls)) => Ret cls
  | None =>
      match list_find (fun kc => Is_true (str_contains filetype kc.1)) reg with
      | Some (_, (_, cls)) => Ret cls
      | None => Raise (ValueError ("Unrecognised class name for file type: " +:+ filetype))
      end
  end.

(** The branch of [load] taken when [auto_load] is false: one class is
    tried and whatever it raises propagates.  [with_headers] tells the
    two sub-branches apart: the column headers are copied only when a
    [filetype] was named. *)
Definition load_one (self : DataFile) (fname : string) (cls : handler)
    (with_headers : bool) : res DataFile :=
  match _load cls fname with
  | Raise e => Raise e
  | Ret None => Raise (OtherError "AttributeError")
  | Ret (Some test) =>
      let self1 := setitem self "Loaded as" (MStr (cls_name cls)) in
      Ret (mkDataFile (data test)
             (metadata test ∪ metadata self1)
             (if with_headers then column_headers test else column_headers self1)
             (filename self1))
  end.

(** [DataFile.load(filename, filetype=..., auto_load=...)], called
    without further keyword arguments and with handlers that leave no
    [_kargs] on the instance they return, so that the closing loop over
    [kargs] has nothing to set.  [own] is [self.__class__]. *)
Definition load (E : env) (own : handler) (self : DataFile)
    (fname : option string) (filetype : option string) (auto_load : option bool)
    : list string * res DataFile :=
  let auto := default (bool_decide (filetype = None)) auto_load in
  match (match filetype with
         | Some ft => cls ← resolve_filetype (subclasses E) ft; Ret (Some cls)
         | None => Ret None
         end) with
  | Raise e => ([], Raise e)
  | Ret ftcls =>
      let self1 :=
        match fname with
        | Some f => set_filename self (Some f)
        | None =>
            match file_dialog E with
            | Some f => set_filename self (Some f)
            | None => self
            end
        end in
      match filename self1 with
      | None => ([], Raise (TypeError "stat: path should be string, not NoneType"))
      | Some f =>
          if negb (path_exists E f) then
            ([], Raise (IOError ("Cannot find " +:+ f +:+ " to load")))
          else
            let mimetype := (fun m => m f) <$> filemagic E in
            if auto then
              auto_loop (subclasses E).*1 self1 f mimetype (subclasses E)
            else
              match ftcls with
              | None => ([cls_name own], load_one self1 f own false)
              | Some cls => ([cls_name cls], load_one self1 f cls true)
              end
      end
  end.

End Loader.

(** ** Text: the string operations of the Python library that the
    source relies on.  A character is a code point below 256. *)

Module Text.

Definition tab : ascii := "009"%char.
Definition dot : ascii := "."%char.
Definition slash : ascii := "/"%char.

(** [str.isspace] on one character. *)
Definition is_space (c : ascii) : bool :=
  let n := N_of_ascii c in
  ((9 <=? n) && (n <=? 13) || (28 <=? n) && (n <=? 32) || (n =? 133) || (n =? 160))%N.

(** A line ends at a line feed or a carriage return. *)
Definition is_eol (c : ascii) : bool :=
  let n := N_of_ascii c in ((n =? 10) || (n =? 13))%N.

Fixpoint lstrip (s : list ascii) : list ascii :=
  match s with
  | c :: rest => if is_space c then lstrip rest else s
  | [] => []
  end.
Definition rstrip (s : list ascii) : list ascii := reverse (lstrip (reverse s)).

(** [s.strip()] *)
Definition strip (s : string) : string :=
  string_of_list_ascii (rstrip (lstrip (list_ascii_of_string s))).

(** [s.split(sep)] for a one-character separator. *)
Fixpoint split (sep : ascii) (s : string) : list string :=
  match s with
  | EmptyString => [EmptyString]
  | String c rest =>
      if bool_decide (c = sep) then EmptyString :: split sep rest
      else match split sep rest with
           | f :: fs => String c f :: fs
           | [] => [String c EmptyString]
           end
  end.

(** [sep.join(parts)] *)
Fixpoint join (sep : string) (parts : list string) : string :=
  match parts with
  | [] => ""
  | [x] => x
  | x :: rest => x +:+ sep +:+ join sep rest
  end.

(** The text of the first line, without its line ending. *)
Fixpoint first_line (s : string) : string :=
  match s with
  | EmptyString => EmptyString
  | String c rest => if is_eol c then EmptyString else String c (first_line rest)
  end.

Fixpoint rfind_from (c : ascii) (s : string) (i last : Z) : Z :=
  match s with
  | EmptyString => last
  | String a rest => rfind_from c rest (i + 1) (if bool_decide (a = c) then i else last)
  end.

(** [s.rfind(c)]: the highest index of [c] in [s], or [-1]. *)
Definition rfind (c : ascii) (s : string) : Z := rfind_from c s 0 (-1).

(** [s[i:]] and [s[:i]] for [0 <= i]. *)
Definition slice_from (i : Z) (s : string) : string :=
  String.substring (Z.to_nat i) (String.length s - Z.to_nat i) s.
Definition slice_to (i : Z) (s : string) : string :=
  String.substring 0 (Z.to_nat i) s.

(** The [while] loop of [genericpath._splitext]: walks from
    [filenameIndex] up to [dotIndex] and tells whether a character other
    than the dot was met. *)
Fixpoint name_before_dot (p : string) (filenameIndex : Z) (steps : nat) : bool :=
  match steps with
  | O => false
  | S k =>
      match String.get (Z.to_nat filenameIndex) p with
      | Some c =>
          if bool_decide (c = dot) then name_before_dot p (filenameIndex + 1) k
          else true
      | None => true
      end
  end.

(** [os.path.splitext] of [posixpath]. *)
Definition splitext (p : string) : string * string :=
  let sepIndex := rfind slash p in
  let dotIndex := rfind dot p in
  if (sepIndex <? dotIndex)%Z
     && name_before_dot p (sepIndex + 1) (Z.to_nat (dotIndex - (sepIndex + 1)))
  then (slice_to dotIndex p, slice_from dotIndex p)
  else (p, "").

End Text.

(** ** The TDI reader's header check, the [try] block of [DataFile._load] *)

Module Tdi.
Import Py Text.

Inductive tdi_format : Type := Fmt_1_5 | Fmt_1_0.

(** One row of [csv.reader(datafile, dialect=tab_delimited())]: the
    dialect splits at tabs and knows no quoting; an empty line gives an
    empty row. *)
Definition csv_row (line : string) : list string :=
  match line with
  | EmptyString => []
  | _ => split tab line
  end.

(** [next(reader)] on a freshly opened file with the given text. *)
Definition next_row (content : string) : res (list string) :=
  match content with
  | EmptyString => Raise (OtherError "StopIteration")
  | _ => Ret (csv_row (first_line content))
  end.

(** [row[0]] *)
Definition row0 (row : list string) : res string :=
  match row with
  | [] => Raise (IndexError "list index out of range")
  | f :: _ => Ret f
  end.

(** The body of the [try]. *)
Definition header_try (content : string) : res (tdi_format * list string) :=
  row ← next_row content;
  f0 ← row0 row;
  if bool_decide (strip f0 = "TDI Format 1.5") then Ret (Fmt_1_5, row)
  else if bool_decide (strip f0 = "TDI Format=Text 1.0") then Ret (Fmt_1_0, row)
  else Raise (StonerLoadError "Not a TDI File").

(** [try: ... except Exception: raise StonerLoadError("Not a TDI File")],
    followed by the reading of the column headers from the same row. *)
Definition header_check (content : string) : res (tdi_format * list string) :=
  match header_try content with
  | Ret (fmt, row) => Ret (fmt, strip <$> tail row)
  | Raise _ => Raise (StonerLoadError "Not a TDI File")
  end.

End Tdi.

(** ** The file name that [DataFile.save] writes to *)

Module Save.
Import Py Text Loader.

(** [DataFile._patterns] *)
Definition _patterns : list string := ["*.txt"; "*.tdi"].

(** [s[2:]] *)
Definition drop2 (s : string) : string := slice_from 2 s.

(** The lines of [save] that normalise the extension. *)
Definition normalise (patterns : list string) (filename : string) : res string :=
  let '(root, ext) := splitext filename in
  ext' ← (if bool_decide (("*." +:+ ext) ∈ patterns) then Ret ext
          else match patterns with
               | p0 :: _ => Ret (drop2 p0)
               | [] => Raise (IndexError "list index out of range")
               end);
  Ret (root +:+ "." +:+ ext').

Definition ncols (d : DataFile) : nat :=
  match data d with
  | row :: _ => length row
  | [] => 0
  end.

(** What [save] leaves behind: the path opened for writing, the header
    line handed to [np.savetxt] and the lines written after it. *)
Record written : Type := mkWritten {
  w_path : string;
  w_header : string;
  w_lines : list string
}.

Section Saving.
(** Not among the sources: [__len__], [metadata.export] and the array
    class of [self.data].  The lines of [save] that sort the metadata,
    export one entry per row of data and lay them against the data with
    [np.column_stack] are seen as a whole: from the metadata and the data
    they give the lines to be written after the header, or they raise, as
    [np.column_stack] does when the column of metadata and the data do
    not fit together. *)
Variable lay_out : gmap string mdval → list (list Z) → res (list string).

(** [DataFile.save(filename)] in the native format ([as_loaded] false).
    The file is opened after the lines have been laid out. *)
Definition save (dialog : option string) (self : DataFile) (filename : option string)
    : res (DataFile * written) :=
  let filename1 := match filename with Some f => Some f | None => Loader.filename self end in
  let '(self1, filename2) :=
    match filename1 with
    | Some f => (self, Some f)
    | None =>
        match dialog with
        | Some f => (set_filename self (Some f), Some f)
        | None => (self, None)
        end
    end in
  match filename2 with
  | None => Raise (TypeError "expected str, bytes or os.PathLike object, not NoneType")
  | Some f =>
      path ← normalise _patterns f;
      let header := join (String tab "")
                      ("TDI Format 1.5" :: take (ncols self1) (column_headers self1)) in
      lines ← lay_out (metadata self1) (data self1);
      Ret (set_filename self1 (Some path), mkWritten path header lines)
  end.

End Saving.

End Save.

(** ** Column deletion, [DataFile.del_column] *)

Module Columns.
Import Py.

(** The matrix with its mask (lists of rows), and one header and one
    [setas] role per column. *)
Record DataFile : Type := mkDataFile {
  data : list (list Z);
  mask : list (list bool);
  column_headers : list string;
  setas : list string
}.

(** The forms of the [col] argument that [del_column] tells apart by
    type before it falls back on [find_col]. *)
Inductive col_arg (selector : Type) : Type :=
| ColNone
| ColBool (b : bool)
| ColBools (flags : list bool)
| ColOther (sel : selector).
Arguments ColNone {selector}.
Arguments ColBool {selector} b.
Arguments ColBools {selector} flags.
Arguments ColOther {selector} sel.

(** [np.array(l)[index]] for a boolean [index] of the length of [l]. *)
Fixpoint bool_index {A} (index : list bool) (l : list A) : list A :=
  match index, l with
  | b :: index', x :: l' => if b then x :: bool_index index' l' else bool_index index' l'
  | _, _ => []
  end.

(** numpy refuses a boolean index whose length is not that of the
    indexed axis. *)
Definition checked_index {A} (index : list bool) (l : list A) : res (list A) :=
  if bool_decide (length index = length l) then Ret (bool_index index l)
  else Raise (IndexError "boolean index did not match indexed array").

(** [data[:, index]] *)
Definition column_index (index : list bool) (rows : list (list Z)) : res (list (list Z)) :=
  mapM (M := res) (checked_index index) rows.

(** Modelled from the spec: [_setas.set] of [Stoner/core/setas.py] is not
    among the sources; section 3 takes the role ["."] to mean "unset". *)
Definition role_set (role : string) : bool := negb (bool_decide (role = ".")).

Section DelColumn.
Context {selector : Type}.
(** The two branches that rest on code outside the sources: the
    compression by the mask (what becomes of [setas] is decided by the
    [data] setter) and the deletion of columns found by [find_col]. *)
Variable compress_masked : DataFile → res DataFile.
Variable delete_found : DataFile → selector → res DataFile.

(** The branch for an iterable of booleans. *)
Definition del_column_bools (self : DataFile) (flags : list bool) : res DataFile :=
  match flags with
  | [] => Raise (TypeError "ufunc 'invert' not supported for the input types")
  | _ =>
      let col := negb <$> flags in                       (* col = ~np.array(col) *)
      new_setas ← checked_index col (setas self);
      new_column_headers ← checked_index col (column_headers self);
      new_data ← column_index col (data self);
      new_mask ← mapM (M := res) (checked_index col) (mask self);
      Ret (mkDataFile new_data new_mask new_column_headers new_setas)
  end.

(** [[l[ix] for ix, v in enumerate(flags) if v]] *)
Definition pick_set {A} (flags : list bool) (l : list A) : res (list A) :=
  mapM (M := res)
    (fun ix => match l !! ix with
               | Some x => Ret x
               | None => Raise (IndexError "list index out of range")
               end)
    (filter (fun ix => flags !! ix = Some true) (seq 0 (length flags))).

(** [del_column(col)] with [duplicates] left false. *)
Definition del_column (self : DataFile) (col : col_arg selector) : res DataFile :=
  match col with
  | ColNone | ColBool false => compress_masked self
  | ColBool true =>
      let set := role_set <$> setas self in
      ch ← pick_set set (column_headers self);
      new_setas ← pick_set set (setas self);
      new_data ← column_index set (data self);
      new_mask ← mapM (M := res) (checked_index set) (mask self);
      Ret (mkDataFile new_data new_mask ch new_setas)
  | ColBools flags => del_column_bools self flags
  | ColOther sel => delete_found self sel
  end.

End DelColumn.

End Columns.

(** ** Construction from one argument, [DataFile._init_single] *)

Module Construct.
Import Py.

(** The Python values that the constructor tells apart by type.  The two
    [ndarray] forms have a numeric dtype: a vector, and a matrix given by
    its rows together with its number of columns. *)
#[local] Unset Elimination Schemes.
Inductive pyval : Type :=
| PNone
| PBool (b : bool)
| PInt (z : Z)
| PStr (s : string)
| PList (items : list pyval)
| PDict (items : list (pyval * pyval))
| PVector (cells : list Z)
| PMatrix (ncols : nat) (rows : list (list Z)).
#[local] Set Elimination Schemes.

(** The instance: its data, the column headers that were last assigned
    to it, its roles and its metadata. *)
Record DataFile : Type := mkDataFile {
  data : list (list Z);
  assigned_headers : list string;
  setas : list string;
  metadata : list (pyval * pyval)
}.

(** The instance as [__new__] leaves it: [np.atleast_2d(DataArray([]))]
    is one row without columns, and no header has been assigned. *)
Definition fresh : DataFile := mkDataFile [[]] [] [] [].

(** [data.shape] *)
Definition shape (d : DataFile) : nat * nat :=
  (length (data d), length (hd [] (data d))).

Section Headers.
(** Not among the sources: the [column_headers] property of
    [Stoner/core/property.py] and [Stoner/core/setas.py], which answers
    the headers that were assigned, fitted to the columns of the data:
    [shown n hs] is its answer for a matrix of [n] columns to which the
    headers [hs] were assigned. *)
Variable shown : nat → list string → list string.

(** [self.column_headers], read. *)
Definition column_headers (d : DataFile) : list string :=
  shown (shape d).2 (assigned_headers d).

End Headers.

Definition is_str (v : pyval) : bool := match v with PStr _ => true | _ => false end.
Definition is_ndarray (v : pyval) : bool :=
  match v with PVector _ | PMatrix _ _ => true | _ => false end.
Definition is_vector (v : pyval) : bool :=
  match v with PVector _ => true | _ => false end.

(** [len(v)] *)
Definition py_len (v : pyval) : nat :=
  match v with
  | PVector cells => length cells
  | PMatrix _ rows => length rows
  | PList items => length items
  | PDict items => length items
  | PStr s => String.length s
  | _ => 0
  end.

(** [len(v.shape) == 1 and len(v) == n] *)
Definition is_vector_of (n : nat) (v : pyval) : bool :=
  is_vector v && bool_decide (py_len v = n).

Definition cells_of (v : pyval) : list Z :=
  match v with PVector cells => cells | _ => [] end.
Definition str_of (v : pyval) : string :=
  match v with PStr s => s | _ => "" end.

(** [np.column_stack] of vectors: row [i] collects the [i]-th cell of
    every vector; vectors of different lengths are refused. *)
Definition column_stack (columns : list (list Z)) : res (list (list Z)) :=
  match columns with
  | [] => Raise (ValueError "need at least one array to concatenate")
  | first :: _ =>
      if forallb (fun col => bool_decide (length col = length first)) columns
      then Ret ((fun i => (fun col => default 0%Z (col !! i)) <$> columns)
                  <$> seq 0 (length first))
      else Raise (ValueError "all the input array dimensions must match")
  end.

(** Modelled from the spec: the [data] property setter of
    [Stoner/core/property.py] is not among the sources.  Section 3 keeps
    one role per data column; a column without an explicit role is
    unset, written ["."]. *)
Definition set_data (rows : list (list Z)) (d : DataFile) : DataFile :=
  let n := length (hd [] rows) in
  mkDataFile rows (assigned_headers d) (resize n "." (setas d)) (metadata d).

(** [self.column_headers = hs] *)
Definition set_column_headers (hs : list string) (d : DataFile) : DataFile :=
  mkDataFile (data d) hs (setas d) (metadata d).

Definition set_metadata (md : list (pyval * pyval)) (d : DataFile) : DataFile :=
  mkDataFile (data d) (assigned_headers d) (setas d) md.

(** [md[key] = v] for a string key: the entry is replaced where it
    stands, or added at the end. *)
Fixpoint md_set (key : string) (v : pyval) (md : list (pyval * pyval))
    : list (pyval * pyval) :=
  match md with
  | [] => [(PStr key, v)]
  | (k, v') :: rest =>
      if bool_decide (str_of k = key) && is_str k then (k, v) :: rest
      else (k, v') :: md_set key v rest
  end.

Section InitSingle.
(** [self.load] on positional arguments: reading from a file, by name or through the file
    dialog.  Arguments of kinds that [pyval] does not render (another
    DataFile, an image, a data frame, an open file) are out of reach of
    the functions below. *)
Variable load : DataFile → list pyval → res DataFile.

(** [_init_many] on its positional arguments. *)
Definition _init_many (self : DataFile) (args : list pyval) : res DataFile :=
  if forallb is_vector args then
    rows ← column_stack (cells_of <$> args);
    Ret (set_data rows self)
  else load self args.

Definition _init_single (self : DataFile) (arg : pyval) : res DataFile :=
  match arg with
  | PStr _ | PBool false => load self [arg]
  | PVector cells =>
      (* the data are set, then [np.shape(arg)[1]] fails *)
      Raise (IndexError "tuple index out of range")
  | PMatrix ncols rows =>
      Ret (set_column_headers ((fun x => "Column_" +:+ pretty x) <$> seq 0 ncols)
             (set_data rows self))
  | PDict items =>
      let keys := items.*1 in
      let values := items.*2 in
      if forallb is_str keys && forallb is_ndarray values
         && forallb (is_vector_of (py_len (hd PNone values))) values
      then
        rows ← column_stack (cells_of <$> values);
        Ret (set_column_headers (str_of <$> keys) (set_data rows self))
      else Ret (set_metadata items self)
  | PList items =>
      if forallb is_str items then Ret (set_column_headers (str_of <$> items) self)
      else if forallb is_ndarray items then _init_many self items
      else Raise (SyntaxError "No constructor for <class 'list'>")
  | PNone => Raise (SyntaxError "No constructor for <class 'NoneType'>")
  | PBool true => Raise (SyntaxError "No constructor for <class 'bool'>")
  | PInt _ => Raise (SyntaxError "No constructor for <class 'int'>")
  end.

(** [DataFile(arg)]: [__new__], then [__init__] with one positional
    argument and no keyword. *)
Definition init (arg : pyval) : res DataFile :=
  d ← _init_single fresh arg;
  Ret (set_metadata (md_set "Stoner.class" (PStr "DataFile") (metadata d)) d).

End InitSingle.

(** Modelled from the spec: the [_setas] class of [Stoner/core/setas.py]
    is not among the sources.  Section 3: a role string gives one symbol
    per column and the length of the role map always equals the number of
    columns.  Section 4.2: the lookup of the singleton role [x] returns one
    index, or "unset"; the lookup of [y] returns the ordered list of the
    indices that carry it. *)
Definition set_setas (roles : string) (d : DataFile) : DataFile :=
  let chars := (fun c => String c "") <$> list_ascii_of_string roles in
  mkDataFile (data d) (assigned_headers d)
    (resize (length (hd [] (data d))) "." chars) (metadata d).

Definition find_role (role : string) (d : DataFile) : list nat :=
  filter (fun i => setas d !! i = Some role) (seq 0 (length (setas d))).

Definition xcol (d : DataFile) : option nat := head (find_role "x" d).
Definition ycol (d : DataFile) : list nat := find_role "y" d.

End Construct.

(** ** The mask and its stack, [_set_mask], [_push_mask], [_pop_mask] *)

Module Masks.
Import Py.

(** Mask buffers live in a store and are named by their location: what
    is appended to a list and what is read back from it is the buffer
    itself, not its content at the time. *)
Abbreviation loc := nat.
Abbreviation store := (list (list (list bool))).

(** What a mask can be set to or saved as: a Python boolean, an array of
    booleans of the caller's own, or the mask buffer at a location. *)
Inductive mask_value : Type :=
| MBool (b : bool)
| MArray (m : list (list bool))
| MView (l : loc).

(** What a row function answers for one row: a boolean, or one boolean
    per cell. *)
Inductive verdict : Type :=
| VBool (t : bool)
| VCells (t : list bool).

(** A callable given as mask, by the number of its arguments. *)
Inductive mask_func : Type :=
| Func1 (f : list Z → verdict)
| Func2 (f : Z → list Z → verdict).

Inductive mask_arg : Type :=
| Value (v : mask_value)
| Callable (f : mask_func).

(** The instance: its data, the location of the mask buffer of its data,
    and the stack [_masks]. *)
Record DataFile : Type := mkDataFile {
  data : list (list Z);
  mask_at : loc;
  _masks : list mask_value
}.

Abbreviation world := (store * DataFile)%type.

(** The mask as it stands. *)
Definition mask (w : world) : option (list (list bool)) := w.1 !! mask_at w.2.

(** The instance as [__new__] and [__init__] leave it, for given data:
    nothing is masked and the stack holds the sentinel [False]. *)
Definition fresh (rows : list (list Z)) : world :=
  ([(fun row : list Z => (fun _ => false) <$> row) <$> rows],
   mkDataFile rows 0 [MBool false]).

Definition with_masks (ms : list mask_value) (d : DataFile) : DataFile :=
  mkDataFile (data d) (mask_at d) ms.

(** The buffer of the mask receives new cells; it remains the same
    buffer. *)
Definition write_mask (m : list (list bool)) (w : world) : world :=
  (<[mask_at w.2 := m]> w.1, w.2).

Definition fill (b : bool) (m : list (list bool)) : list (list bool) :=
  (fun row : list bool => (fun _ => b) <$> row) <$> m.

(** [current.flat = src]: the cells are written in row-major order,
    [src] being repeated as often as needed. *)
Fixpoint flat_fill (src : list bool) (k : nat) (rows : list (list bool))
    : list (list bool) :=
  match rows with
  | [] => []
  | row :: rest =>
      imap (fun j _ => default false (src !! ((k + j) mod length src))) row
        :: flat_fill src (k + length row) rest
  end.

(** The cells of [current] after an array [m] has been assigned to it:
    an array of the shape of the mask gives its cells, any other array
    goes through the flat assignment, which writes nothing when the array
    has no cells. *)
Definition assign (m current : list (list bool)) : res (list (list bool)) :=
  if bool_decide (length <$> m = length <$> current) then Ret m
  else
    match concat m with
    | [] => Ret current
    | src => Ret (flat_fill src 0 current)
    end.

(** [self.data.mask = value] on the numpy masked array: the value is
    written into the cells of the mask buffer. *)
Definition set_data_mask (v : mask_value) (w : world) : world * option exn :=
  match mask w with
  | None => (w, Some (OtherError "SystemError"))
  | Some current =>
      match v with
      | MBool b => (write_mask (fill b current) w, None)
      | MArray m =>
          match assign m current with
          | Ret m' => (write_mask m' w, None)
          | Raise e => (w, Some e)
          end
      | MView l =>
          match w.1 !! l with
          | None => (w, Some (OtherError "SystemError"))
          | Some m =>
              match assign m current with
              | Ret m' => (write_mask m' w, None)
              | Raise e => (w, Some e)
              end
          end
      end
  end.

(** The mask of row [i] after the function has answered [t]. *)
Definition update_row (invert cumulative : bool) (t : verdict) (mrow : list bool)
    : list bool :=
  match t with
  | VBool t =>
      if xorb t invert then (fun _ => true) <$> mrow
      else if negb cumulative then (fun _ => false) <$> mrow
      else mrow
  | VCells t =>
      imap (fun j m => match t !! j with
                       | Some tj => if xorb tj invert then true
                                    else if negb cumulative then false else m
                       | None => m
                       end) mrow
  end.

(** [func(r)] or [func(r[col], r)] *)
Definition call (func : mask_func) (col : nat) (r : list Z) : res verdict :=
  match func with
  | Func1 f => Ret (f r)
  | Func2 f =>
      match r !! col with
      | Some x => Ret (f x r)
      | None => Raise (IndexError "index out of bounds")
      end
  end.

(** The loop of [_set_mask] over the rows; the rows of the mask that come
    after a failing call stay as they are. *)
Fixpoint set_mask_rows (func : mask_func) (invert cumulative : bool) (col : nat)
    (rows : list (list Z)) (mrows : list (list bool))
    : list (list bool) * option exn :=
  match rows, mrows with
  | r :: rows', mrow :: mrows' =>
      match call func col r with
      | Raise e => (mrows, Some e)
      | Ret t =>
          let '(rest, e) := set_mask_rows func invert cumulative col rows' mrows' in
          (update_row invert cumulative t mrow :: rest, e)
      end
  | _, _ => (mrows, None)
  end.

Definition _set_mask (func : mask_func) (invert cumulative : bool) (col : nat)
    (w : world) : world * option exn :=
  match mask w with
  | None => (w, Some (OtherError "SystemError"))
  | Some current =>
      let '(m, e) := set_mask_rows func invert cumulative col (data w.2) current in
      (write_mask m w, e)
  end.

(** Modelled from the spec: the [mask] property of
    [Stoner/core/property.py] is not among the sources.  The class
    docstring has the getter "equivalent to self.data.mask" and section 9
    has the masked array carry "both data and mask with view semantics":
    the getter answers the mask buffer of the data, not a copy of its
    cells.  The docstring of [__setattr__] has the setter pass a callable to
    [_set_mask] and anything else to [self.data.mask]. *)
Definition get_mask (w : world) : mask_value := MView (mask_at w.2).

Definition set_mask (v : mask_arg) (w : world) : world * option exn :=
  match v with
  | Callable f => _set_mask f false false 0 w
  | Value v => set_data_mask v w
  end.

(** [_push_mask(mask)] *)
Definition _push_mask (new_mask : option mask_arg) (w : world) : world * option exn :=
  let w1 := (w.1, with_masks (_masks w.2 ++ [get_mask w]) w.2) in
  match new_mask with
  | None => set_data_mask (MBool false) w1
  | Some v => set_mask v w1
  end.

(** [_pop_mask()] *)
Definition _pop_mask (w : world) : world * option exn :=
  let '(w1, _) := set_mask (Value (MBool false)) w in
  match last (_masks w1.2) with
  | None => (w1, Some (IndexError "pop from empty list"))
  | Some top =>
      let w2 := (w1.1, with_masks (removelast (_masks w1.2)) w1.2) in
      match set_mask (Value top) w2 with
      | (w3, Some e) => (w3, Some e)
      | (w3, None) =>
          (match _masks w3.2 with
           | [] => (w3.1, with_masks [MBool false] w3.2)
           | _ => w3
           end, None)
      end
  end.

End Masks.

(** ** The image stack, [ImageStackMixin] *)

Module Stack.
Import Py.

(** The kind letter and the item size of a numpy dtype. *)
Inductive kind : Type := KBool | KInt | KUInt | KFloat | KComplex.
Record dtype : Type := mkDtype { dt_kind : kind; dt_size : nat }.
Definition float64 : dtype := mkDtype KFloat 8.

#[global] Instance kind_eq_dec : EqDecision kind.
Proof. solve_decision. Defined.
#[global] Instance dtype_eq_dec : EqDecision dtype.
Proof. solve_decision. Defined.

(** A page is named by an integer or by a string. *)
Inductive key : Type :=
| KeyInt (i : Z)
| KeyStr (name : string).

(** The position that Python gives to the index [i] of a sequence of
    length [len], when there is one. *)
Definition norm_index (len : nat) (i : Z) : option nat :=
  if bool_decide (0 ≤ i < Z.of_nat len)%Z then Some (Z.to_nat i)
  else if bool_decide (- Z.of_nat len ≤ i < 0)%Z then Some (Z.to_nat (Z.of_nat len + i))
  else None.

(** [l.insert(ix, x)] *)
Definition list_insert_at {A} (ix : nat) (x : A) (l : list A) : list A :=
  take ix l ++ x :: drop ix l.

Section WithCells.
Context {cell meta : Type}.
(** The cell that [np.zeros] fills with. *)
Variable zero : cell.
(** Not among the sources: the conversion that numpy applies to a cell
    of one dtype when it is assigned into an array of another dtype. *)
Variable cast : dtype → dtype → cell → cell.

(** An image as [ImageFile(value)] presents it. *)
Record image : Type := mkImage {
  im_shape : nat * nat;
  im_data : list (list cell);
  im_metadata : meta;
  im_dtype : dtype
}.

(** [_stack] is the buffer of shape [(rows, cols, pages)], kept as the
    list of its pages, each the list of its rows; [_metadata] is the
    ordered dictionary from name to metadata; [_sizes] has one
    [(rows, cols)] per line. *)
Record ImageStack : Type := mkStack {
  st_rows : nat;
  st_cols : nat;
  st_pages : list (list (list cell));
  st_dtype : dtype;
  _metadata : list (string * meta);
  _names : list string;
  _sizes : list (nat * nat)
}.

(** [_stack.shape] *)
Definition stack_shape (s : ImageStack) : nat * nat * nat :=
  (st_rows s, st_cols s, length (st_pages s)).

(** [__init__] without arguments:
    [np.atleast_3d(np.ma.MaskedArray([]))] has shape (1, 0, 1). *)
Definition empty_stack : ImageStack :=
  mkStack 1 0 [[[]]] float64 [] [] [].

(** [__names__()] *)
Definition names (s : ImageStack) : list string := (_metadata s).*1.

(** [max_size] *)
Definition max_size (s : ImageStack) : nat * nat :=
  match _sizes s with
  | [] => (0, 0)
  | _ => (max_list (_sizes s).*1, max_list (_sizes s).*2)
  end.

Definition cell_of (page : list (list cell)) (i j : nat) : cell :=
  default zero (page !! i ≫= fun row => row !! j).

(** The page cut or padded with zeros to [rows] by [cols]. *)
Definition resize_page (rows cols : nat) (page : list (list cell)) : list (list cell) :=
  (fun i => (fun j => cell_of page i j) <$> seq 0 cols) <$> seq 0 rows.

Definition zero_page (rows cols : nat) : list (list cell) :=
  replicate rows (replicate cols zero).

(** A cell of dtype [from] assigned into an array of dtype [to]: copied
    when the dtypes are the same, converted otherwise. *)
Definition store_cell (from to : dtype) (c : cell) : cell :=
  if bool_decide (from = to) then c else cast from to c.
Definition store_page (from to : dtype) (page : list (list cell)) : list (list cell) :=
  (fun row : list cell => store_cell from to <$> row) <$> page.

(** [_resize_stack(new_size, dtype)]: the cells of the old buffer that
    lie within the new shape are assigned into [np.ma.zeros(new_size,
    dtype)]. *)
Definition _resize_stack (new_size : nat * nat * nat) (dt : option dtype)
    (s : ImageStack) : ImageStack :=
  if bool_decide (stack_shape s = new_size) then s
  else
    let '(rows, cols, pag) := new_size in
    let dtype := default (st_dtype s) dt in
    mkStack rows cols
      (resize pag (zero_page rows cols)
         ((fun page => resize_page rows cols (store_page (st_dtype s) dtype page))
            <$> st_pages s))
      dtype
      (_metadata s) (_names s) (_sizes s).

(** [page[:row, :col] = value] *)
Definition write_page (row col : nat) (value : list (list cell))
    (page : list (list cell)) : list (list cell) :=
  imap (fun i line =>
          imap (fun j c => if bool_decide (i < row ∧ j < col)
                           then default c (value !! i ≫= fun r => r !! j) else c)
               line) page.

(** [_metadata[name] = md] on the ordered dictionary. *)
Fixpoint dict_set (name : string) (md : meta) (d : list (string * meta))
    : list (string * meta) :=
  match d with
  | [] => [(name, md)]
  | (k, v) :: rest =>
      if bool_decide (k = name) then (k, md) :: rest
      else (k, v) :: dict_set name md rest
  end.

Definition dict_del (name : string) (d : list (string * meta)) : list (string * meta) :=
  filter (fun kv => kv.1 ≠ name) d.

(** [l.index(x)] *)
Definition index_of (x : string) (l : list string) : option nat :=
  fst <$> list_find (fun y => y = x) l.

(** *** Methods

    A method runs on the stack, may change it, and returns a value or
    raises; the changes made before an exception stay. *)
Definition op (A : Type) : Type := ImageStack → ImageStack * res A.
Definition op_ret {A} (a : A) : op A := fun s => (s, Ret a).
Definition op_bind {A B} (m : op A) (k : A → op B) : op B :=
  fun s => match m s with
           | (s', Ret a) => k a s'
           | (s', Raise e) => (s', Raise e)
           end.
Definition raise {A} (e : exn) : op A := fun s => (s, Raise e).
Definition get : op ImageStack := fun s => (s, Ret s).
Definition modify (f : ImageStack → ImageStack) : op unit := fun s => (f s, Ret tt).
Definition lift {A} (r : res A) : op A := fun s => (s, r).

#[local] Instance op_mret : MRet op := @op_ret.
#[local] Instance op_mbind : MBind op := fun A B k m => op_bind m k.

(** Not among the sources: the pattern lookup of [regexpDict], which
    answers the stored key that a name stands for, if any; the naming
    of a new page by [baseFolder.make_name]. *)
Variable md_lookup : list string → string → option string.
Variable make_name : ImageStack → image → string.

Definition with_names (f : list string → list string) (s : ImageStack) :=
  mkStack (st_rows s) (st_cols s) (st_pages s) (st_dtype s)
    (_metadata s) (f (_names s)) (_sizes s).
Definition with_metadata (f : list (string * meta) → list (string * meta))
    (s : ImageStack) :=
  mkStack (st_rows s) (st_cols s) (st_pages s) (st_dtype s)
    (f (_metadata s)) (_names s) (_sizes s).
Definition with_sizes (f : list (nat * nat) → list (nat * nat)) (s : ImageStack) :=
  mkStack (st_rows s) (st_cols s) (st_pages s) (st_dtype s)
    (_metadata s) (_names s) (f (_sizes s)).
Definition with_pages (f : list (list (list cell)) → list (list (list cell)))
    (s : ImageStack) :=
  mkStack (st_rows s) (st_cols s) (f (st_pages s)) (st_dtype s)
    (_metadata s) (_names s) (_sizes s).

(** [__lookup__(name)] *)
Definition __lookup__ (name : key) : op Z :=
  s ← get;
  match name with
  | KeyInt i =>
      match norm_index (length (st_pages s)) i with
      | Some _ => mret i
      | None => raise (KeyError "out of range for accessing the ImageStack.")
      end
  | KeyStr n =>
      n' ← (if bool_decide (n ∈ names s) then mret n
            else match md_lookup (names s) n with
                 | Some k => mret k
                 | None => raise (KeyError n)
                 end);
      match index_of n' (names s) with
      | Some i => mret (Z.of_nat i)
      | None => raise (ValueError "is not in list")
      end
  end.

(** [_stack[:row, :col, idx] = data] for [data] of dtype [from]: the
    cells are stored in the dtype of the buffer. *)
Definition assign_page (idx : Z) (shape : nat * nat) (from : dtype)
    (data : list (list cell)) : op unit :=
  s ← get;
  match norm_index (length (st_pages s)) idx with
  | None => raise (IndexError "index is out of bounds for axis 2")
  | Some k =>
      if bool_decide (shape.1 ≤ st_rows s ∧ shape.2 ≤ st_cols s) then
        modify (with_pages
                  (alter (write_page shape.1 shape.2
                            (store_page from (st_dtype s) data)) k))
      else raise (ValueError "could not broadcast input array")
  end.

(** [__inserter__(ix, name, value)] *)
Definition __inserter__ (ix : nat) (name : string) (value : image) : op unit :=
  _ ← modify (with_names (list_insert_at ix name));
  _ ← modify (with_metadata (dict_set name (im_metadata value)));
  s ← get;
  _ ← (if bool_decide (ix ≤ length (_sizes s))
       then modify (with_sizes (list_insert_at ix (im_shape value)))
       else raise (IndexError "index is out of bounds for axis 0"));
  s ← get;
  let new_size := (max_size s, length (_names s)) in
  let dt := if bool_decide (new_size.2 = 1) then Some (im_dtype value) else None in
  _ ← modify (_resize_stack new_size dt);
  s ← get;
  _ ← (if bool_decide (ix ≤ length (st_pages s))
       then modify (with_pages
                      (list_insert_at ix (zero_page (max_size s).1 (max_size s).2)))
       else raise (IndexError "index is out of bounds for axis 2"));
  assign_page (Z.of_nat ix) (im_shape value) (im_dtype value) (im_data value).

(** Modelled from the spec: [__len__] of [baseFolder] is not among the
    sources; the length of a folder is the number of its names. *)
Definition len (s : ImageStack) : nat := length (names s).

(** [__setter__(name, value, force_insert)] for a value that is an
    image.  [name] is [None], an integer or a string. *)
Definition __setter__ (name : option key) (value : image) (force_insert : bool)
    : op unit :=
  s ← get;
  let name :=
    match name with
    | Some (KeyInt i) =>
        match norm_index (length (names s)) i ≫= fun k => names s !! k with
        | Some n => n
        | None => make_name s value
        end
    | Some (KeyStr n) => n
    | None => make_name s value
    end in
  found ← (fun s =>
             if force_insert then (s, Ret None)
             else match __lookup__ (KeyStr name) s with
                  | (s', Ret idx) => (s', Ret (Some idx))
                  | (s', Raise (KeyError _)) => (s', Ret None)
                  | (s', Raise e) => (s', Raise e)
                  end);
  match found with
  | None => s ← get; __inserter__ (len s) name value
  | Some idx =>
      s ← get;
      _ ← match norm_index (length (_sizes s)) idx with
          | Some k => modify (with_sizes (fun sz => <[k := im_shape value]> sz))
          | None => raise (IndexError "index is out of bounds for axis 0")
          end;
      _ ← modify (with_metadata (dict_set name (im_metadata value)));
      s ← get;
      let new_size := (max_size s, length (_sizes s)) in
      let dt := if bool_decide (new_size.2 = 1) then Some (im_dtype value) else None in
      _ ← modify (_resize_stack new_size dt);
      assign_page idx (im_shape value) (im_dtype value) (im_data value)
  end.

(** [np.delete(a, obj, axis)] and [del l[i]] on a list. *)
Definition delete_at {A} (what : string) (i : Z) (l : list A) : res (list A) :=
  match norm_index (length l) i with
  | Some k => Ret (delete k l)
  | None => Raise (IndexError what)
  end.

(** [__deleter__(ix)] *)
Definition __deleter__ (ix : key) : op unit :=
  idx ← __lookup__ ix;
  s ← get;
  name ← lift (match norm_index (length (names s)) idx ≫= fun k => names s !! k with
               | Some n => Ret n
               | None => Raise (IndexError "list index out of range")
               end);
  _ ← modify (with_metadata (dict_del name));
  pages ← lift (delete_at "index is out of bounds for axis 2" idx (st_pages s));
  _ ← modify (with_pages (fun _ => pages));
  names' ← lift (delete_at "list assignment index out of range" idx (_names s));
  _ ← modify (with_names (fun _ => names'));
  match ix with
  | KeyStr _ =>
      raise (IndexError "arrays used as indices must be of integer (or boolean) type")
  | KeyInt i =>
      sizes ← lift (delete_at "index is out of bounds for axis 0" i (_sizes s));
      modify (with_sizes (fun _ => sizes))
  end.

(** *** The ratio operator, [__floordiv__]

    The operator works on stacks as objects: its operands are references
    into a store of stacks, and [convert] and the assignment to [_stack]
    change an object where it lies. *)

(** Not among the sources: [imagefuncs.convert], which [convert(float)]
    passes the buffer to, seen as what it does to one cell of a buffer
    of a given dtype; the arithmetic of numpy on floating-point cells. *)
Variable to_float : dtype → cell → cell.
Variables sub add div : cell → cell → cell.

Definition cell3 (s : ImageStack) (i j p : nat) : cell :=
  cell_of (default [] (st_pages s !! p)) i j.

Abbreviation stacks := (list ImageStack).

(** [self._stack = convert(self._stack, float)] *)
Definition convert_buffer (s : ImageStack) : ImageStack :=
  mkStack (st_rows s) (st_cols s)
    ((fun page : list (list cell) =>
        (fun row : list cell => to_float (st_dtype s) <$> row) <$> page) <$> st_pages s)
    float64 (_metadata s) (_names s) (_sizes s).

(** [l.convert(float)]: the object is converted in place and is the
    value of the call. *)
Definition convert_float (l : nat) (h : stacks) : stacks :=
  alter convert_buffer l h.

(** Modelled from the spec: the [clone] property of [baseFolder] is not
    among the sources; a clone is a new object, a copy that shares
    nothing with its original. *)
Definition clone (l : nat) (h : stacks) : stacks * nat :=
  (h ++ option_list (h !! l), length h).

(** Broadcasting of one axis: equal lengths, or one of them 1. *)
Definition bdim (a b : nat) : option nat :=
  if bool_decide (a = b) then Some a
  else if bool_decide (a = 1) then Some b
  else if bool_decide (b = 1) then Some a
  else None.
Definition bidx (n i : nat) : nat := if bool_decide (n = 1) then 0 else i.

(** [a._stack op b._stack], cell by cell; the result takes the place of
    the buffer of [a]. *)
Definition elementwise (f : cell → cell → cell) (a b : ImageStack) : res ImageStack :=
  match bdim (st_rows a) (st_rows b), bdim (st_cols a) (st_cols b),
        bdim (length (st_pages a)) (length (st_pages b)) with
  | Some rows, Some cols, Some pag =>
      Ret (mkStack rows cols
             ((fun p =>
                 (fun i =>
                    (fun j =>
                       f (cell3 a (bidx (st_rows a) i) (bidx (st_cols a) j)
                            (bidx (length (st_pages a)) p))
                         (cell3 b (bidx (st_rows b) i) (bidx (st_cols b) j)
                            (bidx (length (st_pages b)) p)))
                      <$> seq 0 cols)
                   <$> seq 0 rows)
                <$> seq 0 pag)
             float64 (_metadata a) (_names a) (_sizes a))
  | _, _, _ => Raise (ValueError "operands could not be broadcast together")
  end.

(** The right operand of [//]: an image stack or something else. *)
Inductive operand : Type :=
| IsStack (l : nat)
| NotStack.

Inductive outcome : Type :=
| NotImplemented
| Raised (e : exn)
| Returned (l : nat).

(** [self // other] in the store [h]: the store as the call leaves it,
    and the outcome.  A reference that names no object does not arise in
    Python. *)
Definition __floordiv__ (self : nat) (other : operand) (h : stacks)
    : stacks * outcome :=
  match other with
  | NotStack => (h, NotImplemented)
  | IsStack o =>
      match h !! self, h !! o with
      | Some a, Some b =>
          if bool_decide (st_dtype a ≠ st_dtype b) then
            (h,
             Raised (ValueError "Only ImageFiles with the same type of underlying image data can be used to calculate an XMCD ratio."))
          else
            let '(h', ret, o') :=
              if bool_decide (dt_kind (st_dtype a) ≠ KFloat) then
                let '(h1, ret) := clone self h in
                let h2 := convert_float ret h1 in
                let '(h3, o') := clone o h2 in
                (convert_float o' h3, ret, o')
              else
                let '(h1, ret) := clone self h in (h1, ret, o) in
            match h' !! ret, h' !! o' with
            | Some r, Some b' =>
                match (num ← elementwise sub r b';
                       den ← elementwise add r b';
                       elementwise div num den) with
                | Ret q => (<[ret := q]> h', Returned ret)
                | Raise e => (h', Raised e)
                end
            | _, _ => (h', Raised (OtherError "SystemError"))
            end
      | _, _ => (h, Raised (OtherError "SystemError"))
      end
  end.

End WithCells.

End Stack.

(** ** Objects, references and [copy.deepcopy]

    A store of objects addressed by location, for the one method whose
    whole purpose is what is shared and what is not: [DataFile.__deepcopy__]. *)

Module Clone.
Import Py.

Abbreviation loc := nat.

(** A Python value: an immutable scalar, or a reference to an object of
    the store. *)
Inductive val : Type :=
| VNone
| VBool (b : bool)
| VInt (z : Z)
| VStr (s : string)
| VRef (l : loc).

(** The three kinds of object that map names to values: a dictionary
    with string keys, an instance of some class seen through its
    [__dict__], and an instance of [DataFile]. *)
Inductive map_kind : Type := Dict | Instance | DataFileInstance.

(** An object of the store: a numpy buffer, a list, a map from names to
    values, or an object that cannot be copied (an open file, a lock). *)
Inductive obj : Type :=
| OArray (cells : list Z)
| OList (items : list val)
| OMap (kind : map_kind) (items : list (string * val))
| OHandle (what : string).

Abbreviation heap := (list obj).
Abbreviation memo := (gmap loc loc).
Abbreviation state := (heap * memo)%type.

(** [d[k] = v] on an ordered dictionary; also [setattr] on a [__dict__]. *)
Fixpoint assoc_set (k : string) (v : val) (d : list (string * val))
    : list (string * val) :=
  match d with
  | [] => [(k, v)]
  | (k', v') :: rest =>
      if bool_decide (k' = k) then (k, v) :: rest
      else (k', v') :: assoc_set k v rest
  end.

Fixpoint assoc_get (k : string) (d : list (string * val)) : option val :=
  match d with
  | [] => None
  | (k', v') :: rest => if bool_decide (k' = k) then Some v' else assoc_get k rest
  end.

(** What a container under construction receives: [y.append(c)] for a
    list, [y[k] = c] or [setattr(y, k, c)] for a map. *)
Definition add_part (k : string) (c : val) (o : obj) : obj :=
  match o with
  | OList items => OList (items ++ [c])
  | OMap kind items => OMap kind (assoc_set k c items)
  | OArray cells => OArray cells
  | OHandle w => OHandle w
  end.

Definition push (l : loc) (k : string) (c : val) (h : heap) : heap :=
  alter (add_part k c) l h.

(** The loop over the parts of a container: each part is copied by
    [copy] and the copy pushed into the new container at [l]. *)
Fixpoint copy_parts (copy : val → state → state * res val) (l : loc)
    (parts : list (string * val)) (st : state) : state * res unit :=
  match parts with
  | [] => (st, Ret ())
  | (k, v) :: rest =>
      match copy v st with
      | (st', Ret c) => copy_parts copy l rest (push l k c st'.1, st'.2)
      | (st', Raise e) => (st', Raise e)
      end
  end.

(** [copy.copy(v)]: a new object with the same parts. *)
Definition shallow_copy (v : val) (st : state) : state * res val :=
  match v with
  | VRef l =>
      match st.1 !! l with
      | Some (OHandle w) => (st, Raise (TypeError ("cannot pickle " +:+ w)))
      | Some o => ((st.1 ++ [o], st.2), Ret (VRef (length st.1)))
      | None => (st, Raise (OtherError "SystemError"))
      end
  | _ => (st, Ret v)
  end.

(** The objects that [DataFile.__new__] creates besides the instance,
    which sits at [l]: the list [[False]] of [_masks], the dictionaries of
    [_public_attrs_real] and [_kargs], the empty array of [_data]. *)
Definition new_attrs (l : loc) : list (string * val) :=
  [("debug", VBool false); ("_masks", VRef (l + 1)); ("_filename", VNone);
   ("_public_attrs_real", VRef (l + 2)); ("_data", VRef (l + 3));
   ("_baseclass", VStr "DataFile"); ("_kargs", VRef (l + 4))].
Definition new_objects (l : loc) : list obj :=
  [OMap DataFileInstance (new_attrs l);
   OList [VBool false]; OMap Dict []; OArray []; OMap Dict []].

(** [try: ... copy.deepcopy(v, memo) except Exception: ... copy.copy(v)] *)
Definition or_shallow (deep : val → state → state * res val)
    (v : val) (st : state) : state * res val :=
  match deep v st with
  | (st', Ret c) => (st', Ret c)
  | (st', Raise _) => shallow_copy v st'
  end.

Definition keyless (items : list val) : list (string * val) :=
  (fun v => ("", v)) <$> items.

(** The empty container that the copy of an object starts from, and the
    parts to be copied into it. *)
Definition blank (l' : loc) (o : obj) : list obj :=
  match o with
  | OList _ => [OList []]
  | OMap DataFileInstance _ => new_objects l'
  | OMap kind _ => [OMap kind []]
  | OArray cells => [OArray cells]
  | OHandle w => []
  end.
Definition parts_of (o : obj) : list (string * val) :=
  match o with
  | OList items => keyless items
  | OMap _ items => items
  | _ => []
  end.

(** [copy.deepcopy(v, memo)].  An object met before is answered from
    the memo; a new one is copied part by part into a fresh object that
    the memo knows from the start.  For an instance of [DataFile] this is
    [__deepcopy__]: the fresh object is made by [__new__] and every
    attribute that cannot be copied in depth is copied shallowly.  The
    fuel bounds the depth of the recursion. *)
Fixpoint deepcopy (fuel : nat) (v : val) (st : state) : state * res val :=
  match v with
  | VRef l =>
      match st.2 !! l with
      | Some l' => (st, Ret (VRef l'))
      | None =>
          match fuel with
          | O => (st, Raise (OtherError "RecursionError"))
          | S fuel' =>
              let l' := length st.1 in
              match st.1 !! l with
              | None => (st, Raise (OtherError "SystemError"))
              | Some (OHandle w) => (st, Raise (TypeError ("cannot pickle " +:+ w)))
              | Some o =>
                  let copy :=
                    match o with
                    | OMap DataFileInstance _ => or_shallow (deepcopy fuel')
                    | _ => deepcopy fuel'
                    end in
                  match copy_parts copy l' (parts_of o)
                          (st.1 ++ blank l' o, <[l := l']> st.2) with
                  | (st', Ret _) => (st', Ret (VRef l'))
                  | (st', Raise e) => (st', Raise e)
                  end
              end
          end
      end
  | _ => (st, Ret v)
  end.

(** Modelled from the spec: the [clone] property of
    [Stoner/core/property.py] is not among the sources.  Section 3:
    "cloning produces a fully independent deep copy including metadata and
    setas"; the class docstring: "Creates a deep copy of the DataFile
    object".  A deep copy of a DataFile is [copy.deepcopy], which runs
    [__deepcopy__]. *)
Definition clone (fuel : nat) (d : loc) (h : heap) : heap * res loc :=
  match deepcopy fuel (VRef d) (h, ∅) with
  | ((h', _), Ret (VRef e)) => (h', Ret e)
  | ((h', _), Ret _) => (h', Raise (OtherError "SystemError"))
  | ((h', _), Raise e) => (h', Raise e)
  end.

End Clone.

(** * Further models *)

(** ** Masking rows by a test, [DataFile.filter] *)

Module Filter.
Import Py Masks.

(** The loop [for r in self.rows(): self.mask[r.i, :] = not func(r)]
    from row [i] on.  The test sees the row as the masked array hands it
    out, values and mask; the assignment goes through the mask as the
    [mask] property answers it (see [get_mask]), hence into the mask
    buffer of the data. *)
Fixpoint filter_rows (func : list Z → list bool → bool) (i : nat)
    (rows : list (list Z)) (w : world) : world * option exn :=
  match rows with
  | [] => (w, None)
  | r :: rest =>
      match mask w with
      | None => (w, Some (OtherError "SystemError"))
      | Some m =>
          match m !! i with
          | None => (w, Some (IndexError "index is out of bounds for axis 0"))
          | Some mrow =>
              let b := negb (func r mrow) in
              filter_rows func (S i) rest
                (write_mask (<[i := (fun _ => b) <$> mrow]> m) w)
          end
      end
  end.

(** [filter(func, cols=None, reset)], for a test that returns. *)
Definition filter (func : list Z → list bool → bool) (reset : bool) (w : world)
    : world * option exn :=
  let '(w1, e) := if reset then set_data_mask (MBool false) w else (w, None) in
  match e with
  | Some e => (w1, Some e)
  | None => filter_rows func 0 (data w1.2) w1
  end.

End Filter.

(** ** Reading an image back from the stack,
    [ImageStackMixin._instantiate] *)

Module StackRead.
Import Py Stack.

Section WithCells.
Context {cell meta : Type}.

(** [seq[idx]] on a Python list or along the first axis of an array. *)
Definition item {A} (what : string) (l : list A) (idx : Z) : res A :=
  match norm_index (length l) idx ≫= fun k => l !! k with
  | Some x => Ret x
  | None => Raise (IndexError what)
  end.

(** [_metadata[name]] for a stored name. *)
Definition dict_get (name : string) (d : list (string * meta)) : res meta :=
  match list_find (fun kv => kv.1 = name) d with
  | Some (_, (_, md)) => Ret md
  | None => Raise (KeyError name)
  end.

(** [page[:r, :c]]: a slice stops at the end of the axis. *)
Definition slice_page (r c : nat) (page : list (list cell)) : list (list cell) :=
  take c <$> take r page.

(** [_instantiate(idx)]: the image of the recorded size cut out of page
    [idx] of the buffer, with the metadata stored under the name at
    position [idx]. *)
Definition _instantiate (s : @ImageStack cell meta) (idx : Z) : res (@image cell meta) :=
  rc ← item "index is out of bounds for axis 0" (_sizes s) idx;
  page ← item "index is out of bounds for axis 2" (st_pages s) idx;
  name ← item "list index out of range" (names s) idx;
  md ← dict_get name (_metadata s);
  Ret (mkImage (rc.1 `min` st_rows s, rc.2 `min` st_cols s)
         (slice_page rc.1 rc.2 page) md (st_dtype s)).

End WithCells.

End StackRead.

(** ** Deleting rows, [DataFile.del_rows] *)

Module Rows.
Import Py.

(** A row of the masked matrix: its values and the mask of each. *)
Definition row : Type := (list Z * list bool)%type.

(** The forms of the [col] argument that [del_rows] tells apart when
    [val] is left [None].  The two list forms are not empty: which branch
    an empty list takes is decided by [all_type], which is not among the
    sources. *)
Inductive row_arg (other : Type) : Type :=
| RowsNone
| RowFlags (first : bool) (rest : list bool)
| RowIndex (i : Z)
| RowIndices (first : Z) (rest : list Z)
| RowOther (o : other).
Arguments RowsNone {other}.
Arguments RowFlags {other} first rest.
Arguments RowIndex {other} i.
Arguments RowIndices {other} first rest.
Arguments RowOther {other} o.

(** [np.delete(a, i, 0)] for an integer [i]. *)
Definition delete_row (i : Z) (rows : list row) : res (list row) :=
  match Stack.norm_index (length rows) i with
  | Some k => Ret (delete k rows)
  | None => Raise (IndexError "index is out of bounds for axis 0")
  end.

(** [for c in col: self.del_rows(c)] *)
Fixpoint delete_each (col : list Z) (rows : list row) : res (list row) :=
  match col with
  | [] => Ret rows
  | c :: rest => rows' ← delete_row c rows; delete_each rest rows'
  end.

(** [col.sort(reverse=True)] *)
Definition sort_reverse (col : list Z) : list Z :=
  merge_sort Z.ge col.

(** [for i in range(n - 1, -1, -1): if i not in col: self.del_rows(i)] *)
Fixpoint delete_others (col : list Z) (n : nat) (rows : list row) : res (list row) :=
  match n with
  | O => Ret rows
  | S i =>
      rows' ← (if bool_decide (Z.of_nat i ∈ col) then Ret rows
               else delete_row (Z.of_nat i) rows);
      delete_others col i rows'
  end.

Section DelRows.
Context {other : Type}.
(** The three branches that rest on code outside the sources: the
    compression by the mask; the indexing [self.data[col]] of the matrix
    by a list of booleans, which goes through [DataArray.__getitem__];
    and the search of a column for values, which goes through
    [find_col]. *)
Variable compress_masked : list row → res (list row).
Variable index_by_flags : list row → list bool → res (list row).
Variable delete_matching : list row → other → bool → res (list row).

(** [del_rows(col, invert=invert)] *)
Definition del_rows (rows : list row) (col : row_arg other) (invert : bool)
    : res (list row) :=
  match col with
  | RowsNone => compress_masked rows
  | RowFlags first rest =>
      let col := first :: rest in
      let col := if bool_decide (length col < length rows)
                 then col ++ replicate (length rows - length col) false
                 else col in
      index_by_flags rows col
  | RowIndices first rest =>
      if invert then delete_others (first :: rest) (length rows) rows
      else delete_each (sort_reverse (first :: rest)) rows
  | RowIndex i =>
      if invert
      then Raise (OtherError "UnboundLocalError")   (* [self.del_rows([c], ...)] *)
      else delete_row i rows
  | RowOther o => delete_matching rows o invert
  end.

End DelRows.

End Rows.

(** ** The columns picked for display, [DataFile._interesting_cols] *)

Module Interesting.
Import Py.

(** [l[i]], [l[i] = x] and [l[:n]] on a Python list. *)
Definition py_get {A} (l : list A) (i : Z) : res A :=
  match Stack.norm_index (length l) i ≫= fun k => l !! k with
  | Some x => Ret x
  | None => Raise (IndexError "list index out of range")
  end.
Definition py_set {A} (l : list A) (i : Z) (x : A) : res (list A) :=
  match Stack.norm_index (length l) i with
  | Some k => Ret (<[k := x]> l)
  | None => Raise (IndexError "list assignment index out of range")
  end.
Definition py_upto {A} (l : list A) (n : Z) : list A :=
  if bool_decide (0 ≤ n)%Z then take (Z.to_nat n) l
  else take (Z.to_nat (Z.of_nat (length l) + n)) l.

(** [list(range(a, b))] *)
Definition range (a b : Z) : list Z :=
  (fun i => (a + Z.of_nat i)%Z) <$> seq 0 (Z.to_nat (b - a)).

(** [max(l)] of a list that is not empty. *)
Definition max_of (l : list Z) : Z := foldr Z.max (hd 0%Z l) l.

(** The loop over [enumerate(self.setas)], from index [ix] on. *)
Fixpoint scan (roles : list string) (ix last : Z) (interesting : list Z) : list Z :=
  match roles with
  | [] => interesting
  | typ :: rest =>
      let '(interesting, last) :=
        if bool_decide (last ≠ (-1)%Z ∧ last ≠ (ix - 1)%Z)
        then (interesting ++ [(-1)%Z], (-1)%Z) else (interesting, last) in
      let '(interesting, last) :=
        if bool_decide (typ ≠ ".") then (interesting ++ [ix], ix)
        else (interesting, last) in
      scan rest (ix + 1) last interesting
  end.

(** One turn of the loop that builds [col_assignments]. *)
Definition label (setas : list string) (i : Z) : res string :=
  if bool_decide (i ≠ (-1)%Z) then
    role ← py_get setas i;
    Ret (if bool_decide (role ≠ ".") then pretty i +:+ " (" +:+ role +:+ ")"
         else pretty i)
  else Ret "".

(** [_interesting_cols(cols)] on a file of [c] columns, [self.shape[1]],
    whose roles are [setas], one string per column. *)
Definition _interesting_cols (c : nat) (setas : list string) (cols : Z)
    : res (list Z * list string * Z) :=
  picked ←
    (if bool_decide (Z.of_nat c > cols)%Z then
       let interesting := scan setas 0 (-1) [] in
       let interesting :=
         if bool_decide (last interesting = Some (-1)%Z)
         then removelast interesting else interesting in
       let c_start :=
         match interesting with
         | [] => 0%Z
         | _ => (max_of interesting + 1)%Z
         end in
       let interesting := interesting ++ range c_start (Z.of_nat c) in
       let cols := if bool_decide (Z.of_nat (length interesting) < cols)%Z
                   then Z.of_nat (length interesting) else cols in
       x ← py_get interesting (cols - 3);
       interesting ← py_set interesting (cols - 2)
                       (if bool_decide (x ≠ (-1)%Z) then (-1)%Z
                        else (Z.of_nat c - 2)%Z);
       interesting ← py_set interesting (cols - 1) (Z.of_nat c - 1)%Z;
       Ret (py_upto interesting cols, cols)
     else Ret (range 0 (Z.of_nat c), cols));
  col_assignments ← mapM (M := res) (label setas) picked.1;
  Ret (picked.1, col_assignments, picked.2).

End Interesting.

(** ** The TDI reader after the header: the scan of the metadata column
    in [DataFile._load] *)

Module TdiScan.
Import Py Text Tdi.

(** The lines of a text file opened in text mode: a line ends at a line
    feed, at a carriage return, or at a carriage return followed by a line
    feed; the lines come without their ending. *)
Fixpoint split_lines (s : string) : list string :=
  match s with
  | EmptyString => []
  | String c rest =>
      if is_eol c then
        EmptyString ::
          match rest with
          | String c2 rest2 =>
              if bool_decide (c = "013"%char ∧ c2 = "010"%char)
              then split_lines rest2 else split_lines rest
          | EmptyString => []
          end
      else
        match split_lines rest with
        | [] => [String c EmptyString]
        | l :: ls => String c l :: ls
        end
  end.

(** The rows that the reader yields after the first one. *)
Definition later_rows (content : string) : list (list string) :=
  csv_row <$> tail (split_lines content).

(** The local variables of the loop; [still_data] is unbound until the
    loop has run once. *)
Record counters : Type := mkCounters {
  data_array : nat;
  metaDataArray : nat;
  cols : nat;
  still_data : option bool;
  keys : list string          (* the arguments of [metadata.import_key] *)
}.

(** [len(row) > 1 and row[1].strip() != ""] *)
Definition has_data (row : list string) : bool :=
  match row with
  | _ :: f1 :: _ => negb (bool_decide (strip f1 = ""))
  | _ => false
  end.

(** The loop [for row in reader].  How [import_key] reads the text of
    an entry is decided by [typeHintedDict], which is not among the
    sources; the entries are kept as they are passed. *)
Fixpoint scan_rows (rows : list (list string)) (st : counters) : res counters :=
  match rows with
  | [] => Ret st
  | row :: rest =>
      let st1 :=
        if has_data row
        then mkCounters (S (data_array st)) (metaDataArray st) (cols st) (Some true)
               (keys st)
        else mkCounters (data_array st) (metaDataArray st) (cols st) (Some false)
               (keys st) in
      f0 ← row0 row;
      if bool_decide (strip f0 = "") then Ret st1           (* [break] *)
      else
        scan_rows rest
          (mkCounters (data_array st1) (S (metaDataArray st1))
             (cols st1 `max` length row) (still_data st1) (keys st1 ++ [f0]))
  end.

(** How the numbers are then read: by [np.genfromtxt] over the whole
    file or over the file less a footer, in both cases from the columns
    [range(1, cols)], or not at all. *)
Inductive data_plan : Type :=
| ReadAll (usecols : list nat)
| ReadAbove (skip_footer : Z) (usecols : list nat)
| NoData.

Definition plan (st : counters) : res data_plan :=
  match still_data st with
  | None => Raise (OtherError "UnboundLocalError")
  | Some true => Ret (ReadAll (seq 1 (cols st - 1)))
  | Some false =>
      if bool_decide (0 < data_array st)
      then Ret (ReadAbove (Z.of_nat (metaDataArray st) - Z.of_nat (data_array st))%Z
                  (seq 1 (cols st - 1)))
      else Ret NoData
  end.

(** [_load] up to the calls of [np.genfromtxt]: the format, the column
    headers of the first row, the metadata entries, and the plan. *)
Definition _load_scan (content : string)
    : res (tdi_format * list string * list string * data_plan) :=
  '(fmt, col_headers_tmp) ← header_check content;
  st ← scan_rows (later_rows content) (mkCounters 0 0 0 None []);
  p ← plan st;
  Ret (fmt, col_headers_tmp, keys st, p).

End TdiScan.

(** ** The file name that [ImageFolderMixin.to_tiff] writes to *)

Module Tiff.
Import Py Text.

(** The lines of [to_tiff] that settle the name of the file: the
    extension is kept when it is [.tif] or [.tiff] and is [.tiff]
    otherwise. *)
Definition tiffname (filename : string) : string :=
  let ext := (splitext filename).2 in
  let ext := if bool_decide (ext ∈ [".tif"; ".tiff"]) then ext else ".tiff" in
  (splitext filename).1 +:+ ext.

End Tiff.

(** ** The repeated columns, [del_column(duplicates=True)] *)

Module Duplicates.
Import Py.

(** [ch.index(x, start)], when [x] is found. *)
Definition index_from (x : string) (start : nat) (ch : list string) : option nat :=
  (fun p => start + p.1) <$> list_find (fun y => y = x) (drop start ch).

(** The list [dups] that the loop over [enumerate(ch)] builds when [col]
    is [None]: for every header that occurs again further on, the
    position of its next occurrence. *)
Definition repeated (ch : list string) : list nat :=
  omap (fun i => ch !! i ≫= fun chi => index_from chi (S i) ch)
    (seq 0 (length ch)).

End Duplicates.

(** ** Emptying the stack, [ImageStackMixin.__clear__] *)

Module StackClear.
Import Py Stack.

Section WithCells.
Context {cell meta : Type}.

(** [__clear__()]: [_metadata] is a new empty dictionary and [_stack]
    the buffer [np.atleast_3d(np.ma.MaskedArray([]))] of shape (1, 0, 1)
    that [__init__] starts from; [_names] and [_sizes] are not assigned. *)
Definition __clear__ (s : @ImageStack cell meta) : @ImageStack cell meta :=
  mkStack 1 0 [[[]]] float64 [] (_names s) (_sizes s).

End WithCells.

End StackClear.

(** ** The scan number of an Attocube scan, [AttocubeScan.__init__] *)

Module Attocube.
Import Py.

(** [\d] on ASCII text. *)
Definition is_digit (c : ascii) : bool :=
  bool_decide (48 ≤ nat_of_ascii c ≤ 57).

(** The longest run of digits that the text starts with: what a greedy
    [\d+] takes. *)
Fixpoint digits (s : string) : string :=
  match s with
  | String c rest => if is_digit c then String c (digits rest) else ""
  | "" => ""
  end.

(** [SCAN_NO.search(s)] for [SCAN_NO = re.compile("SC_(\d+)")]: the
    group of the leftmost match, if there is one. *)
Fixpoint search (s : string) : option string :=
  match s with
  | "" => None
  | String c rest =>
      let here := match s with
                  | String "S" (String "C" (String "_" tail)) => digits tail
                  | _ => ""
                  end in
      if bool_decide (here = "") then search rest else Some here
  end.

(** [int(ds)] for a text of digits. *)
Fixpoint int_from (acc : Z) (ds : string) : Z :=
  match ds with
  | "" => acc
  | String c rest => int_from (10 * acc + (Z.of_nat (nat_of_ascii c) - 48)) rest
  end.
Definition int (ds : string) : Z := int_from 0 ds.

Fixpoint zeros (n : nat) : string :=
  match n with
  | O => ""
  | S n' => String "0" (zeros n')
  end.

(** [f"{scan:03d}"]: the sign of a negative number, then zeros up to a
    width of three characters, then the decimal digits. *)
Definition format_03d (scan : Z) : string :=
  let ds := pretty (Z.abs_N scan) in
  let sign := if bool_decide (scan < 0)%Z then "-" else "" in
  sign +:+ zeros (3 - String.length sign - String.length ds) +:+ ds.

(** The first argument of the constructor: a root name, a scan number,
    or neither, in which case the keywords [root] and [scan] are used. *)
Inductive first_arg : Type :=
| RootName (root_name : string)
| ScanNo (scan : Z)
| Keywords (root : option string) (scan : option Z).

(** The root name and the scan number that [__init__] works out. *)
Definition root_and_scan (a : first_arg) : option string * Z :=
  match a with
  | RootName root_name =>
      (Some root_name,
       match search root_name with
       | Some group => int group
       | None => (-1)%Z
       end)
  | ScanNo scan => (Some ("SC_" +:+ format_03d scan), scan)
  | Keywords root scan => (root, default (-1)%Z scan)
  end.

End Attocube.

(** * Properties *)

(** ** Load dispatch *)

Section LoadDispatch.
Import Py Loader.

Variables (self : DataFile) (fname : string) (mimetype : option string).

(** A candidate that lets the loop go on: skipped on its mime type, or
    tried and answered by one of the two caught exception classes. *)
Definition passes (cls : handler) : Prop :=
  attempt self fname mimetype cls = Skipped ∨
  attempt self fname mimetype cls = NextCandidate.

(** The classes of [hs] whose [_load] runs when the loop walks through
    all of [hs]. *)
Definition parsed (hs : list (string * handler)) : list string :=
  cls_name <$> filter (fun cls => mime_mismatch mimetype cls = false) hs.*2.

Lemma auto_loop_passes keys pre rest :
  Forall (fun kc => passes kc.2) pre →
  auto_loop keys self fname mimetype (pre ++ rest) =
    (parsed pre ++ (auto_loop keys self fname mimetype rest).1,
     (auto_loop keys self fname mimetype rest).2).
Proof.
  induction 1 as [|[k cls] pre Hp _ IH]; simpl.
  - by destruct (auto_loop _ _ _ _ rest).
  - unfold parsed in *. simpl in *. rewrite filter_cons.
    destruct Hp as [Hp|Hp]; rewrite Hp.
    + unfold attempt in Hp.
      destruct (mime_mismatch mimetype cls) eqn:Hm.
      * rewrite decide_False by done. exact IH.
      * destruct (_load cls fname) as [[?|]|e]; try done.
        destruct (is_load_error e), (is_unicode_error e); done.
    + unfold attempt in Hp.
      destruct (mime_mismatch mimetype cls) eqn:Hm; [done|].
      rewrite decide_True by done. rewrite IH. done.
Qed.

Lemma attempt_raise cls e :
  mime_mismatch mimetype cls = false →
  _load cls fname = Raise e →
  attempt self fname mimetype cls =
    if is_load_error e || is_unicode_error e then NextCandidate else Propagates e.
Proof.
  intros Hm He. unfold attempt. rewrite Hm, He.
  by destruct (is_load_error e), (is_unicode_error e).
Qed.

End LoadDispatch.

Section LoadClaims.
Import Py Loader.

(** [load(filename)] with an existing file and no [filetype] is the
    auto-detecting loop over the whole registry. *)
Lemma load_auto E own self f :
  path_exists E f = true →
  load E own self (Some f) None None =
    auto_loop (subclasses E).*1 (set_filename self (Some f)) f
      ((fun m => m f) <$> filemagic E) (subclasses E).
Proof. intros Hex. unfold load. simpl. by rewrite Hex. Qed.

(** Sample registry entries for the closed statements below. *)
Definition sample_file : DataFile :=
  mkDataFile [[1; 2]%Z] {["k" := MInt 7]} ["A"; "B"] None.
Definition undecodable : handler :=
  mkHandler "Binary" ["text/plain"] (fun _ => Raise UnicodeDecodeError).
Definition mismatching : handler :=
  mkHandler "Other" ["text/plain"] (fun _ => Raise (StonerLoadError "Not mine")).
Definition broken : handler :=
  mkHandler "Broken" ["text/plain"] (fun _ => Raise (OtherError "ZeroDivisionError")).
Definition matching : handler :=
  mkHandler "Good" ["text/plain"] (fun _ => Ret (Some sample_file)).
Definition empty_file : DataFile := mkDataFile [] ∅ [] None.
Definition sample_env (reg : list handler) : env :=
  mkEnv (fun _ => true) None None ((fun h => (cls_name h, h)) <$> reg).

(** C1, as stated, fails: a parse attempt that raises
    [UnicodeDecodeError], which is not a [StonerLoadError], does not abort
    the load; the loop goes on and the next handler loads the file. *)
Lemma load_catches_unicode_decode_error :
  _load undecodable "f.dat" = Raise UnicodeDecodeError ∧
  is_load_error UnicodeDecodeError = false ∧
  (load (sample_env [undecodable; matching]) matching empty_file
     (Some "f.dat") None None).2 ≠ Raise UnicodeDecodeError ∧
  (load (sample_env [undecodable; matching]) matching empty_file
     (Some "f.dat") None None).1 = ["Binary"; "Good"].
Proof. repeat split; try reflexivity. discriminate. Qed.

(** C1 (amended): during an auto-detecting load, a candidate whose parse
    routine raises [StonerLoadError] or [UnicodeDecodeError] is passed
    over and the loop carries on with the candidates after it; any other
    exception raised by a parse attempt leaves [load] unchanged and no
    later candidate is tried. *)
Theorem load_exception_policy E own self f pre k cls post e :
  let self1 := set_filename self (Some f) in
  let mt := (fun m => m f) <$> filemagic E in
  let later := auto_loop (subclasses E).*1 self1 f mt post in
  path_exists E f = true →
  subclasses E = pre ++ (k, cls) :: post →
  Forall (fun kc => passes self1 f mt kc.2) pre →
  mime_mismatch mt cls = false →
  _load cls f = Raise e →
  load E own self (Some f) None None =
    if is_load_error e || is_unicode_error e
    then (parsed mt pre ++ cls_name cls :: later.1, later.2)
    else (parsed mt pre ++ [cls_name cls], Raise e).
Proof.
  intros self1 mt later Hex Hreg Hpre Hm He.
  rewrite load_auto by done. fold self1 mt. rewrite Hreg at 2.
  rewrite auto_loop_passes by done. simpl.
  rewrite (attempt_raise _ _ _ _ e) by done.
  destruct (is_load_error e || is_unicode_error e); [|done].
  fold later. by destruct later.
Qed.

Lemma load_exception_policy_witness :
  load (sample_env [mismatching; broken; matching]) matching empty_file
    (Some "f.dat") None None
  = (["Other"; "Broken"], Raise (OtherError "ZeroDivisionError")).
Proof.
  apply (load_exception_policy (sample_env [mismatching; broken; matching])
           matching empty_file "f.dat" [("Other", mismatching)] "Broken" broken
           [("Good", matching)] (OtherError "ZeroDivisionError")).
  - reflexivity.
  - reflexivity.
  - apply List.Forall_cons; [right; reflexivity | apply List.Forall_nil].
  - reflexivity.
  - reflexivity.
Defined.

(** C2: in an auto-detecting load the first handler whose parse succeeds
    wins: the caller receives its matrix, its column headers and its
    metadata with ["Loaded as"] set to the handler's class name, and the
    handlers after it are not tried.  When every handler raises
    [StonerLoadError] the load fails with [StonerUnrecognisedFormat],
    which lists the keys of the registry. *)
Theorem load_first_success_wins E own self f :
  let self1 := set_filename self (Some f) in
  let mt := (fun m => m f) <$> filemagic E in
  path_exists E f = true →
  (∀ pre k cls post test,
      subclasses E = pre ++ (k, cls) :: post →
      Forall (fun kc => passes self1 f mt kc.2) pre →
      mime_mismatch mt cls = false →
      _load cls f = Ret (Some test) →
      ∃ d, load E own self (Some f) None None
             = (parsed mt pre ++ [cls_name cls], Ret d) ∧
           data d = data test ∧
           column_headers d = column_headers test ∧
           metadata d = <["Loaded as" := MStr (cls_name cls)]> (metadata test) ∧
           metadata d !! "Loaded as" = Some (MStr (cls_name cls)))
  ∧ (Forall (fun kc => ∃ msg, _load kc.2 f = Raise (StonerLoadError msg))
       (subclasses E) →
     (load E own self (Some f) None None).2
       = Raise (StonerUnrecognisedFormat f (subclasses E).*1)).
Proof.
  intros self1 mt Hex. split.
  - intros pre k cls post test Hreg Hpre Hm Hok.
    exists (copy_into (setitem test "Loaded as" (MStr (cls_name cls))) self1).
    rewrite load_auto by done. fold self1 mt. rewrite Hreg at 2.
    rewrite auto_loop_passes by done. simpl.
    unfold attempt. rewrite Hm, Hok. simpl.
    repeat split. apply lookup_insert_eq.
  - intros Hall. rewrite load_auto by done. fold self1 mt.
    rewrite <- (app_nil_r (subclasses E)) at 2.
    rewrite auto_loop_passes; [done|].
    eapply Forall_impl; [exact Hall|]. intros [k cls] [msg Hmsg]. simpl in *.
    unfold passes, attempt. rewrite Hmsg.
    destruct (mime_mismatch mt cls); auto.
Qed.

Lemma load_first_success_wins_witness :
  (load (sample_env [mismatching; matching; broken]) matching empty_file
     (Some "f.dat") None None).1 = ["Other"; "Good"] ∧
  (load (sample_env [mismatching]) matching empty_file (Some "f.dat") None None).2
    = Raise (StonerUnrecognisedFormat "f.dat" ["Other"]).
Proof.
  split.
  - destruct (load_first_success_wins (sample_env [mismatching; matching; broken])
                matching empty_file "f.dat" eq_refl) as [Hwin _].
    destruct (Hwin [("Other", mismatching)] "Good" matching [("Broken", broken)]
                sample_file eq_refl) as (d & Hd & _).
    + apply List.Forall_cons; [right; reflexivity | apply List.Forall_nil].
    + reflexivity.
    + reflexivity.
    + rewrite Hd. reflexivity.
  - destruct (load_first_success_wins (sample_env [mismatching])
                matching empty_file "f.dat" eq_refl) as [_ Hnone].
    apply Hnone. apply List.Forall_cons; [by eexists | apply List.Forall_nil].
Defined.

End LoadClaims.

(** ** The TDI header check *)

Section TdiHeader.
Import Py Text Tdi.

(** The first tab-separated field of the first line: [line.split("\t")[0]]. *)
Definition first_field (content : string) : string :=
  hd "" (split tab (first_line content)).

Definition marker_1_5 : string := "TDI Format 1.5".
Definition marker_1_0 : string := "TDI Format=Text 1.0".

Lemma strip_empty_no_marker :
  strip "" ≠ marker_1_5 ∧ strip "" ≠ marker_1_0.
Proof. split; discriminate. Qed.

Lemma split_nonempty sep s : split sep s ≠ [].
Proof.
  destruct s as [|c rest]; simpl; [done|].
  case_bool_decide; [done|]. by destruct (split sep rest).
Qed.

Lemma header_try_spec content :
  header_try content =
    match content with
    | EmptyString => Raise (OtherError "StopIteration")
    | _ =>
        match first_line content with
        | EmptyString => Raise (IndexError "list index out of range")
        | _ =>
            let row := split tab (first_line content) in
            if bool_decide (strip (first_field content) = marker_1_5)
            then Ret (Fmt_1_5, row)
            else if bool_decide (strip (first_field content) = marker_1_0)
            then Ret (Fmt_1_0, row)
            else Raise (StonerLoadError "Not a TDI File")
        end
    end.
Proof.
  unfold header_try, next_row, first_field.
  destruct content as [|c rest]; [done|].
  cbn [mbind res_bind bind].
  destruct (first_line (String c rest)) as [|a l] eqn:Hl; [done|].
  unfold csv_row.
  pose proof (split_nonempty tab (String a l)) as Hne.
  destruct (split tab (String a l)) as [|f0 fs]; done.
Qed.

(** C4, as stated, fails in the "only if" direction: the first field
    of this file carries a trailing blank, so it equals neither literal
    marker, and the header check succeeds all the same. *)
Lemma padded_marker_accepted :
  let content := "TDI Format 1.5 " +:+ String tab "A" +:+ String "010"%char "" in
  first_field content = "TDI Format 1.5 " ∧
  first_field content ≠ marker_1_5 ∧
  first_field content ≠ marker_1_0 ∧
  header_check content = Ret (Fmt_1_5, ["A"]).
Proof. repeat split; discriminate. Qed.

(** C4 (amended): the header check of the TDI parser succeeds if and
    only if the first tab-separated field of the first line, with leading
    and trailing white space stripped, is one of the two markers; in every
    other case, the empty file and the empty first line included, it fails
    with [StonerLoadError]. *)
Theorem tdi_header_check content :
  let f0 := strip (first_field content) in
  ((∃ fmt hs, header_check content = Ret (fmt, hs))
     ↔ f0 = marker_1_5 ∨ f0 = marker_1_0)
  ∧ (f0 = marker_1_5 →
       header_check content
         = Ret (Fmt_1_5, strip <$> tail (split tab (first_line content))))
  ∧ (f0 = marker_1_0 →
       header_check content
         = Ret (Fmt_1_0, strip <$> tail (split tab (first_line content))))
  ∧ (f0 ≠ marker_1_5 → f0 ≠ marker_1_0 →
       header_check content = Raise (StonerLoadError "Not a TDI File")).
Proof.
  intros f0.
  assert (Hcases :
    (f0 = marker_1_5 ∧ header_check content
       = Ret (Fmt_1_5, strip <$> tail (split tab (first_line content)))) ∨
    (f0 = marker_1_0 ∧ header_check content
       = Ret (Fmt_1_0, strip <$> tail (split tab (first_line content)))) ∨
    (f0 ≠ marker_1_5 ∧ f0 ≠ marker_1_0 ∧
       header_check content = Raise (StonerLoadError "Not a TDI File"))).
  { unfold header_check. rewrite header_try_spec. subst f0.
    unfold first_field.
    destruct content as [|c rest].
    { right; right. repeat split; discriminate. }
    destruct (first_line (String c rest)) as [|a l] eqn:Hl.
    { right; right. repeat split; discriminate. }
    cbv zeta. repeat case_bool_decide; auto. }
  assert (marker_1_5 ≠ marker_1_0) as Hdiff by discriminate.
  destruct Hcases as [[H1 H2]|[[H1 H2]|(H1 & H2 & H3)]].
  - repeat split; eauto; try congruence.
  - repeat split; eauto; try congruence.
  - repeat split; try congruence.
    + intros (fmt & hs & Hret). congruence.
    + intros [?|?]; congruence.
Qed.

End TdiHeader.

(** ** The file name written by [save] *)

Section SaveName.
Import Py Text Loader Save.
Variable lay_out : gmap string mdval → list (list Z) → res (list string).

Lemma rfind_from_spec c s i last :
  (0 ≤ i)%Z →
  rfind_from c s i last = last ∨
  (i ≤ rfind_from c s i last)%Z ∧
  String.get (Z.to_nat (rfind_from c s i last - i)) s = Some c.
Proof.
  revert i last. induction s as [|a rest IH]; intros i last Hi; simpl; [by left|].
  destruct (IH (i + 1)%Z (if bool_decide (a = c) then i else last)) as [Heq|[Hle Hget]];
    [lia| |].
  - rewrite Heq. case_bool_decide as Hac; [|by left].
    right. split; [lia|]. rewrite Z.sub_diag. simpl. by subst.
  - right. split; [lia|].
    set (r := rfind_from c rest (i + 1) (if bool_decide (a = c) then i else last)) in *.
    replace (Z.to_nat (r - i)) with (S (Z.to_nat (r - (i + 1)))) by lia.
    exact Hget.
Qed.

Lemma rfind_get c s :
  (0 ≤ rfind c s)%Z → String.get (Z.to_nat (rfind c s)) s = Some c.
Proof.
  intros Hge. unfold rfind in *.
  destruct (rfind_from_spec c s 0 (-1)) as [Heq|[_ Hget]]; [lia|lia|].
  by rewrite Z.sub_0_r in Hget.
Qed.

Lemma substring_get n s c :
  String.get n s = Some c →
  ∃ rest, String.substring n (String.length s - n) s = String c rest.
Proof.
  revert n. induction s as [|a rest IH]; intros n; simpl; [done|].
  destruct n as [|n]; simpl.
  - intros [= <-]. eauto.
  - apply IH.
Qed.

(** The extension that [splitext] returns is empty or begins with the
    dot. *)
Lemma splitext_ext p root ext :
  splitext p = (root, ext) → ext = "" ∨ ∃ rest, ext = String dot rest.
Proof.
  unfold splitext.
  destruct (_ && _) eqn:Hc; intros [= <- <-]; [|by left].
  right. apply andb_prop in Hc as [Hlt _]. apply Z.ltb_lt in Hlt.
  assert (-1 ≤ rfind slash p)%Z as Hs.
  { unfold rfind. destruct (rfind_from_spec slash p 0 (-1)) as [->|[? _]]; lia. }
  apply substring_get, rfind_get. lia.
Qed.


End SaveName.

Section SaveNameSample.
Import Py Text Loader Save.

(** A layout for the samples: one empty line for every row of data. *)
Definition blank_lines (md : gmap string mdval) (rows : list (list Z))
    : res (list string) :=
  Ret ((fun _ => "") <$> rows).


End SaveNameSample.

(** ** Deleting columns by a list of booleans *)

Section DelColumnBools.
Import Py Columns.
Context {selector : Type}.
Variable compress_masked : DataFile → res DataFile.
Variable delete_found : DataFile → selector → res DataFile.

Lemma checked_index_ok {A} (index : list bool) (l : list A) :
  length index = length l → checked_index index l = Ret (bool_index index l).
Proof. intros Hlen. unfold checked_index. by rewrite bool_decide_eq_true_2. Qed.

Lemma checked_rows_ok {A} (index : list bool) (rows : list (list A)) :
  Forall (fun row => length row = length index) rows →
  mapM (M := res) (checked_index index) rows = Ret (bool_index index <$> rows).
Proof.
  induction 1 as [|row rows Hrow _ IH]; [done|].
  cbn [mapM]. rewrite checked_index_ok by done.
  cbn [mbind res_bind bind]. rewrite IH. done.
Qed.

(** What the branch for boolean lists does: the columns that stay are
    those whose flag is [False]. *)
Lemma del_column_bools_keeps_false (self : DataFile) (flags : list bool) :
  flags ≠ [] →
  length flags = length (setas self) →
  length flags = length (column_headers self) →
  Forall (fun row => length row = length flags) (data self) →
  Forall (fun row => length row = length flags) (mask self) →
  del_column compress_masked delete_found self (ColBools flags)
    = Ret (mkDataFile
             (bool_index (negb <$> flags) <$> data self)
             (bool_index (negb <$> flags) <$> mask self)
             (bool_index (negb <$> flags) (column_headers self))
             (bool_index (negb <$> flags) (setas self))).
Proof.
  intros Hne Hs Hh Hd Hm. simpl. unfold del_column_bools, column_index.
  destruct flags as [|b flags]; [done|].
  set (col := negb <$> b :: flags).
  assert (length col = length (b :: flags)) as Hlen by (unfold col; by rewrite length_fmap).
  rewrite !checked_index_ok by congruence.
  cbn [mbind res_bind bind].
  rewrite !checked_rows_ok; [done|..];
    (eapply Forall_impl; [eassumption|]; intros; simpl in *; congruence).
Qed.

End DelColumnBools.

Section DelColumnClaim.
Import Py Columns.

Definition two_columns : DataFile :=
  mkDataFile [[10; 20]; [11; 21]]%Z [[false; false]; [false; false]]
    ["A"; "B"] ["x"; "y"].

(** C7 at a concrete file: called with [[True, False]] on the columns
    [A] (role x) and [B] (role y), [del_column] deletes [A], whose flag
    is [True], and keeps [B], whose flag is [False]; the claim, like the
    docstring of the method, has it the other way round. *)
Theorem del_column_bools_inverted :
  ∀ (compress_masked : DataFile → res DataFile)
    (delete_found : DataFile → unit → res DataFile),
  del_column compress_masked delete_found two_columns (ColBools [true; false])
    = Ret (mkDataFile [[20]; [21]]%Z [[false]; [false]] ["B"] ["y"]).
Proof. reflexivity. Qed.

End DelColumnClaim.

(** ** Construction from a dictionary *)

Section ConstructClaim.
Import Py Construct.

(** The dictionary of the scenario: its values are the one-dimensional
    arrays of sections 3 and 4.4. *)
Definition dict_of_vectors : pyval :=
  PDict [(PStr "x", PVector [1; 2; 3]%Z); (PStr "y", PVector [4; 5; 6]%Z)].

(** C8: the dictionary whose two values are the one-dimensional arrays
    holding 1,2,3 and 4,5,6 makes a DataFile with a matrix of shape (3,2)
    whose columns are the two arrays and with the headers [x], [y]; after
    [setas = "xy"] the x column is 0 and the y columns are [[1]].  Of the
    [column_headers] property this uses that headers of which there is one
    for every column are answered as they were assigned. *)
Theorem dict_of_vectors_is_data
    (shown : nat → list string → list string)
    (load : DataFile → list pyval → res DataFile) :
  (∀ hs, shown (length hs) hs = hs) →
  ∃ d, init load dict_of_vectors = Ret d ∧
       shape d = (3, 2) ∧
       data d = [[1; 4]; [2; 5]; [3; 6]]%Z ∧
       column_headers shown d = ["x"; "y"] ∧
       xcol (set_setas "xy" d) = Some 0 ∧
       ycol (set_setas "xy" d) = [1].
Proof.
  intros Hfit. eexists. split; [reflexivity|]. split; [reflexivity|].
  split; [reflexivity|]. split; [|by split].
  exact (Hfit ["x"; "y"]).
Qed.

(** Headers fitted to [n] columns: the first [n] of those assigned,
    then the default names of the columns that are left. *)
Definition fitted (n : nat) (hs : list string) : list string :=
  take n hs ++ ((fun i => "Column " +:+ pretty i) <$> seq (length hs) (n - length hs)).

(** A reader that finds no file; the dictionary never reaches it. *)
Definition no_file (self : DataFile) (args : list pyval) : res DataFile :=
  Raise (IOError "Cannot find file to load").

Lemma dict_of_vectors_is_data_witness :
  ∃ d, init no_file dict_of_vectors = Ret d ∧
       shape d = (3, 2) ∧
       data d = [[1; 4]; [2; 5]; [3; 6]]%Z ∧
       column_headers fitted d = ["x"; "y"] ∧
       xcol (set_setas "xy" d) = Some 0 ∧
       ycol (set_setas "xy" d) = [1].
Proof.
  apply (dict_of_vectors_is_data fitted no_file).
  intros hs. unfold fitted. rewrite Nat.sub_diag. simpl.
  by rewrite app_nil_r, firstn_all.
Defined.

End ConstructClaim.

(** ** The mask stack *)

Section MaskStack.
Import Py Masks.

(** The row lengths of a mask: its shape, ragged or not. *)
Definition row_lengths (m : list (list bool)) : list nat := length <$> m.

(** Applying [_pop_mask] [n] times, going on after a failed pop. *)
Fixpoint pops (n : nat) (w : world) : world :=
  match n with
  | O => w
  | S k => pops k (_pop_mask w).1
  end.

(** The bottom of the stack is the sentinel [False]. *)
Definition sentinel_below (w : world) : Prop :=
  ∃ rest, _masks w.2 = MBool false :: rest.

(** The mask has a buffer, of the given shape. *)
Definition shaped (sh : list nat) (w : world) : Prop :=
  ∃ m, mask w = Some m ∧ row_lengths m = sh.

Lemma flat_fill_lengths src k rows :
  row_lengths (flat_fill src k rows) = row_lengths rows.
Proof.
  revert k. induction rows as [|row rows IH]; intros k; simpl; [done|].
  unfold row_lengths in *. simpl. by rewrite length_imap, IH.
Qed.

Lemma fill_by_shape (b : bool) (m : list (list bool)) :
  fill b m = (fun n => replicate n b) <$> row_lengths m.
Proof.
  unfold fill, row_lengths. rewrite <- list_fmap_compose.
  apply list_fmap_ext. intros i row _. simpl. by apply const_fmap.
Qed.

Lemma fill_lengths (b : bool) (m : list (list bool)) :
  row_lengths (fill b m) = row_lengths m.
Proof.
  unfold fill, row_lengths. rewrite <- list_fmap_compose.
  apply list_fmap_ext. intros i row _. simpl. by rewrite length_fmap.
Qed.

Lemma assign_lengths m current m' :
  assign m current = Ret m' → row_lengths m' = row_lengths current.
Proof.
  unfold assign. case_bool_decide as Hshape.
  - intros [= <-]. exact Hshape.
  - destruct (concat m) as [|x src]; intros [= <-];
      [done|apply flat_fill_lengths].
Qed.

Lemma update_row_length invert cumulative t mrow :
  length (update_row invert cumulative t mrow) = length mrow.
Proof.
  destruct t as [t|t]; simpl.
  - destruct (xorb t invert); [by rewrite length_fmap|].
    destruct (negb cumulative); [by rewrite length_fmap|done].
  - by rewrite length_imap.
Qed.

Lemma set_mask_rows_lengths func invert cumulative col rows mrows :
  row_lengths (set_mask_rows func invert cumulative col rows mrows).1
    = row_lengths mrows.
Proof.
  revert mrows. induction rows as [|r rows IH]; intros [|mrow mrows]; simpl; try done.
  destruct (call func col r) as [t|e]; simpl; [|done].
  specialize (IH mrows).
  destruct (set_mask_rows func invert cumulative col rows mrows) as [rest e].
  simpl in *. unfold row_lengths in *. simpl.
  by rewrite update_row_length, IH.
Qed.

Lemma write_mask_shaped m w :
  is_Some (mask w) → shaped (row_lengths m) (write_mask m w).
Proof.
  intros [m0 Hm0]. exists m. split; [|done].
  unfold mask, write_mask in *. simpl.
  apply list_lookup_insert_eq. by eapply lookup_lt_Some.
Qed.

(** Setting the mask, to whatever value and with whatever outcome,
    touches neither the data nor the stack, and keeps the shape of the
    mask. *)
Lemma set_mask_frame v w sh :
  shaped sh w →
  (set_mask v w).1.2 = w.2 ∧ shaped sh (set_mask v w).1.
Proof.
  intros (current & Hcur & Hsh).
  assert (∀ m, row_lengths m = sh → shaped sh (write_mask m w)) as Hw.
  { intros m <-. apply write_mask_shaped. by rewrite Hcur. }
  assert (shaped sh w) as Hsame by (by exists current).
  destruct v as [[b|m|l]|f]; simpl; unfold set_data_mask, _set_mask; rewrite Hcur.
  - split; [done|]. apply Hw. by rewrite fill_lengths.
  - destruct (assign m current) as [m'|e] eqn:Ha; simpl; [|done].
    split; [done|]. apply Hw. by rewrite (assign_lengths _ _ _ Ha).
  - destruct (w.1 !! l) as [m|]; simpl; [|done].
    destruct (assign m current) as [m'|e] eqn:Ha; simpl; [|done].
    split; [done|]. apply Hw. by rewrite (assign_lengths _ _ _ Ha).
  - pose proof (set_mask_rows_lengths f false false 0 (data w.2) current) as Hl.
    destruct (set_mask_rows f false false 0 (data w.2) current) as [m e].
    simpl in *. split; [done|]. apply Hw. by rewrite Hl.
Qed.

Lemma set_mask_keeps_instance v w : (set_mask v w).1.2 = w.2.
Proof.
  destruct v as [[b|m|l]|f]; simpl; unfold set_data_mask, _set_mask;
    destruct (mask w) as [current|]; simpl; try done.
  - by destruct (assign m current).
  - destruct (w.1 !! l) as [m|]; [|done]. by destruct (assign m current).
  - by destruct (set_mask_rows f false false 0 (data w.2) current).
Qed.

(** The push appends the mask buffer itself to the stack. *)
Lemma push_frame new_mask w sh :
  shaped sh w →
  (_push_mask new_mask w).1.2
    = with_masks (_masks w.2 ++ [MView (mask_at w.2)]) w.2 ∧
  shaped sh (_push_mask new_mask w).1.
Proof.
  intros Hsh. unfold _push_mask.
  set (w1 := (w.1, with_masks (_masks w.2 ++ [get_mask w]) w.2)).
  assert (shaped sh w1) as Hsh1 by exact Hsh.
  destruct new_mask as [v|].
  - apply (set_mask_frame v w1 sh Hsh1).
  - apply (set_mask_frame (Value (MBool false)) w1 sh Hsh1).
Qed.

(** A pop that finds the mask buffer itself on top of the stack: the
    buffer has been cleared by the time it is read back. *)
Lemma pop_saved_view w ms m :
  mask w = Some m →
  _masks w.2 = ms ++ [MView (mask_at w.2)] →
  _pop_mask w =
    ((<[mask_at w.2 := fill false m]> w.1,
      with_masks (match ms with [] => [MBool false] | _ => ms end) w.2), None).
Proof.
  intros Hm Hms.
  assert (mask_at w.2 < length w.1) as Hlt by (by eapply lookup_lt_Some).
  unfold _pop_mask. simpl. unfold set_data_mask at 1.
  rewrite Hm. unfold write_mask. cbn [fst snd].
  rewrite Hms, last_snoc, removelast_last.
  unfold set_data_mask, mask, write_mask. cbn [fst snd mask_at with_masks].
  rewrite list_lookup_insert_eq by done.
  unfold assign. rewrite bool_decide_eq_true_2 by done.
  cbn [fst snd mask_at with_masks _masks].
  rewrite list_insert_insert_eq. by destruct ms.
Qed.

(** A push followed by a pop leaves nothing masked, whatever was masked
    before and whatever mask the push installs; the data and the stack
    are as before. *)
Lemma push_pop_clears_mask w m new_mask :
  mask w = Some m →
  let after := _pop_mask (_push_mask new_mask w).1 in
  after.2 = None ∧
  mask after.1 = Some (fill false m) ∧
  data after.1.2 = data w.2 ∧
  (_masks w.2 ≠ [] → _masks after.1.2 = _masks w.2).
Proof.
  intros Hm after. subst after.
  destruct (push_frame new_mask w (row_lengths m)) as (Hd & m1 & Hm1 & Hsh1);
    [by exists m|].
  assert (mask_at (_push_mask new_mask w).1.2 = mask_at w.2) as Hat by (by rewrite Hd).
  rewrite (pop_saved_view _ (_masks w.2) m1 Hm1) by (by rewrite Hat, Hd).
  cbn [fst snd]. split; [done|]. split; [|split].
  - unfold mask. cbn [fst snd mask_at with_masks].
    rewrite list_lookup_insert_eq by (by eapply lookup_lt_Some).
    by rewrite !fill_by_shape, Hsh1.
  - by rewrite Hd.
  - intros Hne. simpl. by destruct (_masks w.2).
Qed.

Lemma pop_frame w sh :
  shaped sh w → sentinel_below w →
  shaped sh (_pop_mask w).1 ∧ sentinel_below (_pop_mask w).1.
Proof.
  intros Hsh [rest Hms]. unfold _pop_mask.
  destruct (set_mask_frame (Value (MBool false)) w sh Hsh) as [Hd1 Hsh1].
  destruct (set_mask (Value (MBool false)) w) as [w1 e1].
  cbn [fst snd] in Hd1, Hsh1. rewrite Hd1, Hms.
  destruct rest as [|top rest' _] using rev_ind.
  - cbn [last removelast].
    assert (shaped sh (w1.1, with_masks [] w.2)) as Hsh2
      by (unfold shaped, mask in *; cbn [fst snd mask_at with_masks]; by rewrite <- Hd1).
    destruct Hsh2 as (m2 & Hm2 & Hl2).
    cbn [set_mask]. unfold set_data_mask. rewrite Hm2. cbn [fst snd _masks with_masks].
    split; [|by exists []].
    destruct (write_mask_shaped (fill false m2) (w1.1, with_masks [] w.2))
      as (m3 & Hm3 & Hl3); [by rewrite Hm2|].
    exists m3. split; [exact Hm3|]. by rewrite Hl3, fill_lengths.
  - replace (MBool false :: rest' ++ [top]) with ((MBool false :: rest') ++ [top]) by done.
    rewrite last_snoc, removelast_last.
    assert (shaped sh (w1.1, with_masks (MBool false :: rest') w.2)) as Hsh2
      by (unfold shaped, mask in *; cbn [fst snd mask_at with_masks]; by rewrite <- Hd1).
    destruct (set_mask_frame (Value top) _ sh Hsh2) as [Hd3 Hsh3].
    destruct (set_mask (Value top) (w1.1, with_masks (MBool false :: rest') w.2))
      as [w3 [e|]]; cbn [fst snd] in *.
    + split; [done|]. exists rest'. by rewrite Hd3.
    + rewrite Hd3. cbn [_masks with_masks]. split; [done|]. exists rest'. by rewrite Hd3.
Qed.

(** A stack that rests on the sentinel still rests on it, hence is not
    empty, after any number of pops. *)
Lemma pops_keep_sentinel w n :
  is_Some (mask w) → sentinel_below w →
  sentinel_below (pops n w) ∧ _masks (pops n w).2 ≠ [].
Proof.
  intros [m Hm]. assert (shaped (row_lengths m) w) as Hsh by (by exists m).
  clear Hm. revert w Hsh. induction n as [|n IH]; intros w Hsh Hs; simpl.
  - split; [done|]. destruct Hs as [rest ->]. done.
  - destruct (pop_frame w _ Hsh Hs). by apply IH.
Qed.

(** One row of two values, the first of them masked:
    [d.mask = [[True, False]]] on a new instance. *)
Definition half_masked : world :=
  (set_mask (Value (MArray [[true; false]])) (fresh [[1; 2]]%Z)).1.

(** C5 at a concrete instance: with the first of two values masked,
    [_push_mask()] followed by [_pop_mask()] raises nothing and leaves the
    stack at its sentinel, but the mask that comes back has nothing
    masked: the entry saved by the push was the mask buffer itself, which
    the push went on to clear. *)
Theorem push_pop_loses_mask :
  let after := _pop_mask (_push_mask None half_masked).1 in
  mask half_masked = Some [[true; false]] ∧
  after.2 = None ∧
  mask after.1 = Some [[false; false]] ∧
  data after.1.2 = [[1; 2]]%Z ∧
  _masks after.1.2 = [MBool false].
Proof. repeat split. Qed.

End MaskStack.

(** ** The image stack: page counts *)

Section StackCounts.
Import Py Stack.
Context {cell meta : Type}.
Variable zero : cell.
Variable cast : dtype → dtype → cell → cell.
Abbreviation ImageStack := (@ImageStack cell meta).
Abbreviation image := (@image cell meta).

Lemma list_insert_at_length {A} ix (x : A) l :
  length (list_insert_at ix x l) = S (length l).
Proof.
  unfold list_insert_at. rewrite length_app. simpl.
  rewrite length_take, length_drop. lia.
Qed.

Lemma resize_stack_pages (new_size : nat * nat * nat) dt (s : ImageStack) :
  length (st_pages (_resize_stack zero cast new_size dt s)) = new_size.2.
Proof.
  unfold _resize_stack. case_bool_decide as Hshape.
  - by rewrite <- Hshape.
  - destruct new_size as [[rows cols] pag]. simpl. by rewrite length_resize.
Qed.

Lemma resize_stack_lists (new_size : nat * nat * nat) dt (s : ImageStack) :
  _names (_resize_stack zero cast new_size dt s) = _names s ∧
  _sizes (_resize_stack zero cast new_size dt s) = _sizes s.
Proof.
  unfold _resize_stack. case_bool_decide; [done|].
  by destruct new_size as [[rows cols] pag].
Qed.

(** Unfolds the plumbing of a method down to the state it runs on. *)
Ltac run_op :=
  cbv beta iota delta
    [mbind mret op_mbind op_mret op_bind op_ret get modify raise lift].

Lemma assign_page_counts idx shape from data (s s' : ImageStack) r :
  assign_page cast idx shape from data s = (s', r) →
  _names s' = _names s ∧ _sizes s' = _sizes s ∧
  length (st_pages s') = length (st_pages s).
Proof.
  unfold assign_page. run_op.
  destruct (norm_index (length (st_pages s)) idx) as [k|]; [|by intros [= <- <-]].
  case_bool_decide; intros [= <- <-]; [|done].
  simpl. by rewrite length_alter.
Qed.

(** Every insertion that runs to its end leaves one page more than
    there are names: the buffer is first resized to the new number of
    names and then receives the inserted page on top of that. *)
Lemma inserter_counts ix name (value : image) (s s' : ImageStack) :
  __inserter__ zero cast ix name value s = (s', Ret ()) →
  length (_names s') = S (length (_names s)) ∧
  length (_sizes s') = S (length (_sizes s)) ∧
  length (st_pages s') = S (length (_names s')).
Proof.
  unfold __inserter__. run_op.
  case_bool_decide as Hix; [|done].
  set (s1 := with_sizes _ (with_metadata _ (with_names _ s))).
  set (s2 := _resize_stack zero cast _ _ s1).
  case_bool_decide as Hpag; [|done].
  set (s3 := with_pages _ s2).
  intros Hassign. apply assign_page_counts in Hassign as (Hn & Hs & Hp).
  assert (length (st_pages s2) = length (_names s1)) as Hp2.
  { unfold s2. by rewrite resize_stack_pages. }
  assert (_names s2 = _names s1 ∧ _sizes s2 = _sizes s1) as [Hn2 Hs2].
  { unfold s2. apply resize_stack_lists. }
  rewrite Hn, Hs, Hp. unfold s3. simpl. rewrite Hn2, Hs2, list_insert_at_length, Hp2.
  unfold s1. simpl. rewrite !list_insert_at_length. done.
Qed.

End StackCounts.

Section StackClaim.
Import Py Stack.

(** A registry of names without patterns, and a fixed name for pages
    that come without one. *)
Definition exact_only (known : list string) (name : string) : option string := None.
Definition untitled (s : @ImageStack Z unit) (value : @image Z unit) : string :=
  "Untitled".
Definition small_image : @image Z unit :=
  mkImage (2, 3) [[1; 2; 3]; [4; 5; 6]]%Z () float64.

(** C6 at a concrete stack: setting the page ["a"] of an empty stack to
    a 2 by 3 image leaves one name and one size but two pages in the
    buffer; deleting that page by its name then removes the name and a
    page and fails before the size is removed. *)
Theorem stack_lock_step_broken :
  let set := __setter__ 0%Z (fun _ _ c => c) exact_only untitled (Some (KeyStr "a")) small_image false
               empty_stack in
  let del := __deleter__ exact_only (KeyStr "a") set.1 in
  set.2 = Ret () ∧
  _names set.1 = ["a"] ∧ _sizes set.1 = [(2, 3)] ∧
  stack_shape set.1 = (2, 3, 2) ∧
  del.2 = Raise (IndexError "arrays used as indices must be of integer (or boolean) type") ∧
  _names del.1 = [] ∧ _sizes del.1 = [(2, 3)] ∧
  stack_shape del.1 = (2, 3, 1).
Proof. repeat split. Qed.

End StackClaim.

(** ** The image stack: the ratio of two stacks *)

Section Ratio.
Import Py Stack.
Context {cell meta : Type}.
Variable zero : cell.
Variable to_float : dtype → cell → cell.
Variables sub add div : cell → cell → cell.
Abbreviation ImageStack := (@ImageStack cell meta).
Abbreviation stacks := (list ImageStack).

(** The operand as the computation sees it: converted to floating point
    unless it is of a floating-point kind already. *)
Definition as_float (s : ImageStack) : ImageStack :=
  if bool_decide (dt_kind (st_dtype s) ≠ KFloat) then convert_buffer to_float s
  else s.

(** Two shapes that numpy cannot broadcast against each other. *)
Definition shapes_clash (a b : ImageStack) : Prop :=
  bdim (st_rows a) (st_rows b) = None ∨ bdim (st_cols a) (st_cols b) = None ∨
  bdim (length (st_pages a)) (length (st_pages b)) = None.

Lemma bdim_same n : bdim n n = Some n.
Proof. unfold bdim. by rewrite bool_decide_eq_true_2. Qed.

Lemma bidx_in_range n i : i < n → bidx n i = i.
Proof. unfold bidx. case_bool_decide; lia. Qed.

Lemma elementwise_same f (a b : ImageStack) :
  st_rows a = st_rows b → st_cols a = st_cols b →
  length (st_pages a) = length (st_pages b) →
  ∃ r, elementwise zero f a b = Ret r ∧
       st_rows r = st_rows a ∧ st_cols r = st_cols a ∧
       length (st_pages r) = length (st_pages a) ∧
       st_dtype r = float64 ∧
       ∀ i j p, i < st_rows a → j < st_cols a → p < length (st_pages a) →
         cell3 zero r i j p = f (cell3 zero a i j p) (cell3 zero b i j p).
Proof.
  intros Hr Hc Hp. unfold elementwise.
  rewrite <- Hr, <- Hc, <- Hp, !bdim_same.
  eexists. split; [done|]. simpl.
  rewrite length_fmap, length_seq. repeat split.
  intros i j p Hi Hj Hpp. unfold cell3 at 1, cell_of. simpl.
  rewrite list_lookup_fmap, lookup_seq_lt by done. simpl.
  rewrite list_lookup_fmap, lookup_seq_lt by done. simpl.
  rewrite list_lookup_fmap, lookup_seq_lt by done. simpl.
  by rewrite !bidx_in_range.
Qed.

Lemma elementwise_clash f (a b : ImageStack) :
  shapes_clash a b → ∃ msg, elementwise zero f a b = Raise (ValueError msg).
Proof.
  unfold elementwise. intros [H|[H|H]]; rewrite H;
    repeat (match goal with |- context [match bdim ?x ?y with _ => _ end] =>
              destruct (bdim x y) end); eauto.
Qed.

Lemma as_float_shape (s : ImageStack) :
  st_rows (as_float s) = st_rows s ∧ st_cols (as_float s) = st_cols s ∧
  length (st_pages (as_float s)) = length (st_pages s).
Proof.
  unfold as_float. case_bool_decide; [|done].
  simpl. by rewrite length_fmap.
Qed.

(** The store in which the ratio is computed and the two objects that
    take part in it: new objects behind those of [h], the first of them
    the clone of the left operand with its buffer as the computation sees
    it, and the right operand as the computation sees it. *)
Lemma floordiv_operands (h : stacks) self o (a b : ImageStack) :
  h !! self = Some a → h !! o = Some b → st_dtype a = st_dtype b →
  ∃ (more : stacks) o',
    (if bool_decide (dt_kind (st_dtype a) ≠ KFloat) then
       let '(h1, ret) := clone self h in
       let '(h3, o') := clone o (convert_float to_float ret h1) in
       (convert_float to_float o' h3, ret, o')
     else
       let '(h1, ret) := clone self h in (h1, ret, o))
      = (h ++ as_float a :: more, length h, o') ∧
    (h ++ as_float a :: more) !! o' = Some (as_float b).
Proof.
  intros Ha Hb Hdt. unfold clone, convert_float, as_float.
  pose proof (lookup_lt_Some _ _ _ Ha) as Hself.
  pose proof (lookup_lt_Some _ _ _ Hb) as Ho.
  rewrite <- Hdt. case_bool_decide as Hkind.
  - exists [convert_buffer to_float b], (S (length h)).
    rewrite Ha. cbn [option_list option_rect].
    rewrite (alter_app_r_alt _ h [a] (length h)) by lia.
    rewrite Nat.sub_diag. cbn [alter list_alter].
    rewrite (lookup_app_l h) by done. rewrite Hb. cbn [option_list option_rect].
    rewrite length_app. cbn [length].
    replace (length h + 1) with (S (length h)) by lia.
    rewrite <- (app_assoc h [convert_buffer to_float a] [b]). cbn [app].
    rewrite (alter_app_r_alt _ h _ (S (length h))) by lia.
    replace (S (length h) - length h) with 1 by lia. cbn [alter list_alter].
    split; [done|].
    rewrite lookup_app_r by lia.
    by replace (S (length h) - length h) with 1 by lia.
  - exists [], o. rewrite Ha. cbn [option_list option_rect].
    split; [done|]. by rewrite lookup_app_l.
Qed.

(** C9 (amended): with a right operand that is not an image stack the
    operator answers [NotImplemented]; with two stacks whose buffers
    differ in dtype it fails with [ValueError], floating point or not;
    with two stacks of one dtype and one shape it returns a new stack
    whose buffer is (A-B)/(A+B) cell by cell, A and B being the buffers
    converted to floating point when they are not so already; with two
    stacks of one dtype whose shapes cannot be broadcast against each
    other it fails with the [ValueError] of numpy.  In every case the
    operands, and every other object there was, are as they were: the
    store after the call is the store before it followed by new
    objects. *)
Theorem floordiv_ratio (h : stacks) (self : nat) (other : operand) (a : ImageStack) :
  h !! self = Some a →
  let result := __floordiv__ zero to_float sub add div self other h in
  h `prefix_of` result.1 ∧
  match other with
  | NotStack => result.2 = NotImplemented
  | IsStack o =>
      ∀ b, h !! o = Some b →
      (st_dtype a ≠ st_dtype b → ∃ msg, result.2 = Raised (ValueError msg)) ∧
      (st_dtype a = st_dtype b → shapes_clash a b →
       ∃ msg, result.2 = Raised (ValueError msg)) ∧
      (st_dtype a = st_dtype b → stack_shape a = stack_shape b →
       ∃ ret r, result.2 = Returned ret ∧ length h ≤ ret ∧
                result.1 !! ret = Some r ∧
                stack_shape r = stack_shape a ∧
                ∀ i j p, i < st_rows a → j < st_cols a → p < length (st_pages a) →
                  let x := cell3 zero (as_float a) i j p in
                  let y := cell3 zero (as_float b) i j p in
                  cell3 zero r i j p = div (sub x y) (add x y))
  end.
Proof.
  intros Ha result. subst result.
  destruct other as [o|]; [|by split; [exists []; rewrite app_nil_r|]].
  unfold __floordiv__. rewrite Ha.
  destruct (h !! o) as [b|] eqn:Hb; [|by split; [exists []; rewrite app_nil_r|]].
  case_bool_decide as Hdt.
  { split; [by exists []; rewrite app_nil_r|].
    intros b' [= <-]. split; [eauto|]. split; done. }
  assert (st_dtype a = st_dtype b) as Hsame by (by destruct (decide (st_dtype a = st_dtype b))).
  destruct (floordiv_operands h self o a b Ha Hb Hsame) as (more & o' & -> & Ho').
  assert ((h ++ as_float a :: more) !! length h = Some (as_float a)) as Hret.
  { rewrite lookup_app_r by lia. by rewrite Nat.sub_diag. }
  rewrite Hret, Ho'.
  destruct (as_float_shape a) as (Hr1 & Hc1 & Hp1).
  destruct (as_float_shape b) as (Hr2 & Hc2 & Hp2).
  split.
  { destruct (_ ≫= _); simpl.
    - exists (<[0 := a0]> (as_float a :: more)).
      rewrite (insert_app_r_alt h _ (length h)) by lia. by rewrite Nat.sub_diag.
    - by eexists. }
  intros b' [= <-]. split; [done|]. split.
  - intros _ Hclash.
    destruct (elementwise_clash sub (as_float a) (as_float b)) as [msg Hmsg].
    { unfold shapes_clash. by rewrite Hr1, Hc1, Hp1, Hr2, Hc2, Hp2. }
    rewrite Hmsg. simpl. eauto.
  - intros _ Hshape.
    unfold stack_shape in Hshape. injection Hshape as Hr Hc Hp.
    destruct (elementwise_same sub (as_float a) (as_float b))
      as (num & Hnum & Hnr & Hnc & Hnp & _ & Hncell); [congruence..|].
    destruct (elementwise_same add (as_float a) (as_float b))
      as (den & Hden & Hdr & Hdc & Hdp & _ & Hdcell); [congruence..|].
    destruct (elementwise_same div num den)
      as (r & Hres & Hrr & Hrc & Hrp & _ & Hrcell); [congruence..|].
    rewrite Hnum. cbn [mbind res_bind bind]. rewrite Hden. cbn [mbind res_bind bind].
    rewrite Hres. exists (length h), r. split; [done|]. split; [done|]. split.
    { cbn [fst]. rewrite list_lookup_insert_eq; [done|]. rewrite length_app. simpl. lia. }
    split.
    { unfold stack_shape. congruence. }
    intros i j p Hi Hj Hpp. cbv zeta.
    rewrite Hrcell, Hncell, Hdcell by lia. done.
Qed.

End Ratio.

Section RatioAtIntegers.
Import Py Stack.

(** C9, as stated, fails on both counts: an 8-bit and a 16-bit signed
    integer stack are of the same numeric kind, yet their ratio is
    refused; an unsigned and a signed integer stack differ in kind and
    neither is floating point, and the failure is a [ValueError], not a
    [TypeError]. *)
Lemma ratio_refused_with_value_error :
  let stack_of (dt : dtype) : @Stack.ImageStack Z unit :=
    mkStack 1 1 [[[1%Z]]] dt [("a", ())] ["a"] [(1, 1)] in
  let int8 := stack_of (mkDtype KInt 1) in
  let int16 := stack_of (mkDtype KInt 2) in
  let uint8 := stack_of (mkDtype KUInt 1) in
  let h := [int8; int16; uint8] in
  dt_kind (st_dtype int8) = dt_kind (st_dtype int16) ∧
  (∃ msg, (__floordiv__ 0%Z (fun _ c => c) Z.sub Z.add Z.div 0 (IsStack 1) h).2
          = Raised (ValueError msg)) ∧
  dt_kind (st_dtype uint8) ≠ dt_kind (st_dtype int16) ∧
  dt_kind (st_dtype uint8) ≠ KFloat ∧ dt_kind (st_dtype int16) ≠ KFloat ∧
  (∃ msg, (__floordiv__ 0%Z (fun _ c => c) Z.sub Z.add Z.div 2 (IsStack 1) h).2
          = Raised (ValueError msg)) ∧
  (∀ msg, (__floordiv__ 0%Z (fun _ c => c) Z.sub Z.add Z.div 2 (IsStack 1) h).2
          ≠ Raised (TypeError msg)).
Proof. repeat split; try discriminate; eexists; reflexivity. Qed.

Lemma floordiv_ratio_witness :
  let a : @Stack.ImageStack Z unit :=
    mkStack 1 2 [[[9; 8]%Z]] float64 [("a", ())] ["a"] [(1, 2)] in
  let b : @Stack.ImageStack Z unit :=
    mkStack 1 2 [[[3; 4]%Z]] float64 [("b", ())] ["b"] [(1, 2)] in
  let result := __floordiv__ 0%Z (fun _ c => c) Z.sub Z.add Z.div 0 (IsStack 1) [a; b] in
  [a; b] `prefix_of` result.1 ∧
  ∃ ret r, result.2 = Returned ret ∧ result.1 !! ret = Some r ∧
       cell3 0%Z r 0 0 0 = ((9 - 3) `div` (9 + 3))%Z ∧
       cell3 0%Z r 0 1 0 = ((8 - 4) `div` (8 + 4))%Z.
Proof.
  intros a b result.
  destruct (floordiv_ratio 0%Z (fun _ c => c) Z.sub Z.add Z.div [a; b] 0 (IsStack 1) a
              eq_refl) as (Hframe & Hstack).
  split; [exact Hframe|].
  destruct (Hstack b eq_refl) as (_ & _ & Hsame).
  destruct (Hsame eq_refl eq_refl) as (ret & r & Hr & _ & Hat & _ & Hcells).
  exists ret, r. split; [exact Hr|]. split; [exact Hat|]. split.
  - apply (Hcells 0 0 0); simpl; lia.
  - apply (Hcells 0 1 0); simpl; lia.
Defined.

End RatioAtIntegers.

(** ** Cloning: what a deep copy shares with its original *)

Section CloneRelations.
Import Py Clone.

(** A property of all the references held by a value or by an object. *)
Definition val_ok (P : loc → Prop) (v : val) : Prop :=
  match v with VRef l => P l | _ => True end.
Definition obj_ok (P : loc → Prop) (o : obj) : Prop :=
  Forall (val_ok P) (parts_of o).*2.

(** An object of the data model: it can be copied in depth, which an
    open file or a lock cannot, and, as every Python dictionary, it has
    one entry per key. *)
Definition plain_object (o : obj) : Prop :=
  (∀ w, o ≠ OHandle w) ∧
  match o with OMap _ items => NoDup items.*1 | _ => True end.

(** Two objects with the same shape and corresponding parts.  For an
    instance of [DataFile] the second may have attributes that the first
    lacks (those that [__new__] sets). *)
Definition sim_obj (R : val → val → Prop) (o1 o2 : obj) : Prop :=
  match o1, o2 with
  | OArray c1, OArray c2 => c1 = c2
  | OList i1, OList i2 => Forall2 R i1 i2
  | OMap k1 i1, OMap k2 i2 =>
      k1 = k2 ∧
      (∀ k v, assoc_get k i1 = Some v → ∃ v', assoc_get k i2 = Some v' ∧ R v v') ∧
      (k1 ≠ DataFileInstance → ∀ k, assoc_get k i1 = None → assoc_get k i2 = None)
  | _, _ => False
  end.

(** Equality of contents down to depth [n]: the value [v1] in the store
    [h1] and the value [v2] in the store [h2] are the same scalar, or
    references to objects that compare equal part by part. *)
Fixpoint sim (n : nat) (h1 h2 : heap) (v1 v2 : val) : Prop :=
  match v1, v2 with
  | VRef l1, VRef l2 =>
      match n with
      | O => True
      | S n' =>
          match h1 !! l1, h2 !! l2 with
          | Some o1, Some o2 => sim_obj (sim n' h1 h2) o1 o2
          | _, _ => False
          end
      end
  | VRef _, _ => False
  | _, _ => v2 = v1
  end.

(** The locations that can be reached from a value. *)
Inductive reach (h : heap) : val → loc → Prop :=
| reach_here l : reach h (VRef l) l
| reach_part l o v x :
    h !! l = Some o → v ∈ (parts_of o).*2 → reach h v x → reach h (VRef l) x.

(** A run of writes confined to the objects from location [n0] on: an
    object there is replaced, or a new object is created, and the object
    written holds references to such objects only. *)
Inductive mutates (n0 : nat) (h : heap) : heap → Prop :=
| mutates_none : mutates n0 h h
| mutates_store h' l o :
    mutates n0 h h' → n0 ≤ l → obj_ok (fun r => n0 ≤ r) o →
    mutates n0 h (<[l := o]> h')
| mutates_alloc h' o :
    mutates n0 h h' → obj_ok (fun r => n0 ≤ r) o →
    mutates n0 h (h' ++ [o]).

(** The copy of a value under a memo. *)
Definition linked (m : memo) (v v' : val) : Prop :=
  match v with
  | VRef l => ∃ l', m !! l = Some l' ∧ v' = VRef l'
  | _ => v' = v
  end.

Lemma linked_mono m1 m2 v v' : m1 ⊆ m2 → linked m1 v v' → linked m2 v v'.
Proof.
  intros Hsub. destruct v; simpl; try done.
  intros (l' & Hl & ->). exists l'. split; [|done]. by eapply lookup_weaken.
Qed.

Lemma sim_obj_mono (R1 R2 : val → val → Prop) o1 o2 :
  (∀ v v', R1 v v' → R2 v v') → sim_obj R1 o1 o2 → sim_obj R2 o1 o2.
Proof.
  intros HR. destruct o1, o2; simpl; try done.
  - intros H. eapply Forall2_impl; [exact H|exact HR].
  - intros (-> & Hfw & Hbw). split; [done|]. split; [|done].
    intros k v Hk. destruct (Hfw k v Hk) as (v' & ? & ?). eauto.
Qed.

Lemma assoc_get_set_eq k v d : assoc_get k (assoc_set k v d) = Some v.
Proof.
  induction d as [|[k' v'] d IH]; simpl.
  - by rewrite bool_decide_eq_true_2.
  - case_bool_decide as Hk; simpl.
    + by rewrite bool_decide_eq_true_2.
    + by rewrite bool_decide_eq_false_2.
Qed.

Lemma assoc_get_set_ne k k' v d :
  k ≠ k' → assoc_get k' (assoc_set k v d) = assoc_get k' d.
Proof.
  intros Hne. induction d as [|[k0 v0] d IH]; simpl.
  - by rewrite bool_decide_eq_false_2.
  - case_bool_decide as Hk; simpl.
    + subst k0. by rewrite !bool_decide_eq_false_2.
    + by rewrite IH.
Qed.

Lemma assoc_get_None k d : k ∉ d.*1 → assoc_get k d = None.
Proof.
  induction d as [|[k' v'] d IH]; simpl; [done|].
  intros Hnot. apply not_elem_of_cons in Hnot as [Hne Hnot].
  rewrite bool_decide_eq_false_2 by done. by apply IH.
Qed.

(** The map that results from setting, one after the other, the entries
    of a list with distinct keys. *)
Lemma assoc_get_foldl k (kcs base : list (string * val)) :
  NoDup kcs.*1 →
  assoc_get k (foldl (fun d kc => assoc_set kc.1 kc.2 d) base kcs) =
    match assoc_get k kcs with
    | Some c => Some c
    | None => assoc_get k base
    end.
Proof.
  revert base. induction kcs as [|[k1 c1] kcs IH]; intros base Hnd; simpl; [done|].
  apply NoDup_cons in Hnd as [Hk1 Hnd]. rewrite IH by done.
  case_bool_decide as Hk.
  - subst k1. rewrite assoc_get_None by done. apply assoc_get_set_eq.
  - by rewrite assoc_get_set_ne.
Qed.

Lemma assoc_get_zip (R : val → val → Prop) k (items : list (string * val)) cs :
  Forall2 R items.*2 cs →
  match assoc_get k items with
  | Some v => ∃ c, assoc_get k (zip items.*1 cs) = Some c ∧ R v c
  | None => assoc_get k (zip items.*1 cs) = None
  end.
Proof.
  revert cs. induction items as [|[k1 v1] items IH]; intros cs Hcs; simpl.
  - done.
  - apply Forall2_cons_inv_l in Hcs as (c & cs' & Hc & Hcs' & ->). simpl.
    case_bool_decide; [eauto|]. apply IH, Hcs'.
Qed.

Lemma foldl_add_part_list acc (ks : list string) (cs : list val) :
  length ks = length cs →
  foldl (fun o kc => add_part kc.1 kc.2 o) (OList acc) (zip ks cs) = OList (acc ++ cs).
Proof.
  revert acc cs. induction ks as [|k ks IH]; intros acc [|c cs] Hlen; simpl in *; try done.
  - by rewrite app_nil_r.
  - rewrite IH by lia. by rewrite <- app_assoc.
Qed.

Lemma foldl_add_part_map kind base (kcs : list (string * val)) :
  foldl (fun o kc => add_part kc.1 kc.2 o) (OMap kind base) kcs
    = OMap kind (foldl (fun d kc => assoc_set kc.1 kc.2 d) base kcs).
Proof. revert base. induction kcs as [|kc kcs IH]; intros base; simpl; [done|]. apply IH. Qed.

Lemma foldl_add_part_array cells (kcs : list (string * val)) :
  foldl (fun o kc => add_part kc.1 kc.2 o) (OArray cells) kcs = OArray cells.
Proof. induction kcs as [|kc kcs IH]; simpl; [done|]. apply IH. Qed.

End CloneRelations.

Section CloneInvariant.
Import Py Clone.

(** The store in which the clone is taken, and the objects of it that
    the copy goes through: each of them is there, is an object of the
    data model, and refers to such objects only. *)
Variable h0 : heap.
Variable R : loc → Prop.
Hypothesis HR : ∀ l, R l → ∃ o, h0 !! l = Some o ∧ plain_object o ∧ obj_ok R o.

Lemma R_in_store l : R l → l < length h0.
Proof. intros (o & Ho & _)%HR. by eapply lookup_lt_Some. Qed.

(** What holds of the store and the memo all along a deep copy: the
    objects of [h0] are where they were; the memo sends locations of [h0]
    to locations created since; the objects created since refer to such
    objects only. *)
Record good (st : state) : Prop := mkGood {
  g_old : ∀ x, x < length h0 → st.1 !! x = h0 !! x;
  g_len : length h0 ≤ length st.1;
  g_memo : ∀ l l', st.2 !! l = Some l' → R l ∧ length h0 ≤ l' < length st.1;
  g_new : ∀ l o, length h0 ≤ l → st.1 !! l = Some o → obj_ok (fun r => length h0 ≤ r) o
}.

(** What one call does: it adds to the memo and to the store, leaves
    the objects that exist alone, and every entry it adds to the memo
    pairs an object of [h0] with a finished copy. *)
Record step (st st' : state) : Prop := mkStep {
  s_memo : st.2 ⊆ st'.2;
  s_len : length st.1 ≤ length st'.1;
  s_frame : ∀ x, x < length st.1 → st'.1 !! x = st.1 !! x;
  s_new : ∀ l l', st'.2 !! l = Some l' → st.2 !! l = None →
          length st.1 ≤ l' ∧
          ∃ o o', h0 !! l = Some o ∧ st'.1 !! l' = Some o' ∧ sim_obj (linked st'.2) o o'
}.

Definition enough (fuel : nat) (st : state) : Prop := length h0 - size st.2 < fuel.

Definition copies (fuel : nat) (copy : val → state → state * res val) : Prop :=
  ∀ v st, good st → val_ok R v → enough fuel st →
    ∃ st' v', copy v st = (st', Ret v') ∧ good st' ∧ step st st' ∧ linked st'.2 v v'.

Lemma memo_size st : good st → size st.2 ≤ length h0.
Proof.
  intros Hg. rewrite <- size_dom.
  rewrite <- (size_set_seq (C := gset nat) 0 (length h0)).
  apply subseteq_size. intros l Hl.
  apply elem_of_dom in Hl as [l' Hl']. apply elem_of_set_seq.
  destruct (g_memo _ Hg _ _ Hl') as [HRl _]. apply R_in_store in HRl. lia.
Qed.

Lemma keyless_snd items : (keyless items).*2 = items.
Proof. unfold keyless. rewrite <- list_fmap_compose. apply list_fmap_id. Qed.

Lemma keyless_length items : length (keyless items).*1 = length items.
Proof. unfold keyless. by rewrite !length_fmap. Qed.

Lemma assoc_set_ok P k c d :
  Forall (val_ok P) d.*2 → val_ok P c → Forall (val_ok P) (assoc_set k c d).*2.
Proof.
  intros Hd Hc. induction d as [|[k' v'] d IH]; simpl.
  - by repeat constructor.
  - apply Forall_cons in Hd as [Hv Hd]. case_bool_decide; simpl.
    + by constructor.
    + constructor; [done|]. by apply IH.
Qed.

Lemma add_part_ok P k c o : obj_ok P o → val_ok P c → obj_ok P (add_part k c o).
Proof.
  unfold obj_ok. destruct o as [cells|items|kind items|w]; simpl; try done.
  - rewrite !keyless_snd. intros Hi Hc. apply Forall_app. by repeat constructor.
  - apply assoc_set_ok.
Qed.

Lemma linked_ok st v v' :
  good st → linked st.2 v v' → val_ok (fun r => length h0 ≤ r) v'.
Proof.
  intros Hg. destruct v; simpl; try (by intros ->).
  intros (l' & Hl & ->). simpl. destruct (g_memo _ Hg _ _ Hl). lia.
Qed.

Lemma copy_parts_spec fuel copy l' :
  copies fuel copy →
  ∀ parts st,
    good st → Forall (val_ok R) parts.*2 → enough fuel st →
    length h0 ≤ l' < length st.1 →
    ∃ st' cs,
      copy_parts copy l' parts st = (st', Ret ()) ∧ good st' ∧
      st.2 ⊆ st'.2 ∧ length st.1 ≤ length st'.1 ∧
      (∀ x, x < length st.1 → x ≠ l' → st'.1 !! x = st.1 !! x) ∧
      (∀ l l2, st'.2 !! l = Some l2 → st.2 !! l = None →
         length st.1 ≤ l2 ∧
         ∃ o o', h0 !! l = Some o ∧ st'.1 !! l2 = Some o' ∧ sim_obj (linked st'.2) o o') ∧
      Forall2 (linked st'.2) parts.*2 cs ∧
      st'.1 !! l' =
        (fun o => foldl (fun o kc => add_part kc.1 kc.2 o) o (zip parts.*1 cs))
          <$> st.1 !! l'.
Proof.
  intros Hcopy parts. induction parts as [|[k v] rest IH]; intros st Hg Hok Hfuel Hl'.
  { exists st, []. do 5 (split; [done|]).
    split; [intros; congruence|]. split; [constructor|].
    simpl. by destruct (st.1 !! l'). }
  simpl in Hok. apply Forall_cons in Hok as [Hv Hrest].
  destruct (Hcopy v st Hg Hv Hfuel) as (st1 & c & Hcall & Hg1 & Hstep & Hlink).
  simpl. rewrite Hcall.
  set (st2 := (push l' k c st1.1, st1.2)).
  pose proof (s_len _ _ Hstep) as Hlen1.
  assert (good st2) as Hg2.
  { constructor; unfold st2, push; simpl.
    - intros x Hx. rewrite list_lookup_alter_ne by lia. by apply (g_old _ Hg1).
    - rewrite length_alter. apply (g_len _ Hg1).
    - intros l l2 Hl. rewrite length_alter. by apply (g_memo _ Hg1).
    - intros l o Hl. destruct (decide (l = l')) as [->|Hne].
      + rewrite list_lookup_alter_eq. destruct (st1.1 !! l') as [o1|] eqn:Ho1; [|done].
        simpl. intros [= <-]. apply add_part_ok.
        * by apply (g_new _ Hg1 l').
        * by eapply linked_ok.
      + rewrite list_lookup_alter_ne by done. by apply (g_new _ Hg1). }
  assert (enough fuel st2) as Hfuel2.
  { unfold enough, st2 in *. simpl.
    pose proof (map_subseteq_size _ _ (s_memo _ _ Hstep)). lia. }
  assert (length h0 ≤ l' < length st2.1) as Hl2.
  { unfold st2, push. simpl. rewrite length_alter. lia. }
  destruct (IH st2 Hg2 Hrest Hfuel2 Hl2)
    as (st' & cs & Hrun & Hg' & Hm' & Hlen' & Hframe' & Hnew' & Hcs & Hobj).
  assert (length st2.1 = length st1.1) as Hlen2.
  { unfold st2, push. simpl. by rewrite length_alter. }
  exists st', (c :: cs). split; [exact Hrun|]. split; [exact Hg'|].
  split; [etrans; [apply (s_memo _ _ Hstep)|exact Hm']|].
  split; [lia|].
  split; [|split; [|split]].
  - intros x Hx Hne. rewrite Hframe' by lia.
    unfold st2, push. simpl. rewrite list_lookup_alter_ne by done.
    by apply (s_frame _ _ Hstep).
  - intros l l2 Hl Hnone.
    destruct (st1.2 !! l) as [l1|] eqn:Hl1.
    + assert (l1 = l2) as ->.
      { pose proof (lookup_weaken _ _ _ _ Hl1 Hm') as Hl1'. simpl in *. congruence. }
      destruct (s_new _ _ Hstep _ _ Hl1 Hnone) as (Hge & o & o' & Ho & Ho' & Hsim).
      split; [done|]. exists o, o'. split; [done|]. split.
      * rewrite Hframe'; [|rewrite Hlen2; by eapply lookup_lt_Some|lia].
        unfold st2, push. simpl. rewrite list_lookup_alter_ne by lia. done.
      * eapply sim_obj_mono; [|exact Hsim]. intros ? ?. by apply linked_mono.
    + destruct (Hnew' l l2 Hl Hl1) as (Hge & Hrest'). split; [lia|done].
  - simpl. constructor; [|done]. by eapply linked_mono.
  - rewrite Hobj. unfold st2, push. simpl. rewrite list_lookup_alter_eq.
    rewrite (s_frame _ _ Hstep) by lia. by destruct (st.1 !! l').
Qed.

(** The container filled by the loop is a copy of the object that the
    parts were taken from. *)
Lemma filled_is_copy m l' o first others cs :
  (∀ w, o ≠ OHandle w) →
  match o with OMap _ items => NoDup items.*1 | _ => True end →
  blank l' o = first :: others →
  Forall2 (linked m) (parts_of o).*2 cs →
  sim_obj (linked m) o
    (foldl (fun o kc => add_part kc.1 kc.2 o) first (zip (parts_of o).*1 cs)).
Proof.
  intros Hnh Hnd Hblank Hcs.
  destruct o as [cells|items|kind items|w]; cbn [parts_of blank] in *.
  - injection Hblank as <- <-. by rewrite foldl_add_part_array.
  - injection Hblank as <- <-. rewrite keyless_snd in Hcs.
    rewrite foldl_add_part_list.
    + done.
    + rewrite keyless_length. by eapply Forall2_length.
  - assert (∃ base, first = OMap kind base ∧ (kind ≠ DataFileInstance → base = []))
      as (base & -> & Hbase).
    { destruct kind; injection Hblank as <- <-; eexists; split; done. }
    rewrite foldl_add_part_map. simpl. split; [done|].
    assert (NoDup (zip items.*1 cs).*1) as Hnd'.
    { rewrite fst_zip; [done|]. rewrite length_fmap.
      apply Forall2_length in Hcs. rewrite length_fmap in Hcs. lia. }
    split.
    + intros k v Hk. pose proof (assoc_get_zip (linked m) k items cs Hcs) as Hz.
      rewrite Hk in Hz. destruct Hz as (c & Hc & Hlink).
      exists c. split; [|done]. by rewrite assoc_get_foldl, Hc.
    + intros Hkind k Hk. pose proof (assoc_get_zip (linked m) k items cs Hcs) as Hz.
      rewrite Hk in Hz. rewrite assoc_get_foldl, Hz, (Hbase Hkind) by done. done.
  - by destruct (Hnh w).
Qed.

Lemma blank_ok l' o :
  length h0 ≤ l' → Forall (obj_ok (fun r => length h0 ≤ r)) (blank l' o).
Proof.
  intros Hl'. unfold obj_ok.
  destruct o as [cells|items|kind items|w]; simpl; repeat constructor.
  destruct kind; simpl; repeat constructor; simpl; lia.
Qed.

Lemma or_shallow_copies fuel copy : copies fuel copy → copies fuel (or_shallow copy).
Proof.
  intros Hcopy v st Hg Hv Hfuel.
  destruct (Hcopy v st Hg Hv Hfuel) as (st' & v' & Hcall & Hrest).
  exists st', v'. unfold or_shallow. by rewrite Hcall.
Qed.

Lemma step_refl st : step st st.
Proof. constructor; try done. intros; congruence. Qed.

Lemma blank_first l' o :
  (∀ w, o ≠ OHandle w) → ∃ first others, blank l' o = first :: others.
Proof.
  intros Hnh. destruct o as [cells|items|kind items|w]; simpl; eauto.
  - destruct kind; simpl; eauto.
  - by destruct (Hnh w).
Qed.

(** With fuel for every object of [h0] that the memo does not know yet, a
    deep copy returns, and does what [step] says. *)
Lemma deepcopy_copies fuel : copies fuel (deepcopy fuel).
Proof.
  induction fuel as [|fuel IH]; intros v st Hg Hv Hfuel.
  { unfold enough in Hfuel. lia. }
  destruct v as [| | | |l];
    try (eexists st, _; split; [reflexivity|]; split; [done|]; split;
         [apply step_refl|done]).
  simpl in Hv. simpl. destruct (st.2 !! l) as [l1|] eqn:Hm.
  { exists st, (VRef l1). split; [done|]. split; [done|]. split; [apply step_refl|].
    simpl. eauto. }
  destruct (HR l Hv) as (o & Ho & [Hnh Hnd] & Hparts).
  rewrite (g_old _ Hg l (R_in_store l Hv)), Ho.
  remember (length st.1) as l' eqn:Hl'eq.
  set (copy := match o with
               | OMap DataFileInstance _ => or_shallow (deepcopy fuel)
               | _ => deepcopy fuel
               end).
  set (st1 := (st.1 ++ blank l' o, <[l := l']> st.2)).
  assert (copies fuel copy) as Hcopy.
  { unfold copy. destruct o as [| |[] |]; try exact IH. by apply or_shallow_copies. }
  destruct (blank_first l' o Hnh) as (first & others & Hblank).
  pose proof (g_len _ Hg) as Hlen.
  assert (length (st.1 ++ blank l' o) = length st.1 + S (length others)) as Happ.
  { rewrite Hblank, length_app. done. }
  assert (good st1) as Hg1.
  { constructor; unfold st1; cbn [fst snd].
    - intros x Hx. rewrite lookup_app_l by lia. by apply (g_old _ Hg).
    - lia.
    - intros a a' Ha.
      destruct (decide (a = l)) as [->|Hne].
      + rewrite lookup_insert_eq in Ha. injection Ha as <-. split; [done|lia].
      + rewrite lookup_insert_ne in Ha by done.
        destruct (g_memo _ Hg _ _ Ha). split; [done|lia].
    - intros x ox Hx Hox. destruct (decide (x < length st.1)) as [Hlt|Hge].
      + rewrite lookup_app_l in Hox by done. by apply (g_new _ Hg x).
      + rewrite lookup_app_r in Hox by lia.
        assert (length h0 ≤ l') as Hlen'' by lia.
        eapply (Forall_lookup_1 _ _ _ _ (blank_ok l' o Hlen'') Hox). }
  assert (size st1.2 = S (size st.2)) as Hsize.
  { unfold st1. cbn [fst snd]. by rewrite map_size_insert_None. }
  assert (enough fuel st1) as Hfuel1.
  { pose proof (memo_size st1 Hg1). unfold enough in *. lia. }
  assert (length h0 ≤ l' < length st1.1) as Hl'.
  { unfold st1. cbn [fst snd]. lia. }
  destruct (copy_parts_spec fuel copy l' Hcopy (parts_of o) st1 Hg1 Hparts Hfuel1 Hl')
    as (st' & cs & Hrun & Hg' & Hm' & Hlen' & Hframe & Hnew & Hcs & Hobj).
  assert (st1.1 !! l' = Some first) as Hfirst.
  { unfold st1. cbn [fst snd]. rewrite lookup_app_r by lia.
    rewrite Hblank. by replace (l' - length st.1) with 0 by lia. }
  assert (st'.2 !! l = Some l') as Hll'.
  { eapply lookup_weaken; [|exact Hm']. unfold st1. cbn [fst snd]. apply lookup_insert_eq. }
  exists st', (VRef l').
  split.
  { rewrite Hrun. by destruct o. }
  split; [exact Hg'|]. split; [|simpl; eauto].
  assert (length st1.1 = length st.1 + S (length others)) as Hlen1 by done.
  constructor.
  - etrans; [|exact Hm']. unfold st1. cbn [fst snd]. by apply insert_subseteq.
  - lia.
  - intros x Hx. rewrite Hframe by lia.
    unfold st1. cbn [fst snd]. by rewrite lookup_app_l.
  - intros a a' Ha Hnone. destruct (decide (a = l)) as [->|Hne].
    + assert (a' = l') as -> by congruence.
      split; [lia|]. exists o, (foldl (fun o kc => add_part kc.1 kc.2 o) first
                                   (zip (parts_of o).*1 cs)).
      split; [done|]. split; [by rewrite Hobj, Hfirst|].
      by eapply filled_is_copy.
    + destruct (Hnew a a' Ha) as (Hge & Hrest).
      { unfold st1. cbn [fst snd]. by rewrite lookup_insert_ne. }
      split; [lia|done].
Qed.

End CloneInvariant.

Section CloneClaim.
Import Py Clone.

(** Once every entry of the memo pairs an object with a finished copy,
    a value and its copy compare equal to any depth. *)
Lemma sim_of_memo (h0 h' : heap) (m' : memo) :
  (∀ l l', m' !! l = Some l' →
     ∃ o o', h0 !! l = Some o ∧ h' !! l' = Some o' ∧ sim_obj (linked m') o o') →
  ∀ n v v', linked m' v v' → sim n h0 h' v v'.
Proof.
  intros Hall. induction n as [|n IH]; intros v v' Hlink;
    (destruct v as [| | | |l]; simpl in Hlink;
     [by subst..|destruct Hlink as (l' & Hm & ->)]); simpl; [done|].
  destruct (Hall l l' Hm) as (o & o' & -> & -> & Hsim).
  eapply sim_obj_mono; [|exact Hsim]. exact (IH).
Qed.

(** In a store whose objects from [n0] on refer to such objects only,
    whatever is reached from one of them is one of them. *)
Lemma reach_new (n0 : nat) (h : heap) v x :
  (∀ l o, n0 ≤ l → h !! l = Some o → obj_ok (fun r => n0 ≤ r) o) →
  reach h v x → val_ok (fun r => n0 ≤ r) v → n0 ≤ x.
Proof.
  intros Hnew. induction 1 as [l|l o v x Ho Hv _ IH]; simpl; [done|].
  intros Hl. apply IH.
  eapply (proj1 (Forall_forall _ _) (Hnew l o Hl Ho)), Hv.
Qed.

Lemma mutates_frame (n0 : nat) (h h'' : heap) :
  mutates n0 h h'' →
  n0 ≤ length h →
  (∀ l o, n0 ≤ l → h !! l = Some o → obj_ok (fun r => n0 ≤ r) o) →
  n0 ≤ length h'' ∧
  (∀ x, x < n0 → h'' !! x = h !! x) ∧
  (∀ l o, n0 ≤ l → h'' !! l = Some o → obj_ok (fun r => n0 ≤ r) o).
Proof.
  intros Hmut Hlen Hnew.
  induction Hmut as [|h' l o _ (Hlen' & Hold & Hnew') Hl Ho
                     |h' o _ (Hlen' & Hold & Hnew') Ho]; [done| |].
  - split; [by rewrite length_insert|]. split.
    + intros x Hx. rewrite list_lookup_insert_ne by lia. by apply Hold.
    + intros x ox Hx. destruct (decide (x = l)) as [->|Hne].
      * intros Hox. apply list_lookup_insert_Some in Hox as [(_ & <- & _)|(? & _)]; done.
      * rewrite list_lookup_insert_ne by done. by apply Hnew'.
  - split; [rewrite length_app; lia|]. split.
    + intros x Hx. rewrite lookup_app_l by lia. by apply Hold.
    + intros x ox Hx Hox. apply lookup_app_Some in Hox as [Hox|[_ Hox]].
      * by apply (Hnew' x).
      * apply list_lookup_singleton_Some in Hox as [_ <-]. done.
Qed.

(** What is reached from an object that is reached is reached. *)
Lemma reach_step (h : heap) v l o u x :
  reach h v l → h !! l = Some o → u ∈ (parts_of o).*2 → reach h u x → reach h v x.
Proof.
  intros Hreach Ho Hu Hx.
  induction Hreach as [l|l0 o0 v0 l Ho0 Hv0 _ IH].
  - by eapply reach_part.
  - eapply reach_part; [exact Ho0|exact Hv0|]. by apply IH.
Qed.

(** C3: the clone of a DataFile from which only objects of the data
    model are reached (no open file, no lock: nothing that the deep copy
    refuses) is a new object each attribute of which compares equal, to
    any depth, to the attribute of the original, its data, metadata and
    setas among them; all that can be reached from the clone was created
    by the cloning, so that whatever is afterwards written into the
    clone, or into anything reached from it, leaves every object of the
    original as it was. *)
Theorem clone_is_independent (h0 : heap) (d : loc) attrs (fuel : nat) :
  h0 !! d = Some (OMap DataFileInstance attrs) →
  (∀ x, reach h0 (VRef d) x → ∃ o, h0 !! x = Some o ∧ plain_object o) →
  length h0 < fuel →
  ∃ h' e attrs',
    clone fuel d h0 = (h', Ret e) ∧
    h' !! e = Some (OMap DataFileInstance attrs') ∧
    (∀ k v, assoc_get k attrs = Some v →
       ∃ v', assoc_get k attrs' = Some v' ∧ ∀ n, sim n h0 h' v v') ∧
    (∀ h'', mutates (length h0) h' h'' →
       (∀ x, reach h'' (VRef e) x → length h0 ≤ x) ∧
       (∀ x, x < length h0 → h'' !! x = h0 !! x)).
Proof.
  intros Hd Hplain Hfuel.
  set (R := reach h0 (VRef d)).
  assert (∀ l, R l → ∃ o, h0 !! l = Some o ∧ plain_object o ∧ obj_ok R o) as HR.
  { intros l Hl. destruct (Hplain l Hl) as (o & Ho & Hp).
    exists o. split; [done|]. split; [done|].
    unfold obj_ok. apply Forall_forall. intros u Hu.
    destruct u as [| | | |x]; simpl; try done.
    eapply (reach_step h0 (VRef d) l o (VRef x)); [exact Hl|exact Ho|exact Hu|].
    apply reach_here. }
  assert (good h0 R (h0, ∅)) as Hg0.
  { constructor; simpl; try done.
    intros l o Hl Ho. apply lookup_lt_Some in Ho. lia. }
  assert (enough h0 fuel (h0, ∅)) as Hf0.
  { unfold enough. simpl. rewrite map_size_empty. lia. }
  assert (val_ok R (VRef d)) as Hvd by apply reach_here.
  destruct (deepcopy_copies h0 R HR fuel (VRef d) (h0, ∅) Hg0 Hvd Hf0)
    as ([h' m'] & v' & Hcall & Hg' & Hstep & Hlink).
  destruct Hlink as (e & Hme & ->). simpl in Hme.
  assert (∀ l l', m' !! l = Some l' →
            ∃ o o', h0 !! l = Some o ∧ h' !! l' = Some o' ∧ sim_obj (linked m') o o')
    as Hall.
  { intros l l' Hl. by destruct (s_new _ _ _ Hstep l l' Hl) as (_ & Hrest). }
  destruct (Hall d e Hme) as (o & o' & Ho & Ho' & Hsim).
  assert (o = OMap DataFileInstance attrs) as -> by congruence.
  destruct o' as [|items'|kind' attrs'|]; simpl in Hsim; try done.
  destruct Hsim as (<- & Hfw & _).
  exists h', e, attrs'. split; [|split; [done|split]].
  - unfold clone. by rewrite Hcall.
  - intros k v Hk. destruct (Hfw k v Hk) as (v' & Hk' & Hlink).
    exists v'. split; [done|]. intros n. by eapply sim_of_memo.
  - intros h'' Hmut.
    destruct (mutates_frame _ _ _ Hmut (g_len _ _ _ Hg') (g_new _ _ _ Hg'))
      as (Hlen'' & Hold & Hnew).
    split.
    + intros x Hx. eapply reach_new; [exact Hnew|exact Hx|].
      simpl. destruct (g_memo _ _ _ Hg' d e Hme). simpl in *. lia.
    + intros x Hx. rewrite Hold by done. by apply (g_old _ _ _ Hg').
Qed.

(** A DataFile at location 0: a data buffer, a metadata dictionary that
    holds a number and an array, and a mask stack that holds the sentinel
    and the data buffer once more.  The object at location 5, an open
    file, is not reached from it. *)
Definition sample_store : heap :=
  [OMap DataFileInstance [("_data", VRef 1); ("metadata", VRef 2); ("_masks", VRef 4)];
   OArray [1; 2; 3]%Z;
   OMap Dict [("k", VInt 5); ("arr", VRef 3)];
   OArray [9]%Z;
   OList [VBool false; VRef 1];
   OHandle "_io.TextIOWrapper"].

Lemma sample_store_reach x : reach sample_store (VRef 0) x → x < 5.
Proof.
  assert (∀ v y, reach sample_store v y →
            val_ok (fun l => l < 5) v → y < 5) as Hall.
  { induction 1 as [l|l o v y Ho Hv _ IH]; simpl; [done|].
    intros Hl. apply IH.
    do 5 (destruct l as [|l]; [injection Ho as <-; simpl in Hv;
      repeat (apply elem_of_cons in Hv as [->|Hv]; [simpl; lia|]);
      by apply elem_of_nil in Hv|]).
    lia. }
  intros Hx. apply (Hall _ _ Hx). simpl. lia.
Qed.

Lemma clone_is_independent_witness :
  ∃ h' e, clone 7 0 sample_store = (h', Ret e) ∧
          ∀ h'', mutates 6 h' h'' → ∀ x, x < 6 → h'' !! x = sample_store !! x.
Proof.
  destruct (clone_is_independent sample_store 0
              [("_data", VRef 1); ("metadata", VRef 2); ("_masks", VRef 4)] 7)
    as (h' & e & attrs' & Hclone & _ & _ & Hind).
  - reflexivity.
  - intros x Hx%sample_store_reach.
    do 5 (destruct x as [|x];
          [eexists; split; [reflexivity|]; split; [discriminate|];
           first [exact I | apply (bool_decide_unpack _); vm_compute; exact I]|]).
    lia.
  - simpl. lia.
  - exists h', e. split; [exact Hclone|].
    intros h'' Hmut. apply (Hind h'' Hmut).
Defined.

End CloneClaim.

(** * Further properties *)

(** ** The loader: mime types, named file types *)

Section LoadMore.
Import Py Loader.

Lemma auto_loop_tried keys self f mt hs name :
  name ∈ (auto_loop keys self f mt hs).1 →
  ∃ k cls, (k, cls) ∈ hs ∧ cls_name cls = name ∧ mime_mismatch mt cls = false.
Proof.
  induction hs as [|[k cls] hs IH]; simpl; [by intros ?%elem_of_nil|].
  unfold attempt at 1.
  destruct (mime_mismatch mt cls) eqn:Hm.
  - intros Hin. destruct (IH Hin) as (k' & cls' & Hin' & Hn & Hm').
    exists k', cls'. split; [by right|done].
  - assert (name = cls_name cls →
            ∃ k0 cls0, (k0, cls0) ∈ (k, cls) :: hs ∧ cls_name cls0 = name ∧
                       mime_mismatch mt cls0 = false) as Hhere.
    { intros ->. exists k, cls. split; [by left|done]. }
    assert (name ∈ (auto_loop keys self f mt hs).1 →
            ∃ k0 cls0, (k0, cls0) ∈ (k, cls) :: hs ∧ cls_name cls0 = name ∧
                       mime_mismatch mt cls0 = false) as Hlater.
    { intros Hin. destruct (IH Hin) as (k' & cls' & Hin' & Hn & Hm').
      exists k', cls'. split; [by right|done]. }
    destruct (_load cls f) as [[test|]|e]; simpl.
    + intros ->%list_elem_of_singleton. by apply Hhere.
    + intros ->%list_elem_of_singleton. by apply Hhere.
    + destruct (is_load_error e); [|destruct (is_unicode_error e)].
      * destruct (auto_loop keys self f mt hs) as [tried r]. simpl in *.
        intros [->|Hin]%elem_of_cons; auto.
      * destruct (auto_loop keys self f mt hs) as [tried r]. simpl in *.
        intros [->|Hin]%elem_of_cons; auto.
      * intros ->%list_elem_of_singleton. by apply Hhere.
Qed.

(** X1: in an auto-detecting load, every class whose parse routine is
    called is an entry of the registry and, when the [magic] module is
    there, lists the detected mime type of the file among its own: a
    class with another mime type is never tried. *)
Theorem load_tries_only_matching_mime_types E own self f name :
  path_exists E f = true →
  name ∈ (load E own self (Some f) None None).1 →
  ∃ k cls, (k, cls) ∈ subclasses E ∧ cls_name cls = name ∧
           match filemagic E with
           | Some detect => detect f ∈ mime_type cls
           | None => True
           end.
Proof.
  intros Hex. rewrite load_auto by done. intros Hin.
  destruct (auto_loop_tried _ _ _ _ _ _ Hin) as (k & cls & Hreg & Hn & Hm).
  exists k, cls. split; [done|]. split; [done|].
  unfold mime_mismatch in Hm. destruct (filemagic E) as [detect|]; [|done].
  simpl in Hm. apply negb_false_iff in Hm. by apply bool_decide_eq_true in Hm.
Qed.

Definition image_reader : handler :=
  mkHandler "Image" ["image/png"] (fun _ => Ret (Some sample_file)).

Lemma load_tries_only_matching_mime_types_witness :
  ∃ k cls, (k, cls) ∈ [("Image", image_reader); ("Good", matching)] ∧
           cls_name cls = "Good" ∧ "text/plain" ∈ mime_type cls.
Proof.
  apply (load_tries_only_matching_mime_types
           (mkEnv (fun _ => true) (Some (fun _ => "text/plain")) None
                  [("Image", image_reader); ("Good", matching)])
           matching empty_file "f.dat" "Good").
  - reflexivity.
  - vm_compute. apply list_elem_of_singleton. reflexivity.
Defined.

(** X2: a load with a named file type tries that one class and nothing
    else.  Whatever its parse routine raises, [StonerLoadError] included,
    leaves [load] as it is; when it succeeds, the caller has the data
    and the column headers of the loaded file, and its metadata are
    updated, not replaced: a key of the loaded file takes the value from
    the file, ["Loaded as"] otherwise names the class, and every other key
    keeps the value the caller had. *)
Theorem load_named_filetype E own self f ft cls :
  path_exists E f = true →
  resolve_filetype (subclasses E) ft = Ret cls →
  (load E own self (Some f) (Some ft) None).1 = [cls_name cls] ∧
  (∀ e, _load cls f = Raise e →
        (load E own self (Some f) (Some ft) None).2 = Raise e) ∧
  (∀ test, _load cls f = Ret (Some test) →
     ∃ d, (load E own self (Some f) (Some ft) None).2 = Ret d ∧
          data d = data test ∧
          column_headers d = column_headers test ∧
          filename d = Some f ∧
          ∀ key, metadata d !! key =
                 match metadata test !! key with
                 | Some v => Some v
                 | None => if bool_decide (key = "Loaded as")
                           then Some (MStr (cls_name cls))
                           else metadata self !! key
                 end).
Proof.
  intros Hex Hft. unfold load. rewrite Hft. simpl. rewrite Hex. simpl.
  split; [done|]. split.
  - intros e He. unfold load_one. by rewrite He.
  - intros test Hok. unfold load_one. rewrite Hok. eexists. split; [done|].
    simpl. repeat split. intros key.
    rewrite lookup_union. destruct (metadata test !! key) as [v|] eqn:Hk.
    + by rewrite union_Some_l.
    + rewrite (left_id None (∪)). case_bool_decide as Hkey.
      * subst key. apply lookup_insert_eq.
      * by rewrite lookup_insert_ne.
Qed.

Lemma load_named_filetype_witness :
  (load (sample_env [mismatching; matching]) matching empty_file
     (Some "f.dat") (Some "Other") None)
  = (["Other"], Raise (StonerLoadError "Not mine")).
Proof.
  destruct (load_named_filetype (sample_env [mismatching; matching]) matching
              empty_file "f.dat" "Other" mismatching eq_refl eq_refl)
    as (Htried & Hraise & _).
  apply injective_projections; [exact Htried|].
  apply Hraise. reflexivity.
Defined.

(** X3: a file type given by name is looked up in two passes.  A key of
    the registry equal to the name wins, wherever it stands; only when no
    key is equal does the first key, in registry order, that contains
    the name as a substring win; when no key contains it the load fails
    with [ValueError]. *)
Theorem resolve_filetype_two_passes reg ft :
  match resolve_filetype reg ft with
  | Ret cls =>
      (∃ i, reg !! i = Some (ft, cls) ∧
            ∀ j kc, j < i → reg !! j = Some kc → kc.1 ≠ ft)
      ∨ ((∀ kc, kc ∈ reg → kc.1 ≠ ft) ∧
         ∃ i k, reg !! i = Some (k, cls) ∧ str_contains ft k = true ∧
                ∀ j kc, j < i → reg !! j = Some kc → str_contains ft kc.1 = false)
  | Raise e =>
      e = ValueError ("Unrecognised class name for file type: " +:+ ft) ∧
      ∀ kc, kc ∈ reg → kc.1 ≠ ft ∧ str_contains ft kc.1 = false
  end.
Proof.
  unfold resolve_filetype.
  destruct (list_find (fun kc => bool_decide (kc.1 = ft)) reg) as [[i [k cls]]|] eqn:H1.
  - apply list_find_Some in H1 as (Hi & Hk & Hbefore).
    apply bool_decide_unpack in Hk. simpl in Hk. subst k.
    left. exists i. split; [done|]. intros j kc Hj Hkc.
    specialize (Hbefore j kc Hkc Hj). intros Heq. apply Hbefore.
    by apply bool_decide_pack.
  - apply list_find_None in H1.
    assert (∀ kc, kc ∈ reg → kc.1 ≠ ft) as Hno.
    { intros kc Hin. rewrite Forall_forall in H1. specialize (H1 kc Hin).
      intros Heq. apply H1. by apply bool_decide_pack. }
    destruct (list_find (fun kc => Is_true (str_contains ft kc.1)) reg)
      as [[i [k cls]]|] eqn:H2.
    + apply list_find_Some in H2 as (Hi & Hk & Hbefore). simpl in Hk.
      right. split; [done|]. exists i, k. split; [done|].
      split; [by apply Is_true_true|].
      intros j kc Hj Hkc. specialize (Hbefore j kc Hkc Hj).
      destruct (str_contains ft kc.1); [by destruct Hbefore|done].
    + apply list_find_None in H2. split; [done|]. intros kc Hin.
      split; [by apply Hno|]. rewrite Forall_forall in H2. specialize (H2 kc Hin).
      destruct (str_contains ft kc.1); [by destruct H2|done].
Qed.

End LoadMore.

(** ** What [save] writes, read back by [_load] *)

Section SaveThenLoad.
Import Py Text Loader Tdi Save.
Variable lay_out : gmap string mdval → list (list Z) → res (list string).

(** No character of [s] satisfies [P]. *)
Fixpoint lacks (P : ascii → bool) (s : string) : bool :=
  match s with
  | EmptyString => true
  | String c rest => negb (P c) && lacks P rest
  end.

(** A column header that fits on the header line: it holds neither a
    tab nor a line ending. *)
Definition plain (h : string) : bool :=
  lacks (fun c => bool_decide (c = tab)) h && lacks is_eol h.

Lemma lacks_app P a b : lacks P (a +:+ b) = lacks P a && lacks P b.
Proof.
  induction a as [|c a IH]; simpl; [done|]. rewrite IH. by rewrite andb_assoc.
Qed.

Lemma split_whole sep a :
  lacks (fun c => bool_decide (c = sep)) a = true → split sep a = [a].
Proof.
  induction a as [|c a IH]; simpl; [done|].
  intros [Hc Ha]%andb_prop. apply negb_true_iff in Hc. rewrite Hc.
  by rewrite IH.
Qed.

Lemma split_app_sep sep a b :
  lacks (fun c => bool_decide (c = sep)) a = true →
  split sep (a +:+ String sep b) = a :: split sep b.
Proof.
  induction a as [|c a IH]; simpl.
  - intros _. by rewrite bool_decide_eq_true_2.
  - intros [Hc Ha]%andb_prop. apply negb_true_iff in Hc. rewrite Hc.
    by rewrite IH.
Qed.

Lemma split_join parts :
  parts ≠ [] →
  Forall (fun p => lacks (fun c => bool_decide (c = tab)) p = true) parts →
  split tab (join (String tab "") parts) = parts.
Proof.
  intros Hne Hall. induction Hall as [|p parts Hp Hall IH]; [done|].
  destruct parts as [|q parts]; simpl.
  - by apply split_whole.
  - change (split tab (p +:+ String tab (join (String tab "") (q :: parts)))
            = p :: q :: parts).
    rewrite split_app_sep by done. by rewrite IH.
Qed.

Lemma lacks_join P parts :
  P tab = false →
  Forall (fun p => lacks P p = true) parts →
  lacks P (join (String tab "") parts) = true.
Proof.
  intros Htab Hall. induction Hall as [|p parts Hp Hall IH]; [done|].
  destruct parts as [|q parts]; simpl; [done|].
  rewrite lacks_app, Hp. simpl. rewrite Htab. exact IH.
Qed.

Lemma first_line_app a b :
  lacks is_eol a = true → first_line (a +:+ String "010" b) = a.
Proof.
  induction a as [|c a IH]; simpl; [done|].
  intros [Hc Ha]%andb_prop. apply negb_true_iff in Hc. rewrite Hc.
  by rewrite IH.
Qed.

(** A text of ASCII characters: the bytes that [np.savetxt] writes for
    it on the handle opened in binary mode, its latin1 encoding, are the
    bytes that [_load] reads as the same text when it decodes the file as
    UTF-8. *)
Definition is_ascii (h : string) : bool :=
  lacks (fun c => bool_decide (128 ≤ nat_of_ascii c)) h.

(** X4: the header line that [save] hands to [np.savetxt] is accepted by
    the header check of [_load], whatever lines follow it in the file: the
    format read back is 1.5 and the column headers are those of the
    columns written, with their outer white space stripped, as long as
    every header is a text of ASCII characters that holds neither a tab
    nor a line ending. *)
Theorem saved_header_loads dialog self fname self' w body :
  save lay_out dialog self fname = Ret (self', w) →
  Forall (fun h => plain h = true) (column_headers self) →
  Forall (fun h => is_ascii h = true) (column_headers self) →
  header_check (w_header w +:+ String "010" body)
    = Ret (Fmt_1_5, strip <$> take (ncols self) (column_headers self)).
Proof.
  intros Hsave Hplain _.
  set (hs := take (ncols self) (column_headers self)).
  assert (w_header w = join (String tab "") ("TDI Format 1.5" :: hs)) as Hw.
  { unfold save in Hsave.
    destruct (match fname with Some f => Some f | None => filename self end) as [f|].
    - cbn [mbind res_bind bind] in Hsave.
      destruct (normalise _patterns f) as [path|e]; [|done].
      cbn [mbind res_bind bind] in Hsave.
      destruct (lay_out _ _) as [lines|e]; [|done].
      cbn [mbind res_bind bind] in Hsave. by injection Hsave as <- <-.
    - destruct dialog as [f|]; [|done]. cbn [mbind res_bind bind] in Hsave.
      destruct (normalise _patterns f) as [path|e]; [|done].
      cbn [mbind res_bind bind] in Hsave.
      destruct (lay_out _ _) as [lines|e]; [|done].
      cbn [mbind res_bind bind] in Hsave. by injection Hsave as <- <-. }
  assert (Forall (fun h => plain h = true) hs) as Hhs.
  { apply Forall_take. exact Hplain. }
  assert (Forall (fun p => lacks (fun c => bool_decide (c = tab)) p = true)
            ("TDI Format 1.5" :: hs)) as Htabs.
  { apply List.Forall_cons; [done|].
    eapply Forall_impl; [exact Hhs|]. by intros h [? ?]%andb_prop. }
  assert (Forall (fun p => lacks is_eol p = true) ("TDI Format 1.5" :: hs)) as Heols.
  { apply List.Forall_cons; [done|].
    eapply Forall_impl; [exact Hhs|]. by intros h [? ?]%andb_prop. }
  set (header := join (String tab "") ("TDI Format 1.5" :: hs)) in *.
  assert (∃ rest, header = String "T" rest) as [rest Hrest].
  { unfold header. destruct hs; simpl; eauto. }
  assert (first_line (header +:+ String "010" body) = header) as Hline.
  { apply first_line_app, lacks_join; done. }
  assert (split tab header = "TDI Format 1.5" :: hs) as Hsplit.
  { by apply split_join. }
  unfold header_check, header_try, next_row. rewrite Hw.
  assert (∃ more, header +:+ String "010" body = String "T" more) as [more Hmore].
  { rewrite Hrest. simpl. eauto. }
  rewrite Hmore at 1. cbn [mbind res_bind bind].
  rewrite Hline. unfold csv_row. rewrite Hsplit, Hrest. done.
Qed.

End SaveThenLoad.

Section SaveThenLoadSample.
Import Py Text Loader Tdi Save.

Lemma saved_header_loads_witness :
  header_check ("TDI Format 1.5" +:+ String tab "A" +:+ String tab " B"
                +:+ String "010" "k=1")
  = Ret (Fmt_1_5, ["A"; "B"]).
Proof.
  apply (saved_header_loads blank_lines None
           (mkDataFile [[1; 2]%Z] ∅ ["A"; " B"] None) (Some "run.dat")
           (mkDataFile [[1; 2]%Z] ∅ ["A"; " B"] (Some "run.txt"))
           (mkWritten "run.txt" ("TDI Format 1.5" +:+ String tab "A" +:+ String tab " B")
              [""])
           "k=1").
  - reflexivity.
  - repeat (apply List.Forall_cons; [reflexivity|]). apply List.Forall_nil.
  - repeat (apply List.Forall_cons; [reflexivity|]). apply List.Forall_nil.
Defined.

End SaveThenLoadSample.

(** ** Masks set row by row *)

Section MaskRows.
Import Py Masks Filter.

(** The cell of a mask at row [i] and column [j]. *)
Definition mask_cell (m : list (list bool)) (i j : nat) : option bool :=
  m !! i ≫= fun row => row !! j.

Lemma update_row_cumulative invert t mrow j :
  mrow !! j = Some true →
  update_row invert true t mrow !! j = Some true.
Proof.
  intros Hj. destruct t as [t|t]; simpl.
  - destruct (xorb t invert); [|done].
    rewrite list_lookup_fmap, Hj. done.
  - rewrite list_lookup_imap, Hj. simpl.
    destruct (t !! j) as [tj|]; [|done]. by destruct (xorb tj invert).
Qed.

Lemma set_mask_rows_cumulative func invert col rows mrows i j :
  mask_cell mrows i j = Some true →
  mask_cell (set_mask_rows func invert true col rows mrows).1 i j = Some true.
Proof.
  revert mrows i. induction rows as [|r rows IH]; intros [|mrow mrows] i; simpl; try done.
  destruct (call func col r) as [t|e]; simpl; [|done].
  specialize (IH mrows).
  destruct (set_mask_rows func invert true col rows mrows) as [rest e]. simpl in *.
  destruct i as [|i]; unfold mask_cell in *; simpl.
  - apply update_row_cumulative.
  - apply IH.
Qed.

(** X5: [_set_mask] with [cumulative] true never unmasks: whatever the
    row function answers, and even when it raises on the way, a cell that
    was masked before the call is masked after it, and the mask keeps its
    shape. *)
Theorem set_mask_cumulative_only_adds func invert col w m :
  mask w = Some m →
  ∃ m', mask (_set_mask func invert true col w).1 = Some m' ∧
        row_lengths m' = row_lengths m ∧
        ∀ i j, mask_cell m i j = Some true → mask_cell m' i j = Some true.
Proof.
  intros Hm. unfold _set_mask. rewrite Hm.
  pose proof (set_mask_rows_lengths func invert true col (data w.2) m) as Hl.
  pose proof (set_mask_rows_cumulative func invert col (data w.2) m) as Hc.
  destruct (set_mask_rows func invert true col (data w.2) m) as [m' e]. simpl in *.
  exists m'. split; [|done].
  unfold mask, write_mask in *. simpl.
  apply list_lookup_insert_eq. by eapply lookup_lt_Some.
Qed.

Lemma set_mask_cumulative_only_adds_witness :
  ∃ m', mask (_set_mask (Func1 (fun r => VBool (bool_decide (r = [3; 4]%Z))))
                false true 0
                ([[[true; false]; [false; false]]],
                 mkDataFile [[1; 2]; [3; 4]]%Z 0 [MBool false])).1 = Some m' ∧
        row_lengths m' = [2; 2] ∧
        ∀ i j, mask_cell [[true; false]; [false; false]] i j = Some true →
               mask_cell m' i j = Some true.
Proof.
  apply (set_mask_cumulative_only_adds
           (Func1 (fun r => VBool (bool_decide (r = [3; 4]%Z)))) false 0
           ([[[true; false]; [false; false]]],
            mkDataFile [[1; 2]; [3; 4]]%Z 0 [MBool false])
           [[true; false]; [false; false]]).
  reflexivity.
Defined.

Lemma set_mask_rows_by_test (g : list Z → bool) invert col rows mrows :
  length rows = length mrows →
  set_mask_rows (Func1 (fun r => VBool (g r))) invert false col rows mrows
    = (zip_with (fun r mrow => replicate (length mrow) (xorb (g r) invert)) rows mrows,
       None).
Proof.
  revert mrows. induction rows as [|r rows IH]; intros [|mrow mrows] Hlen;
    simpl in *; try done.
  rewrite IH by lia. f_equal. f_equal.
  destruct (xorb (g r) invert); simpl; by apply const_fmap.
Qed.

(** X6: [_set_mask] with a test that answers one boolean per row, in
    its default non-cumulative mode, overwrites the mask: afterwards
    every cell of a row is masked exactly when the test, exclusive-or
    [invert], holds of the row, whatever was masked before. *)
Theorem set_mask_by_test (g : list Z → bool) invert col w m :
  mask w = Some m →
  length (data w.2) = length m →
  _set_mask (Func1 (fun r => VBool (g r))) invert false col w
    = (write_mask
         (zip_with (fun r mrow => replicate (length mrow) (xorb (g r) invert))
            (data w.2) m) w, None).
Proof.
  intros Hm Hlen. unfold _set_mask. rewrite Hm.
  by rewrite set_mask_rows_by_test.
Qed.

Lemma set_mask_by_test_witness :
  mask (_set_mask (Func1 (fun r => VBool (bool_decide (r = [3; 4]%Z)))) false false 0
          ([[[true; false]; [false; false]]],
           mkDataFile [[1; 2]; [3; 4]]%Z 0 [MBool false])).1
  = Some [[false; false]; [true; true]].
Proof.
  rewrite (set_mask_by_test (fun r => bool_decide (r = [3; 4]%Z)) false 0
             ([[[true; false]; [false; false]]],
              mkDataFile [[1; 2]; [3; 4]]%Z 0 [MBool false])
             [[true; false]; [false; false]]); reflexivity.
Defined.

Lemma filter_rows_spec func rows :
  ∀ i m w,
    mask w = Some m →
    i + length rows ≤ length m →
    filter_rows func i rows w
      = (write_mask
           (take i m
            ++ zip_with (fun r mrow => replicate (length mrow) (negb (func r mrow)))
                 rows (drop i m)
            ++ drop (i + length rows) m) w, None).
Proof.
  induction rows as [|r rows IH]; intros i m w Hm Hlen; simpl in *.
  - rewrite Nat.add_0_r, take_drop. unfold write_mask, mask in *.
    rewrite list_insert_id by done. by destruct w.
  - rewrite Hm.
    destruct (lookup_lt_is_Some_2 m i) as [mrow Hrow]; [lia|].
    rewrite Hrow.
    set (new := (fun _ => negb (func r mrow)) <$> mrow).
    assert (mask_at w.2 < length w.1) as Hlt
      by (unfold mask in Hm; by eapply lookup_lt_Some).
    rewrite (IH (S i) (<[i := new]> m)).
    + unfold write_mask. cbn [fst snd]. rewrite list_insert_insert_eq.
      f_equal. f_equal. f_equal.
      rewrite (drop_S m mrow i Hrow). simpl.
      rewrite take_S_r with (x := new) by (apply list_lookup_insert_eq; lia).
      rewrite take_insert_ge by lia.
      rewrite <- app_assoc. simpl. f_equal. f_equal.
      { unfold new. by apply const_fmap. }
      rewrite drop_insert_lt by lia.
      rewrite drop_insert_lt by lia.
      by replace (i + S (length rows)) with (S i + length rows) by lia.
    + unfold mask, write_mask. cbn [fst snd]. by apply list_lookup_insert_eq.
    + rewrite length_insert. lia.
Qed.

(** X7: [filter(func)] masks a row wholly when the test fails on it
    and unmasks it wholly when the test holds; with [reset], the default,
    the test sees every row unmasked, without it the row as it was masked
    before.  No row keeps a mask of its own apart from the test. *)
Theorem filter_masks_failing_rows func reset w m :
  mask w = Some m →
  length (data w.2) = length m →
  filter func reset w
    = (write_mask
         (zip_with (fun r mrow => replicate (length mrow) (negb (func r mrow)))
            (data w.2) (if reset then fill false m else m)) w, None).
Proof.
  intros Hm Hlen. unfold filter.
  assert (mask_at w.2 < length w.1) as Hlt
    by (unfold mask in Hm; by eapply lookup_lt_Some).
  destruct reset.
  - unfold set_data_mask. rewrite Hm.
    rewrite (filter_rows_spec func _ 0 (fill false m)).
    + unfold write_mask. cbn [fst snd]. rewrite list_insert_insert_eq.
      rewrite drop_0. simpl.
      rewrite drop_ge; [by rewrite app_nil_r|].
      unfold fill. rewrite length_fmap. lia.
    + unfold mask, write_mask. cbn [fst snd]. by apply list_lookup_insert_eq.
    + unfold fill, write_mask. cbn [fst snd]. rewrite length_fmap. lia.
  - rewrite (filter_rows_spec func _ 0 m) by (done || lia).
    rewrite drop_0. simpl. rewrite drop_ge by lia. by rewrite app_nil_r.
Qed.

Lemma filter_masks_failing_rows_witness :
  mask (filter (fun r _ => bool_decide (r = [3; 4]%Z)) true
          ([[[true; false]; [false; false]]],
           mkDataFile [[1; 2]; [3; 4]]%Z 0 [MBool false])).1
  = Some [[true; true]; [false; false]].
Proof.
  rewrite (filter_masks_failing_rows (fun r _ => bool_decide (r = [3; 4]%Z)) true
             ([[[true; false]; [false; false]]],
              mkDataFile [[1; 2]; [3; 4]]%Z 0 [MBool false])
             [[true; false]; [false; false]]); reflexivity.
Defined.

(** A sequence of pushes and pops. *)
Inductive mask_op : Type :=
| Push (new_mask : option mask_arg)
| Pop.

Definition run_op (w : world) (o : mask_op) : world :=
  match o with
  | Push new_mask => (_push_mask new_mask w).1
  | Pop => (_pop_mask w).1
  end.

Lemma push_keeps_sentinel new_mask w sh :
  shaped sh w → sentinel_below w →
  shaped sh (_push_mask new_mask w).1 ∧ sentinel_below (_push_mask new_mask w).1.
Proof.
  intros Hsh [rest Hms]. destruct (push_frame new_mask w sh Hsh) as [Hd Hsh'].
  split; [done|]. unfold sentinel_below. rewrite Hd. simpl. rewrite Hms.
  by exists (rest ++ [MView (mask_at w.2)]).
Qed.

(** X8: the mask stack of an instance is never empty.  Starting from a
    new instance, after any sequence of [_push_mask] and [_pop_mask]
    calls, more pops than pushes and failing calls included, the stack
    still has the sentinel [False] at its bottom. *)
Theorem mask_stack_never_empty rows ops :
  sentinel_below (foldl run_op (fresh rows) ops) ∧
  _masks (foldl run_op (fresh rows) ops).2 ≠ [].
Proof.
  assert (∀ w sh, shaped sh w → sentinel_below w →
                  sentinel_below (foldl run_op w ops)) as Hall.
  { induction ops as [|o ops IH]; intros w sh Hsh Hs; simpl; [done|].
    destruct o as [new_mask|]; simpl.
    - destruct (push_keeps_sentinel new_mask w sh Hsh Hs). by eapply IH.
    - destruct (pop_frame w sh Hsh Hs). by eapply IH. }
  assert (sentinel_below (foldl run_op (fresh rows) ops)) as Hs.
  { apply (Hall _ (row_lengths (fill false ((fun row : list Z => (fun _ => false) <$> row) <$> rows)))).
    - eexists. split; [reflexivity|]. by rewrite fill_lengths.
    - by exists []. }
  split; [done|]. destruct Hs as [rest ->]. done.
Qed.

End MaskRows.

(** ** The image stack: the buffer and what is read back from it *)

Section StackBuffer.
Import Py Stack StackRead.
Context {cell meta : Type}.
Variable zero : cell.
Variable cast : dtype → dtype → cell → cell.
Variable md_lookup : list string → string → option string.
Variable make_name : @ImageStack cell meta → @image cell meta → string.
Abbreviation ImageStack := (@ImageStack cell meta).
Abbreviation image := (@image cell meta).

(** Every page of the buffer has the rows and columns of its shape. *)
Definition page_ok (rows cols : nat) (page : list (list cell)) : Prop :=
  length page = rows ∧ Forall (fun row => length row = cols) page.
Definition buffer_ok (s : ImageStack) : Prop :=
  Forall (page_ok (st_rows s) (st_cols s)) (st_pages s).

(** The data of an image have the rows and columns of its shape. *)
Definition image_ok (value : image) : Prop :=
  page_ok (im_shape value).1 (im_shape value).2 (im_data value).

Lemma cell_of_in page rows cols i j :
  page_ok rows cols page → i < rows → j < cols →
  ∃ row c, page !! i = Some row ∧ row !! j = Some c ∧ cell_of zero page i j = c.
Proof.
  intros [Hlen Hrows] Hi Hj.
  destruct (lookup_lt_is_Some_2 page i) as [row Hrow]; [lia|].
  assert (length row = cols) as Hc.
  { rewrite Forall_forall in Hrows. apply Hrows. by eapply list_elem_of_lookup_2. }
  destruct (lookup_lt_is_Some_2 row j) as [c Hcell]; [lia|].
  exists row, c. unfold cell_of. rewrite Hrow. simpl. by rewrite Hcell.
Qed.

Lemma cell_of_out page rows cols i j :
  page_ok rows cols page → ¬ (i < rows ∧ j < cols) → cell_of zero page i j = zero.
Proof.
  intros [Hlen Hrows] Hout. unfold cell_of.
  destruct (page !! i) as [row|] eqn:Hrow; [|done]. simpl.
  assert (length row = cols) as Hc.
  { rewrite Forall_forall in Hrows. apply Hrows. by eapply list_elem_of_lookup_2. }
  apply lookup_lt_Some in Hrow.
  rewrite lookup_ge_None_2; [done|]. lia.
Qed.

Lemma resize_page_ok rows cols page : page_ok rows cols (resize_page zero rows cols page).
Proof.
  unfold resize_page, page_ok. rewrite length_fmap, length_seq. split; [done|].
  apply Forall_fmap, Forall_forall. intros i _. simpl.
  by rewrite length_fmap, length_seq.
Qed.

Lemma zero_page_ok rows cols : page_ok rows cols (zero_page zero rows cols).
Proof.
  unfold zero_page, page_ok. rewrite length_replicate. split; [done|].
  apply Forall_replicate. by rewrite length_replicate.
Qed.

Lemma resize_page_cell rows cols page i j :
  i < rows → j < cols →
  cell_of zero (resize_page zero rows cols page) i j = cell_of zero page i j.
Proof.
  intros Hi Hj. unfold cell_of at 1, resize_page.
  rewrite list_lookup_fmap, lookup_seq_lt by done. simpl.
  rewrite list_lookup_fmap, lookup_seq_lt by done. done.
Qed.

Lemma zero_page_cell rows cols i j : cell_of zero (zero_page zero rows cols) i j = zero.
Proof.
  unfold cell_of, zero_page.
  destruct (replicate rows (replicate cols zero) !! i) as [row|] eqn:Hrow; [|done].
  apply lookup_replicate in Hrow as [-> _]. simpl.
  destruct (replicate cols zero !! j) as [c|] eqn:Hc; [|done].
  by apply lookup_replicate in Hc as [-> _].
Qed.

Lemma store_cell_same dt c : store_cell cast dt dt c = c.
Proof. unfold store_cell. by rewrite bool_decide_eq_true_2. Qed.

Lemma store_page_same dt (page : list (list cell)) : store_page cast dt dt page = page.
Proof.
  unfold store_page. rewrite <- (list_fmap_id page) at 2.
  apply list_fmap_ext. intros _ row _. simpl.
  rewrite <- (list_fmap_id row) at 2.
  apply list_fmap_ext. intros _ c _. apply store_cell_same.
Qed.

Lemma store_page_ok from to rows cols (page : list (list cell)) :
  page_ok rows cols page → page_ok rows cols (store_page cast from to page).
Proof.
  intros [Hlen Hrows]. unfold page_ok, store_page. rewrite length_fmap.
  split; [done|]. apply Forall_fmap. eapply Forall_impl; [exact Hrows|].
  intros row Hrow. simpl. by rewrite length_fmap.
Qed.

Lemma store_page_cell from to rows cols (page : list (list cell)) i j :
  page_ok rows cols page → i < rows → j < cols →
  cell_of zero (store_page cast from to page) i j
    = store_cell cast from to (cell_of zero page i j).
Proof.
  intros [Hlen Hrows] Hi Hj. unfold cell_of, store_page.
  rewrite list_lookup_fmap.
  destruct (lookup_lt_is_Some_2 page i) as [row Hrow]; [lia|].
  rewrite Hrow. simpl. rewrite list_lookup_fmap.
  assert (length row = cols) as Hc.
  { rewrite Forall_forall in Hrows. apply Hrows. by eapply list_elem_of_lookup_2. }
  destruct (lookup_lt_is_Some_2 row j) as [c Hcell]; [lia|].
  by rewrite Hcell.
Qed.

Lemma resize_stack_buffer_ok new_size dt (s : ImageStack) :
  buffer_ok s → buffer_ok (_resize_stack zero cast new_size dt s).
Proof.
  intros Hok. unfold _resize_stack. case_bool_decide; [done|].
  destruct new_size as [[rows cols] pag]. unfold buffer_ok. simpl.
  apply Forall_resize.
  - apply zero_page_ok.
  - apply Forall_fmap, Forall_forall. intros page _. apply resize_page_ok.
Qed.

(** X9: [_resize_stack] gives the buffer the requested shape.  A cell
    that lies inside both the old and the new shape keeps its value,
    stored in the dtype of the new buffer: copied when the dtype stays,
    converted by numpy when it changes.  The cells that are new are
    zeros.  When the buffer has the requested shape already, nothing is
    changed, the dtype included. *)
Theorem resize_stack_keeps_overlap rows cols pag dt (s : ImageStack) :
  buffer_ok s →
  let s' := _resize_stack zero cast (rows, cols, pag) dt s in
  stack_shape s' = (rows, cols, pag) ∧
  buffer_ok s' ∧
  st_dtype s' = (if bool_decide (stack_shape s = (rows, cols, pag)) then st_dtype s
                 else default (st_dtype s) dt) ∧
  (stack_shape s = (rows, cols, pag) → s' = s) ∧
  ∀ i j p, i < rows → j < cols → p < pag →
    cell3 zero s' i j p =
      if bool_decide (i < st_rows s ∧ j < st_cols s ∧ p < length (st_pages s))
      then store_cell cast (st_dtype s) (st_dtype s') (cell3 zero s i j p) else zero.
Proof.
  intros Hok s'. unfold s', _resize_stack.
  case_bool_decide as Hshape.
  - split; [done|]. split; [done|]. split; [done|]. split; [done|].
    intros i j p Hi Hj Hp.
    unfold stack_shape in Hshape. injection Hshape as Hr Hc Hn.
    rewrite bool_decide_eq_true_2 by lia. by rewrite store_cell_same.
  - split; [unfold stack_shape; simpl; by rewrite length_resize|]. split.
    { unfold buffer_ok. simpl. apply Forall_resize.
      - apply zero_page_ok.
      - apply Forall_fmap, Forall_forall. intros page _. apply resize_page_ok. }
    split; [done|]. split; [done|].
    intros i j p Hi Hj Hp. unfold cell3 at 1. simpl.
    destruct (decide (p < length (st_pages s))) as [Hin|Hout].
    + rewrite lookup_resize by (rewrite ?length_fmap; lia).
      rewrite list_lookup_fmap.
      destruct (lookup_lt_is_Some_2 (st_pages s) p Hin) as [page Hpage].
      rewrite Hpage. simpl. rewrite resize_page_cell by done.
      unfold cell3. rewrite Hpage. simpl.
      assert (page_ok (st_rows s) (st_cols s) page) as Hpok.
      { unfold buffer_ok in Hok. rewrite Forall_forall in Hok.
        apply Hok. by eapply list_elem_of_lookup_2. }
      case_bool_decide as Hc.
      * destruct Hc as (Hir & Hjc & _).
        by apply (store_page_cell _ _ (st_rows s) (st_cols s)).
      * eapply cell_of_out; [by apply store_page_ok|]. lia.
    + rewrite lookup_resize_new by (rewrite ?length_fmap; lia). simpl.
      rewrite zero_page_cell. rewrite bool_decide_eq_false_2; [done|lia].
Qed.

End StackBuffer.

Section StackRoundTrip.
Import Py Stack StackRead.
Context {cell meta : Type}.
Variable zero : cell.
Variable cast : dtype → dtype → cell → cell.
Variable md_lookup : list string → string → option string.
Variable make_name : @ImageStack cell meta → @image cell meta → string.
Abbreviation ImageStack := (@ImageStack cell meta).
Abbreviation image := (@image cell meta).

Ltac run_op :=
  cbv beta iota delta
    [mbind mret op_mbind op_mret op_bind op_ret get modify raise lift].

Lemma norm_index_nat len k : k < len → norm_index len (Z.of_nat k) = Some k.
Proof.
  intros Hk. unfold norm_index. rewrite bool_decide_eq_true_2 by lia.
  by rewrite Nat2Z.id.
Qed.

Lemma item_nat {A} what (l : list A) k x :
  l !! k = Some x → item what l (Z.of_nat k) = Ret x.
Proof.
  intros Hx. unfold item. rewrite norm_index_nat by (by eapply lookup_lt_Some).
  simpl. by rewrite Hx.
Qed.

Lemma list_insert_at_end {A} (x : A) l : list_insert_at (length l) x l = l ++ [x].
Proof. unfold list_insert_at. by rewrite take_ge, drop_ge by lia. Qed.

Lemma dict_set_fresh name (md : meta) d :
  name ∉ d.*1 → dict_set name md d = d ++ [(name, md)].
Proof.
  induction d as [|[k v] d IH]; simpl; [done|].
  intros Hnot. apply not_elem_of_cons in Hnot as [Hne Hnot].
  rewrite bool_decide_eq_false_2 by done. by rewrite IH.
Qed.

Lemma dict_get_last name (md : meta) d :
  name ∉ d.*1 → dict_get name (d ++ [(name, md)]) = Ret md.
Proof.
  intros Hnot. unfold dict_get.
  destruct (list_find (fun kv => kv.1 = name) (d ++ [(name, md)]))
    as [[i [k v]]|] eqn:Hfind.
  - apply list_find_Some in Hfind as (Hi & Hk & _). simpl in Hk. subst k.
    apply lookup_app_Some in Hi as [Hi|[_ Hi]].
    + exfalso. apply Hnot. apply list_elem_of_fmap. exists (name, v).
      split; [done|]. by eapply list_elem_of_lookup_2.
    + apply list_lookup_singleton_Some in Hi as [_ [= ->]]. done.
  - apply list_find_None in Hfind. rewrite Forall_app in Hfind.
    destruct Hfind as [_ Hlast]. rewrite Forall_singleton in Hlast. by exfalso; apply Hlast.
Qed.

Lemma lookup_fresh name (s : ImageStack) :
  name ∉ names s → md_lookup (names s) name = None →
  __lookup__ md_lookup (KeyStr name) s = (s, Raise (KeyError name)).
Proof.
  intros Hnot Hmd. unfold __lookup__. run_op.
  rewrite bool_decide_eq_false_2 by done. by rewrite Hmd.
Qed.

Lemma resize_stack_shape new_size dt (s : ImageStack) :
  stack_shape (_resize_stack zero cast new_size dt s) = new_size.
Proof.
  unfold _resize_stack. case_bool_decide as Hshape; [done|].
  destruct new_size as [[rows cols] pag]. unfold stack_shape. simpl.
  by rewrite length_resize.
Qed.

Lemma resize_stack_metadata new_size dt (s : ImageStack) :
  _metadata (_resize_stack zero cast new_size dt s) = _metadata s.
Proof.
  unfold _resize_stack. case_bool_decide; [done|].
  by destruct new_size as [[rows cols] pag].
Qed.

Lemma max_size_covers (s : ImageStack) shape :
  shape ∈ _sizes s → shape.1 ≤ (max_size s).1 ∧ shape.2 ≤ (max_size s).2.
Proof.
  intros Hin. unfold max_size.
  destruct (_sizes s) as [|sz rest] eqn:Hs; [by apply elem_of_nil in Hin|].
  rewrite <- Hs in *. simpl. split; apply max_list_elem_of_le, list_elem_of_fmap;
    by exists shape.
Qed.

Lemma slice_written r c rows cols (data : list (list cell)) :
  page_ok r c data → r ≤ rows → c ≤ cols →
  slice_page r c (write_page r c data (zero_page zero rows cols)) = data.
Proof.
  intros [Hlen Hrows] Hr Hc. unfold slice_page, write_page, zero_page.
  apply list_eq. intros i.
  rewrite list_lookup_fmap.
  destruct (decide (i < r)) as [Hi|Hi].
  - rewrite lookup_take_lt by done. rewrite list_lookup_imap.
    rewrite lookup_replicate_2 by lia. simpl.
    destruct (lookup_lt_is_Some_2 data i) as [row Hrow]; [lia|].
    rewrite Hrow. f_equal.
    assert (length row = c) as Hrc.
    { rewrite Forall_forall in Hrows. apply Hrows. by eapply list_elem_of_lookup_2. }
    apply list_eq. intros j.
    destruct (decide (j < c)) as [Hj|Hj].
    + rewrite lookup_take_lt by done. rewrite list_lookup_imap.
      rewrite lookup_replicate_2 by lia. simpl.
      rewrite bool_decide_eq_true_2 by done.
      destruct (lookup_lt_is_Some_2 row j) as [x Hx]; [lia|].
      by rewrite Hx.
    + rewrite lookup_take_ge by lia. symmetry. apply lookup_ge_None_2. lia.
  - rewrite lookup_take_ge by lia. simpl. symmetry. apply lookup_ge_None_2. lia.
Qed.

Lemma resize_stack_page new_size (s : ImageStack) k page :
  st_pages s !! k = Some page → k < new_size.2 →
  let s' := _resize_stack zero cast new_size None s in
  st_pages s' !! k = Some page ∨
  st_pages s' !! k = Some (resize_page zero (st_rows s') (st_cols s') page).
Proof.
  intros Hpage Hk s'. unfold s', _resize_stack.
  case_bool_decide as Heq; [by left|].
  destruct new_size as [[rows cols] pag]. right. simpl in *.
  apply lookup_lt_Some in Hpage as Hlt.
  rewrite lookup_resize by (rewrite ?length_fmap; lia).
  rewrite list_lookup_fmap, Hpage. simpl. by rewrite (store_page_same cast).
Qed.

Lemma resize_stack_dtype new_size (s : ImageStack) :
  st_dtype (_resize_stack zero cast new_size None s) = st_dtype s.
Proof.
  unfold _resize_stack. case_bool_decide; [done|].
  by destruct new_size as [[rows cols] pag].
Qed.

(** The stack after [__inserter__] has put [value] under [name] behind
    the pages it holds. *)
Definition appended (name : string) (value : image) (s : ImageStack) : ImageStack :=
  let ix := length (names s) in
  let s1 := with_sizes (list_insert_at ix (im_shape value))
              (with_metadata (dict_set name (im_metadata value))
                 (with_names (list_insert_at ix name) s)) in
  let new_size := (max_size s1, length (_names s1)) in
  let dt := if bool_decide (new_size.2 = 1) then Some (im_dtype value) else None in
  let s2 := _resize_stack zero cast new_size dt s1 in
  let zp := zero_page zero (max_size s2).1 (max_size s2).2 in
  with_pages
    (alter (write_page (im_shape value).1 (im_shape value).2
              (store_page cast (im_dtype value) (st_dtype s2) (im_data value))) ix)
    (with_pages (list_insert_at ix zp) s2).

(** What the proofs below use of that state. *)
Record appended_to (name : string) (value : image) (s s' : ImageStack) : Prop := {
  app_names : names s' = names s ++ [name];
  app_names_list : _names s' = _names s ++ [name];
  app_sizes : _sizes s' = _sizes s ++ [im_shape value];
  app_metadata : _metadata s' = _metadata s ++ [(name, im_metadata value)];
  app_fits : (im_shape value).1 ≤ st_rows s' ∧ (im_shape value).2 ≤ st_cols s';
  app_covers : ∀ rc, rc ∈ _sizes s → rc.1 ≤ st_rows s' ∧ rc.2 ≤ st_cols s';
  app_new_page :
    st_pages s' !! length (names s)
      = Some (write_page (im_shape value).1 (im_shape value).2
                (store_page cast (im_dtype value) (st_dtype s') (im_data value))
                (zero_page zero (st_rows s') (st_cols s')));
  app_old_pages :
    ∀ k page, k < length (names s) → st_pages s !! k = Some page →
      st_pages s' !! k = Some page ∨
      st_pages s' !! k = Some (resize_page zero (st_rows s') (st_cols s') page);
  app_dtype : 0 < length (names s) → st_dtype s' = st_dtype s
}.

Lemma setter_appends name (value : image) (s : ImageStack) :
  name ∉ names s →
  md_lookup (names s) name = None →
  length (_names s) = length (names s) →
  length (_sizes s) = length (names s) →
  __setter__ zero cast md_lookup make_name (Some (KeyStr name)) value false s
    = (appended name value s, Ret ()) ∧
  appended_to name value s (appended name value s).
Proof.
  intros Hnot Hmd Hn Hs. unfold appended.
  set (ix := length (names s)) in *.
  set (s1 := with_sizes (list_insert_at ix (im_shape value))
               (with_metadata (dict_set name (im_metadata value))
                  (with_names (list_insert_at ix name) s))).
  set (dt := if bool_decide ((max_size s1, length (_names s1)).2 = 1)
             then Some (im_dtype value) else None).
  set (s2 := _resize_stack zero cast (max_size s1, length (_names s1)) dt s1).
  set (zp := zero_page zero (max_size s2).1 (max_size s2).2).
  set (s3 := with_pages (list_insert_at ix zp) s2).
  set (s4 := with_pages
               (alter (write_page (im_shape value).1 (im_shape value).2
                         (store_page cast (im_dtype value) (st_dtype s2) (im_data value)))
                  ix)
               s3).
  assert (_names s1 = _names s ++ [name]) as Hn1.
  { unfold s1. simpl. rewrite <- Hn. apply list_insert_at_end. }
  assert (_sizes s1 = _sizes s ++ [im_shape value]) as Hs1.
  { unfold s1. simpl. rewrite <- Hs. apply list_insert_at_end. }
  assert (_metadata s1 = _metadata s ++ [(name, im_metadata value)]) as Hm1.
  { unfold s1. simpl. by apply dict_set_fresh. }
  pose proof (resize_stack_shape (max_size s1, length (_names s1)) dt s1) as Hshape.
  fold s2 in Hshape. unfold stack_shape in Hshape. injection Hshape as Hrc Hp2.
  assert (st_rows s2 = (max_size s1).1 ∧ st_cols s2 = (max_size s1).2) as [Hr2 Hc2]
    by (by rewrite <- Hrc).
  destruct (resize_stack_lists zero cast (max_size s1, length (_names s1)) dt s1)
    as [Hn2 Hs2].
  fold s2 in Hn2, Hs2.
  pose proof (resize_stack_metadata (max_size s1, length (_names s1)) dt s1) as Hm2.
  fold s2 in Hm2.
  assert (max_size s2 = max_size s1) as Hmax by (unfold max_size; by rewrite Hs2).
  assert (∀ rc, rc ∈ _sizes s1 → rc.1 ≤ st_rows s2 ∧ rc.2 ≤ st_cols s2) as Hcover.
  { intros rc Hin. rewrite Hr2, Hc2. by apply max_size_covers. }
  assert (length (st_pages s2) = S ix) as Hpag.
  { rewrite Hp2. change (length (_names s1) = S ix).
    rewrite Hn1, length_app. simpl. lia. }
  assert (st_pages s3 !! ix = Some zp) as Hzp.
  { unfold s3, list_insert_at. simpl.
    rewrite lookup_app_r by (rewrite length_take; lia).
    rewrite length_take. replace (ix - ix `min` length (st_pages s2)) with 0 by lia.
    done. }
  assert ((im_shape value).1 ≤ st_rows s2 ∧ (im_shape value).2 ≤ st_cols s2) as Hfit.
  { apply Hcover. rewrite Hs1. apply elem_of_app. right. by left. }
  split.
  - unfold __setter__. run_op. rewrite lookup_fresh by done.
    cbv beta iota. unfold __inserter__, len. run_op. fold ix.
    rewrite (bool_decide_eq_true_2 (ix ≤ length (_sizes _))) by (simpl; lia).
    cbv beta iota. fold s1. fold dt. fold s2.
    rewrite (bool_decide_eq_true_2 (ix ≤ length (st_pages s2))) by lia.
    cbv beta iota. fold zp. fold s3.
    unfold assign_page. run_op.
    rewrite norm_index_nat by (by eapply lookup_lt_Some).
    rewrite bool_decide_eq_true_2; [done|].
    unfold s3. simpl. done.
  - split.
    + unfold names, s4, s3. simpl. rewrite Hm2, Hm1. by rewrite fmap_app.
    + unfold s4, s3. simpl. by rewrite Hn2.
    + unfold s4, s3. simpl. by rewrite Hs2.
    + unfold s4, s3. simpl. by rewrite Hm2.
    + done.
    + intros rc Hin. apply Hcover. rewrite Hs1. apply elem_of_app. by left.
    + unfold s4. cbn [st_pages with_pages]. fold ix.
      rewrite list_lookup_alter_eq, Hzp. simpl. unfold zp.
      rewrite Hmax. unfold s3. simpl. by rewrite Hr2, Hc2.
    + intros k page Hk Hpage. fold ix in Hk.
      unfold s4. cbn [st_pages with_pages].
      rewrite list_lookup_alter_ne by lia.
      unfold s3, list_insert_at. cbn [st_pages with_pages].
      rewrite lookup_app_l by (rewrite length_take; lia).
      rewrite lookup_take_lt by lia.
      change (st_rows (with_pages _ (with_pages _ s2))) with (st_rows s2).
      change (st_cols (with_pages _ (with_pages _ s2))) with (st_cols s2).
      assert (dt = None) as Hdt.
      { unfold dt. rewrite bool_decide_eq_false_2; [done|].
        change (length (_names s1) ≠ 1). rewrite Hn1, length_app. simpl. lia. }
      unfold s2. rewrite Hdt.
      apply (resize_stack_page (max_size s1, length (_names s1)) s1 k page Hpage).
      change (k < length (_names s1)). rewrite Hn1, length_app. simpl. lia.
    + intros Hpos. change (st_dtype s2 = st_dtype s).
      assert (dt = None) as Hdt.
      { unfold dt. rewrite bool_decide_eq_false_2; [done|].
        change (length (_names s1) ≠ 1). rewrite Hn1, length_app. simpl.
        fold ix in Hpos. lia. }
      unfold s2. rewrite Hdt, resize_stack_dtype. done.
Qed.

Lemma dict_get_app_l name (d rest : list (string * meta)) :
  name ∈ d.*1 → dict_get name (d ++ rest) = dict_get name d.
Proof.
  intros Hin. unfold dict_get.
  apply list_elem_of_fmap in Hin as ([k v] & Hk & Hin). simpl in Hk. subst name.
  destruct (list_find_elem_of (fun kv : string * meta => kv.1 = k) d (k, v) Hin eq_refl)
    as [[i kv] Hfind].
  by rewrite (list_find_app_l _ d rest i kv Hfind), Hfind.
Qed.

Lemma slice_resized r c rows cols rows' cols' (page : list (list cell)) :
  page_ok rows cols page → r ≤ rows → c ≤ cols → r ≤ rows' → c ≤ cols' →
  slice_page r c (resize_page zero rows' cols' page) = slice_page r c page.
Proof.
  intros Hok Hr Hc Hr' Hc'. pose proof Hok as [Hlen Hrows].
  unfold slice_page, resize_page.
  apply list_eq. intros i. rewrite !list_lookup_fmap.
  destruct (decide (i < r)) as [Hi|Hi].
  - rewrite !lookup_take_lt by done.
    rewrite list_lookup_fmap, lookup_seq_lt by lia. simpl.
    destruct (lookup_lt_is_Some_2 page i) as [row Hrow]; [lia|].
    rewrite Hrow. simpl. f_equal.
    assert (length row = cols) as Hrc.
    { rewrite Forall_forall in Hrows. apply Hrows. by eapply list_elem_of_lookup_2. }
    apply list_eq. intros j.
    destruct (decide (j < c)) as [Hj|Hj].
    + rewrite !lookup_take_lt by done.
      rewrite list_lookup_fmap, lookup_seq_lt by lia. simpl.
      destruct (lookup_lt_is_Some_2 row j) as [x Hx]; [lia|].
      unfold cell_of. rewrite Hrow. simpl. by rewrite Hx.
    + by rewrite !lookup_take_ge by lia.
  - by rewrite !lookup_take_ge by lia.
Qed.

(** X10: an image stored under a name that the stack does not know is
    appended and can be read back.  The call succeeds; the new name, its
    metadata and its size take the last place of their lists, which stay
    of equal length; and [_instantiate] at that place returns an image
    with the shape and the metadata of the one stored and with its cells
    as the buffer holds them: stored in the dtype of the buffer, that is
    converted by numpy when the dtypes differ and unchanged when the
    buffer has the dtype of the image. *)
Theorem appended_image_reads_back name (value : image) (s : ImageStack) :
  name ∉ names s →
  md_lookup (names s) name = None →
  length (_names s) = length (names s) →
  length (_sizes s) = length (names s) →
  image_ok value →
  let after := __setter__ zero cast md_lookup make_name (Some (KeyStr name)) value false s in
  after.2 = Ret () ∧
  names after.1 = names s ++ [name] ∧
  _names after.1 = _names s ++ [name] ∧
  _sizes after.1 = _sizes s ++ [im_shape value] ∧
  _instantiate after.1 (Z.of_nat (length (names s)))
    = Ret (mkImage (im_shape value)
             (store_page cast (im_dtype value) (st_dtype after.1) (im_data value))
             (im_metadata value) (st_dtype after.1)) ∧
  (st_dtype after.1 = im_dtype value →
   _instantiate after.1 (Z.of_nat (length (names s)))
     = Ret (mkImage (im_shape value) (im_data value) (im_metadata value)
              (im_dtype value))).
Proof.
  intros Hnot Hmd Hn Hs Hok after.
  destruct (setter_appends name value s Hnot Hmd Hn Hs) as [Hrun Happ].
  unfold after. rewrite Hrun. cbn [fst snd].
  set (s' := appended name value s) in *.
  destruct Happ as [Hnames Hnl Hsz Hmeta [Hfit1 Hfit2] _ Hpage _ _].
  split; [done|]. split; [done|]. split; [done|]. split; [done|].
  match goal with |- ?A ∧ _ => assert A as Hread end;
    [|split; [exact Hread|];
      intros Hdt; rewrite Hread, Hdt; by rewrite (store_page_same cast)].
  unfold _instantiate.
  rewrite (item_nat _ (_sizes s') (length (names s)) (im_shape value)).
  2:{ rewrite Hsz, lookup_app_r by lia.
      by replace (length (names s) - length (_sizes s)) with 0 by lia. }
  cbn [mbind res_bind bind].
  rewrite (item_nat _ _ _ _ Hpage).
  cbn [mbind res_bind bind].
  rewrite (item_nat _ (names s') (length (names s)) name).
  2:{ rewrite Hnames, lookup_app_r by lia. by rewrite Nat.sub_diag. }
  cbn [mbind res_bind bind].
  rewrite Hmeta, dict_get_last by done.
  cbn [mbind res_bind bind]. f_equal.
  rewrite slice_written by (try done; by apply (store_page_ok cast)).
  rewrite !Nat.min_l by done. by destruct (im_shape value).
Qed.

(** X12: appending an image leaves the images already stored as they
    were.  When the buffer is well formed and a stored image fits in it,
    [_instantiate] returns for its position the same image after the
    append as before, although the buffer may have been rebuilt with a
    larger shape. *)
Theorem append_keeps_stored_images name (value : image) (s : ImageStack) k :
  name ∉ names s →
  md_lookup (names s) name = None →
  length (_names s) = length (names s) →
  length (_sizes s) = length (names s) →
  length (names s) ≤ length (st_pages s) →
  buffer_ok s →
  k < length (names s) →
  (∀ rc, _sizes s !! k = Some rc → rc.1 ≤ st_rows s ∧ rc.2 ≤ st_cols s) →
  let after := __setter__ zero cast md_lookup make_name (Some (KeyStr name)) value false s in
  _instantiate after.1 (Z.of_nat k) = _instantiate s (Z.of_nat k).
Proof.
  intros Hnot Hmd Hn Hs Hp Hbuf Hk Hfits after.
  destruct (setter_appends name value s Hnot Hmd Hn Hs) as [Hrun Happ].
  unfold after. rewrite Hrun. cbn [fst snd].
  set (s' := appended name value s) in *.
  destruct Happ as [Hnames Hnl Hsz Hmeta _ Hcover _ Hold Hdt].
  destruct (lookup_lt_is_Some_2 (_sizes s) k) as [rc Hrc]; [lia|].
  destruct (lookup_lt_is_Some_2 (st_pages s) k) as [page Hpage]; [lia|].
  destruct (lookup_lt_is_Some_2 (names s) k) as [nm Hnm]; [lia|].
  destruct (Hfits rc Hrc) as [Hfr Hfc].
  destruct (Hcover rc) as [Hcr Hcc]; [by eapply list_elem_of_lookup_2|].
  assert (page_ok (st_rows s) (st_cols s) page) as Hpok.
  { unfold buffer_ok in Hbuf. rewrite Forall_forall in Hbuf.
    apply Hbuf. by eapply list_elem_of_lookup_2. }
  assert (∃ page', st_pages s' !! k = Some page' ∧
                   slice_page rc.1 rc.2 page' = slice_page rc.1 rc.2 page)
    as (page' & Hpage' & Hslice).
  { destruct (Hold k page Hk Hpage) as [Hsame|Hres]; [by exists page|].
    eexists. split; [exact Hres|].
    by apply (slice_resized _ _ (st_rows s) (st_cols s)). }
  unfold _instantiate.
  rewrite (item_nat _ (_sizes s') k rc) by (rewrite Hsz; by apply lookup_app_l_Some).
  rewrite (item_nat _ (_sizes s) k rc) by done.
  rewrite (item_nat _ (st_pages s) k page) by done.
  rewrite (item_nat _ (st_pages s') k page') by done.
  rewrite (item_nat _ (names s') k nm) by (rewrite Hnames; by apply lookup_app_l_Some).
  rewrite (item_nat _ (names s) k nm) by done.
  cbn [mbind res_bind bind].
  rewrite Hmeta, dict_get_app_l by (by eapply list_elem_of_lookup_2).
  rewrite Hdt by lia. rewrite !Nat.min_l by done.
  by rewrite Hslice.
Qed.

End StackRoundTrip.

Section StackDelete.
Import Py Stack StackRead.
Context {cell meta : Type}.
Variable md_lookup : list string → string → option string.
Abbreviation ImageStack := (@ImageStack cell meta).

Ltac run_op :=
  cbv beta iota delta
    [mbind mret op_mbind op_mret op_bind op_ret get modify raise lift].

Lemma dict_del_position name (d : list (string * meta)) i :
  NoDup d.*1 → d.*1 !! i = Some name → dict_del name d = delete i d.
Proof.
  unfold dict_del. revert i. induction d as [|[k v] d IH]; intros i Hnd Hi; [done|].
  simpl in Hnd. apply NoDup_cons in Hnd as [Hk Hnd].
  rewrite filter_cons. destruct i as [|i]; simpl in *.
  - injection Hi as ->. rewrite decide_False by (intros H; by apply H).
    clear IH. induction d as [|[k' v'] d IH]; [done|].
    simpl in Hk. apply not_elem_of_cons in Hk as [Hne Hk].
    apply NoDup_cons in Hnd as [_ Hnd].
    rewrite filter_cons, decide_True by (simpl; congruence).
    by rewrite IH.
  - assert (k ≠ name) as Hne.
    { intros ->. apply Hk. by eapply list_elem_of_lookup_2. }
    rewrite decide_True by done. by rewrite (IH i).
Qed.

Lemma norm_index_longer len len' idx k :
  norm_index len idx = Some k → len ≤ len' →
  ∃ k', norm_index len' idx = Some k' ∧
        ((0 ≤ idx)%Z → k' = k) ∧ ((idx < 0)%Z → k' = k + (len' - len)) ∧
        k < len ∧ k' < len'.
Proof.
  unfold norm_index. intros Hk Hle.
  repeat case_bool_decide; simplify_eq; try lia; eexists; (split; [done|]); lia.
Qed.

(** X11: deleting a page by an integer position that names an image,
    counted from the front or, when negative, from the end, removes the
    name, the metadata and the recorded size at that position and one
    page of the buffer, and nothing else.  For a position that is not
    negative the page removed is the page of the image, so that the four
    lists lose the same entry.  For a negative position the page is
    counted from the end of the buffer: it is the page of the image only
    when the buffer has as many pages as there are names, and lies as
    many pages further on as the buffer has pages to spare. *)
Theorem deleter_by_position idx k (s : ImageStack) :
  NoDup (names s) →
  norm_index (length (names s)) idx = Some k →
  length (_names s) = length (names s) →
  length (_sizes s) = length (names s) →
  length (names s) ≤ length (st_pages s) →
  let after := __deleter__ md_lookup (KeyInt idx) s in
  ∃ kp, norm_index (length (st_pages s)) idx = Some kp ∧
        ((0 ≤ idx)%Z → kp = k) ∧
        ((idx < 0)%Z → kp = k + (length (st_pages s) - length (names s))) ∧
        after.2 = Ret () ∧
        names after.1 = delete k (names s) ∧
        _names after.1 = delete k (_names s) ∧
        _sizes after.1 = delete k (_sizes s) ∧
        st_pages after.1 = delete kp (st_pages s) ∧
        st_rows after.1 = st_rows s ∧ st_cols after.1 = st_cols s.
Proof.
  intros Hnd Hk Hn Hs Hp after.
  destruct (norm_index_longer _ _ idx k Hk Hp) as (kp & Hkp & Hpos & Hneg & Hlt & _).
  exists kp. split; [done|]. split; [done|]. split; [done|].
  destruct (lookup_lt_is_Some_2 (names s) k Hlt) as [name Hname].
  assert (after =
            (with_sizes (fun _ => delete k (_sizes s))
               (with_names (fun _ => delete k (_names s))
                  (with_pages (fun _ => delete kp (st_pages s))
                     (with_metadata (dict_del name) s))), Ret ())) as Hrun.
  { unfold after, __deleter__, __lookup__, delete_at. run_op.
    rewrite Hkp. cbv beta iota. rewrite Hk. cbn [mbind option_bind].
    rewrite Hname. cbv beta iota. rewrite Hkp. cbv beta iota.
    rewrite Hn, Hk. cbv beta iota. by rewrite Hs, Hk. }
  rewrite Hrun. cbn [fst snd]. split; [done|]. split; [|done].
  unfold names. simpl.
  rewrite (dict_del_position name _ k) by done.
  apply list_fmap_delete.
Qed.

End StackDelete.

Section StackSamples.
Import Py Stack StackRead.

(** A stack that holds the one image [small_image] under the name [a]. *)
Definition one_image : @ImageStack Z unit :=
  (__setter__ 0%Z (fun _ _ c => c) exact_only untitled (Some (KeyStr "a")) small_image false
     empty_stack).1.

Definition dot_image : @image Z unit := mkImage (1, 1) [[9]]%Z () float64.

Lemma one_image_buffer_ok : buffer_ok one_image.
Proof.
  unfold buffer_ok, page_ok. vm_compute.
  repeat (apply List.Forall_cons || apply List.Forall_nil || split || reflexivity).
Qed.

Lemma resize_stack_keeps_overlap_witness :
  let s' := _resize_stack 0%Z (fun _ _ c => c) (3, 2, 1) None one_image in
  stack_shape s' = (3, 2, 1) ∧
  buffer_ok s' ∧
  st_dtype s' = (if bool_decide (stack_shape one_image = (3, 2, 1))
                 then st_dtype one_image
                 else default (st_dtype one_image) None) ∧
  (stack_shape one_image = (3, 2, 1) → s' = one_image) ∧
  ∀ i j p, i < 3 → j < 2 → p < 1 →
    cell3 0%Z s' i j p =
      if bool_decide (i < st_rows one_image ∧ j < st_cols one_image
                      ∧ p < length (st_pages one_image))
      then store_cell (fun _ _ c => c) (st_dtype one_image) (st_dtype s')
             (cell3 0%Z one_image i j p)
      else 0%Z.
Proof.
  apply (resize_stack_keeps_overlap 0%Z (fun _ _ c => c) 3 2 1 None one_image).
  unfold buffer_ok, page_ok. vm_compute.
  repeat (apply List.Forall_cons || apply List.Forall_nil || split || reflexivity).
Defined.

Lemma appended_image_reads_back_witness :
  let after := __setter__ 0%Z (fun _ _ c => c) exact_only untitled (Some (KeyStr "b")) dot_image false
                 one_image in
  after.2 = Ret () ∧
  names after.1 = names one_image ++ ["b"] ∧
  _names after.1 = _names one_image ++ ["b"] ∧
  _sizes after.1 = _sizes one_image ++ [im_shape dot_image] ∧
  _instantiate after.1 (Z.of_nat (length (names one_image)))
    = Ret (mkImage (im_shape dot_image)
             (store_page (fun _ _ c => c) (im_dtype dot_image) (st_dtype after.1)
                (im_data dot_image))
             (im_metadata dot_image) (st_dtype after.1)) ∧
  (st_dtype after.1 = im_dtype dot_image →
   _instantiate after.1 (Z.of_nat (length (names one_image)))
     = Ret (mkImage (im_shape dot_image) (im_data dot_image) (im_metadata dot_image)
              (im_dtype dot_image))).
Proof.
  apply (appended_image_reads_back 0%Z (fun _ _ c => c) exact_only untitled "b" dot_image one_image).
  - vm_compute. intros Hin. apply list_elem_of_singleton in Hin. discriminate Hin.
  - reflexivity.
  - reflexivity.
  - reflexivity.
  - unfold image_ok, page_ok. vm_compute.
    repeat (apply List.Forall_cons || apply List.Forall_nil || split || reflexivity).
Defined.

Lemma append_keeps_stored_images_witness :
  let after := __setter__ 0%Z (fun _ _ c => c) exact_only untitled (Some (KeyStr "b")) dot_image false
                 one_image in
  _instantiate after.1 (Z.of_nat 0) = _instantiate one_image (Z.of_nat 0).
Proof.
  apply (append_keeps_stored_images 0%Z (fun _ _ c => c) exact_only untitled "b" dot_image one_image 0).
  - vm_compute. intros Hin. apply list_elem_of_singleton in Hin. discriminate Hin.
  - reflexivity.
  - reflexivity.
  - reflexivity.
  - vm_compute. lia.
  - exact one_image_buffer_ok.
  - vm_compute. lia.
  - intros rc. vm_compute. intros [= <-]. simpl. lia.
Defined.

Lemma deleter_by_position_witness :
  let after := __deleter__ exact_only (KeyInt (-1)) one_image in
  ∃ kp, norm_index (length (st_pages one_image)) (-1) = Some kp ∧
        ((0 ≤ -1)%Z → kp = 0) ∧
        ((-1 < 0)%Z → kp = 0 + (length (st_pages one_image) - length (names one_image))) ∧
        after.2 = Ret () ∧
        names after.1 = delete 0 (names one_image) ∧
        _names after.1 = delete 0 (_names one_image) ∧
        _sizes after.1 = delete 0 (_sizes one_image) ∧
        st_pages after.1 = delete kp (st_pages one_image) ∧
        st_rows after.1 = st_rows one_image ∧ st_cols after.1 = st_cols one_image.
Proof.
  apply (deleter_by_position exact_only (-1) 0 one_image).
  - apply (bool_decide_unpack _). vm_compute. exact I.
  - reflexivity.
  - reflexivity.
  - reflexivity.
  - vm_compute. lia.
Defined.

End StackSamples.

(** ** Deleting rows *)

Section RowsDeleted.
Import Py Rows.
Context {other : Type}.
Variable compress_masked : list row → res (list row).
Variable index_by_flags : list row → list bool → res (list row).
Variable delete_matching : list row → other → bool → res (list row).

(** The entries of [l] at the positions where [keep] holds, in their
    order; positions are counted from [k]. *)
Fixpoint rows_where {A} (keep : nat → bool) (k : nat) (l : list A) : list A :=
  match l with
  | [] => []
  | x :: rest =>
      if keep k then x :: rows_where keep (S k) rest else rows_where keep (S k) rest
  end.

Lemma rows_where_app {A} keep k (a b : list A) :
  rows_where keep k (a ++ b) = rows_where keep k a ++ rows_where keep (k + length a) b.
Proof.
  revert k. induction a as [|x a IH]; intros k; simpl.
  - by rewrite Nat.add_0_r.
  - rewrite IH. replace (S k + length a) with (k + S (length a)) by lia.
    by destruct (keep k).
Qed.

Lemma rows_where_ext {A} keep keep' k (a : list A) :
  (∀ i, k ≤ i < k + length a → keep i = keep' i) →
  rows_where keep k a = rows_where keep' k a.
Proof.
  revert k. induction a as [|x a IH]; intros k Hext; simpl; [done|].
  rewrite <- (Hext k) by (simpl; lia).
  rewrite (IH (S k)); [done|]. intros i Hi. apply Hext. simpl. lia.
Qed.

Lemma rows_where_all {A} keep k (a : list A) :
  (∀ i, k ≤ i < k + length a → keep i = true) → rows_where keep k a = a.
Proof.
  revert k. induction a as [|x a IH]; intros k Hall; simpl; [done|].
  rewrite Hall by (simpl; lia). rewrite (IH (S k)); [done|].
  intros i Hi. apply Hall. simpl. lia.
Qed.

#[local] Instance Z_ge_total : Total Z.ge.
Proof. intros x y. lia. Qed.
#[local] Instance Z_ge_trans : Transitive Z.ge.
Proof. intros x y z. lia. Qed.

Lemma delete_each_sorted (l : list Z) (rows : list row) :
  StronglySorted Z.ge l → NoDup l →
  (∀ c, c ∈ l → (0 ≤ c < Z.of_nat (length rows))%Z) →
  delete_each l rows
    = Ret (rows_where (fun i => bool_decide (Z.of_nat i ∉ l)) 0 rows).
Proof.
  revert rows. induction l as [|c l IH]; intros rows Hsort Hnd Hrange;
    cbn [delete_each].
  - f_equal. symmetry. apply rows_where_all. intros i _.
    apply bool_decide_eq_true_2, not_elem_of_nil.
  - apply StronglySorted_inv in Hsort as [Hsort Hhd].
    apply NoDup_cons in Hnd as [Hc Hnd].
    assert (∀ x, x ∈ l → (0 ≤ x < c)%Z) as Hbelow.
    { intros x Hx. rewrite Forall_forall in Hhd. specialize (Hhd x Hx).
      specialize (Hrange x ltac:(by right)).
      assert (x ≠ c) by (intros ->; done). lia. }
    specialize (Hrange c ltac:(by left)) as Hcr.
    unfold delete_row, Stack.norm_index.
    rewrite bool_decide_eq_true_2 by lia. cbn [mbind res_bind bind].
    set (k := Z.to_nat c).
    assert (k < length rows) as Hk by lia.
    rewrite IH; [|done|done|].
    2:{ intros x Hx. specialize (Hbelow x Hx). rewrite length_delete by (by apply lookup_lt_is_Some_2). lia. }
    f_equal.
    destruct (lookup_lt_is_Some_2 rows k Hk) as [x Hx].
    rewrite delete_take_drop.
    rewrite <- (take_drop_middle rows k x Hx) at 3.
    rewrite !rows_where_app. rewrite length_take, Nat.min_l by lia. simpl.
    rewrite (bool_decide_eq_false_2 (Z.of_nat k ∉ c :: l)).
    2:{ intros Hn. apply Hn. replace (Z.of_nat k) with c by lia. by left. }
    f_equal.
    + apply rows_where_ext. intros i Hi. rewrite length_take in Hi.
      apply bool_decide_ext. rewrite not_elem_of_cons. split; [|tauto].
      intros Hn. split; [lia|done].
    + rewrite !rows_where_all; [done|..]; intros i Hi;
        apply bool_decide_eq_true_2; intros Hin.
      * apply elem_of_cons in Hin as [Heq|Hin]; [lia|].
        specialize (Hbelow _ Hin). lia.
      * specialize (Hbelow _ Hin). lia.
Qed.

(** X14: [del_rows] with a list of distinct row numbers, each of them
    a row of the matrix counted from 0, deletes exactly those rows: the
    rows that stay are those whose number is not in the list, in their
    order, whatever the order of the list. *)
Theorem del_rows_indices rows first rest :
  NoDup (first :: rest) →
  (∀ c, c ∈ first :: rest → (0 ≤ c < Z.of_nat (length rows))%Z) →
  del_rows compress_masked index_by_flags delete_matching rows (RowIndices first rest) false
    = Ret (rows_where (fun i => bool_decide (Z.of_nat i ∉ first :: rest)) 0 rows).
Proof.
  intros Hnd Hrange. unfold del_rows, sort_reverse.
  set (col := first :: rest) in *.
  pose proof (merge_sort_Permutation Z.ge col) as Hperm.
  rewrite delete_each_sorted.
  - f_equal. apply rows_where_ext. intros i _. apply bool_decide_ext.
    by rewrite Hperm.
  - apply StronglySorted_merge_sort; apply _.
  - by rewrite Hperm.
  - intros c Hc. apply Hrange. by rewrite <- Hperm.
Qed.

Lemma delete_others_spec col n (a b : list row) :
  length a = n →
  delete_others col n (a ++ b)
    = Ret (rows_where (fun i => bool_decide (Z.of_nat i ∈ col)) 0 a ++ b).
Proof.
  revert a b. induction n as [|n IH]; intros a b Hlen; simpl.
  - by destruct a.
  - destruct a as [|x a _] using rev_ind; [done|].
    rewrite length_app in Hlen. simpl in Hlen.
    assert (length a = n) as Ha by lia.
    rewrite rows_where_app. simpl. rewrite Ha.
    case_bool_decide as Hin; cbn [mbind res_bind bind].
    + rewrite <- !app_assoc. rewrite IH by done. done.
    + unfold delete_row, Stack.norm_index.
      rewrite bool_decide_eq_true_2
        by (rewrite !length_app; cbn [length]; lia).
      cbn [mbind res_bind bind]. rewrite Nat2Z.id.
      rewrite <- app_assoc. simpl.
      replace (delete n (a ++ x :: b)) with (a ++ b).
      2:{ rewrite delete_take_drop.
          rewrite take_app_length' by done.
          rewrite drop_app_ge by lia.
          by replace (S n - length a) with 1 by lia. }
      rewrite IH by done. by rewrite app_nil_r.
Qed.

(** X15: [del_rows] with a list of row numbers and [invert] true keeps
    exactly the rows whose number is in the list and deletes all the
    others; it never fails, and a number that names no row, a negative
    one included, keeps nothing. *)
Theorem del_rows_indices_inverted rows first rest :
  del_rows compress_masked index_by_flags delete_matching rows (RowIndices first rest) true
    = Ret (rows_where (fun i => bool_decide (Z.of_nat i ∈ first :: rest)) 0 rows).
Proof.
  unfold del_rows. rewrite <- (app_nil_r rows) at 2.
  rewrite delete_others_spec by done. by rewrite app_nil_r.
Qed.

End RowsDeleted.

Section RowsSamples.
Import Py Rows.

Lemma del_rows_indices_witness :
  del_rows (other := unit) (fun _ => Raise (OtherError "unused"))
    (fun _ _ => Raise (OtherError "unused"))
    (fun _ _ _ => Raise (OtherError "unused"))
    [([1], [false]); ([2], [false]); ([3], [true])]%Z
    (RowIndices 0%Z [2%Z]) false
  = Ret [([2], [false])]%Z.
Proof.
  rewrite (del_rows_indices (fun _ => Raise (OtherError "unused"))
             (fun _ _ => Raise (OtherError "unused"))
             (fun _ _ _ => Raise (OtherError "unused"))
             [([1], [false]); ([2], [false]); ([3], [true])]%Z
             0%Z [2%Z]).
  - reflexivity.
  - apply (bool_decide_unpack _). vm_compute. exact I.
  - intros c Hc. apply elem_of_cons in Hc as [->|Hc]; [simpl; lia|].
    apply list_elem_of_singleton in Hc as ->. simpl. lia.
Defined.

End RowsSamples.

(** ** Deleting the columns without a role *)

Section DelColumnUnset.
Import Py Columns.
Context {selector : Type}.
Variable compress_masked : DataFile → res DataFile.
Variable delete_found : DataFile → selector → res DataFile.

Lemma pick_set_from {A} (flags : list bool) (l : list A) n k :
  k + n = length flags → length l = length flags →
  mapM (M := res)
    (fun ix => match l !! ix with
               | Some x => Ret x
               | None => Raise (IndexError "list index out of range")
               end)
    (filter (fun ix => flags !! ix = Some true) (seq k n))
  = Ret (bool_index (drop k flags) (drop k l)).
Proof.
  revert k. induction n as [|n IH]; intros k Hk Hlen.
  - simpl. rewrite !drop_ge by lia. done.
  - cbn [seq]. rewrite filter_cons.
    destruct (lookup_lt_is_Some_2 flags k) as [b Hb]; [lia|].
    destruct (lookup_lt_is_Some_2 l k) as [x Hx]; [lia|].
    rewrite (drop_S flags b k Hb), (drop_S l x k Hx). simpl.
    specialize (IH (S k) ltac:(lia) Hlen).
    destruct b.
    + rewrite decide_True by done. cbn [mapM]. rewrite Hx.
      cbn [mbind res_bind bind]. rewrite IH. done.
    + rewrite decide_False by (rewrite Hb; congruence). exact IH.
Qed.

Lemma pick_set_ok {A} (flags : list bool) (l : list A) :
  length l = length flags → pick_set flags l = Ret (bool_index flags l).
Proof.
  intros Hlen. unfold pick_set.
  by rewrite (pick_set_from flags l (length flags) 0).
Qed.

Lemma bool_index_all (flags : list bool) (l : list string) P :
  length l = length flags →
  (∀ i x, l !! i = Some x → flags !! i = Some true → P x) →
  Forall P (bool_index flags l).
Proof.
  revert l. induction flags as [|b flags IH]; intros [|x l] Hlen HP; simpl;
    try done.
  simpl in Hlen.
  assert (Forall P (bool_index flags l)) as Hrest.
  { apply IH; [lia|]. intros i y Hy Hf. by apply (HP (S i) y). }
  destruct b; [|done]. apply List.Forall_cons; [|done]. by apply (HP 0 x).
Qed.

(** X16: [del_column(True)] deletes the columns that have no role and
    keeps the others: data, mask, headers and roles are cut down to the
    same columns, in their order, and no column of the result is without
    a role. *)
Theorem del_column_true_keeps_roles (self : DataFile) :
  length (column_headers self) = length (setas self) →
  Forall (fun row => length row = length (setas self)) (data self) →
  Forall (fun row => length row = length (setas self)) (mask self) →
  let keep := role_set <$> setas self in
  del_column compress_masked delete_found self (ColBool true)
    = Ret (mkDataFile (bool_index keep <$> data self) (bool_index keep <$> mask self)
             (bool_index keep (column_headers self)) (bool_index keep (setas self)))
  ∧ Forall (fun role => role ≠ ".") (bool_index keep (setas self)).
Proof.
  intros Hh Hd Hm keep.
  assert (length keep = length (setas self)) as Hk
    by (unfold keep; by rewrite length_fmap).
  split.
  - unfold del_column, column_index. fold keep.
    rewrite !pick_set_ok by congruence. cbn [mbind res_bind bind].
    rewrite !checked_rows_ok; [done|..];
      (eapply Forall_impl; [eassumption|]; intros; simpl in *; congruence).
  - apply bool_index_all; [done|]. intros i role Hrole Hkeep.
    unfold keep in Hkeep. rewrite list_lookup_fmap, Hrole in Hkeep.
    injection Hkeep as Hset. unfold role_set in Hset.
    apply negb_true_iff, bool_decide_eq_false in Hset. exact Hset.
Qed.

End DelColumnUnset.

Section DelColumnUnsetSample.
Import Py Columns.

Lemma del_column_true_keeps_roles_witness :
  del_column (selector := unit) (fun _ => Raise (OtherError "unused"))
    (fun _ _ => Raise (OtherError "unused"))
    (mkDataFile [[10; 20; 30]]%Z [[false; false; true]] ["A"; "B"; "C"] ["x"; "."; "y"])
    (ColBool true)
  = Ret (mkDataFile [[10; 30]]%Z [[false; true]] ["A"; "C"] ["x"; "y"]).
Proof.
  destruct (del_column_true_keeps_roles (selector := unit)
              (fun _ => Raise (OtherError "unused"))
              (fun _ _ => Raise (OtherError "unused"))
              (mkDataFile [[10; 20; 30]]%Z [[false; false; true]]
                 ["A"; "B"; "C"] ["x"; "."; "y"])) as [Hrun _].
  - reflexivity.
  - apply List.Forall_cons; [reflexivity|apply List.Forall_nil].
  - apply List.Forall_cons; [reflexivity|apply List.Forall_nil].
  - exact Hrun.
Defined.

End DelColumnUnsetSample.

(** ** The columns picked for display *)

Section InterestingColumns.
Import Py Interesting.
Local Open Scope Z_scope.

(** The label of a column without role, and of the gap marker. *)
Definition plain_label (i : Z) : string :=
  if bool_decide (i = -1) then "" else pretty i.

(** The label of column [i] when its role is [role]. *)
Definition role_label (i : nat) (role : string) : string :=
  if bool_decide (role ≠ ".") then pretty (Z.of_nat i) +:+ " (" +:+ role +:+ ")"
  else pretty (Z.of_nat i).

Lemma mapM_pointwise {A B} (f : A → res B) (g : A → B) (l : list A) :
  Forall (fun x => f x = Ret (g x)) l → mapM (M := res) f l = Ret (g <$> l).
Proof.
  induction 1 as [|x l Hx _ IH]; [done|].
  cbn [mapM]. rewrite Hx. cbn [mbind res_bind bind]. by rewrite IH.
Qed.

Lemma mapM_length {A B} (f : A → res B) (l : list A) l' :
  mapM (M := res) f l = Ret l' → length l' = length l.
Proof.
  revert l'. induction l as [|x l IH]; intros l'; cbn [mapM].
  - by intros [= <-].
  - destruct (f x) as [y|e]; [|done]. cbn [mbind res_bind bind].
    destruct (mapM f l) as [ys|e]; [|done]. cbn [mbind res_bind bind].
    intros [= <-]. simpl. by rewrite (IH ys).
Qed.

Lemma length_range a b : length (range a b) = Z.to_nat (b - a).
Proof. unfold range. by rewrite length_fmap, length_seq. Qed.

Lemma lookup_range a b (i : nat) :
  (i < Z.to_nat (b - a))%nat → range a b !! i = Some (a + Z.of_nat i).
Proof.
  intros Hi. unfold range. rewrite list_lookup_fmap, lookup_seq_lt by done. done.
Qed.

Lemma py_get_nat {A} (l : list A) (i : nat) x :
  l !! i = Some x → py_get l (Z.of_nat i) = Ret x.
Proof.
  intros Hx. unfold py_get, Stack.norm_index.
  rewrite bool_decide_eq_true_2 by (apply lookup_lt_Some in Hx; lia).
  simpl. by rewrite Nat2Z.id, Hx.
Qed.

Lemma label_at setas (i : nat) role :
  setas !! i = Some role → label setas (Z.of_nat i) = Ret (role_label i role).
Proof.
  intros Hrole. unfold label. rewrite bool_decide_eq_true_2 by lia.
  by rewrite (py_get_nat _ _ _ Hrole).
Qed.

Lemma labels_from setas n (k : nat) :
  (k + n)%nat = length setas →
  mapM (M := res) (label setas) ((fun i => Z.of_nat k + Z.of_nat i) <$> seq 0 n)
    = Ret (imap (fun i role => role_label (k + i) role) (drop k setas)).
Proof.
  revert k. induction n as [|n IH]; intros k Hk.
  - simpl. by rewrite drop_ge by lia.
  - destruct (lookup_lt_is_Some_2 setas k) as [role Hrole]; [lia|].
    rewrite (drop_S setas role k Hrole).
    cbn [seq fmap list_fmap mapM imap]. rewrite Z.add_0_r, Nat.add_0_r.
    rewrite (label_at _ _ _ Hrole). cbn [mbind res_bind bind].
    rewrite <- fmap_S_seq, <- list_fmap_compose.
    specialize (IH (S k) ltac:(lia)).
    erewrite list_fmap_ext; [rewrite IH|intros i x _; simpl; lia].
    cbn [mbind res_bind bind]. f_equal. f_equal.
    apply imap_ext. intros i x _. simpl. f_equal. lia.
Qed.

(** X17: when the file has no more columns than the limit, every
    column is picked, in order, each with the label that gives its index
    and, where it has one, its role; the limit is returned as it came. *)
Theorem interesting_cols_narrow (setas : list string) cols :
  Z.of_nat (length setas) ≤ cols →
  _interesting_cols (length setas) setas cols
    = Ret (range 0 (Z.of_nat (length setas)), imap role_label setas, cols).
Proof.
  intros Hc. unfold _interesting_cols.
  rewrite bool_decide_eq_false_2 by lia. cbn [mbind res_bind bind fst snd].
  unfold range. rewrite Z.sub_0_r, Nat2Z.id.
  pose proof (labels_from setas (length setas) 0 eq_refl) as Hl.
  change (Z.of_nat 0) with 0 in Hl. rewrite drop_0 in Hl. rewrite Hl. done.
Qed.

Lemma interesting_cols_narrow_witness :
  _interesting_cols 3 ["."; "x"; "."] 6
    = Ret ([0; 1; 2], ["0"; "1 (x)"; "2"], 6).
Proof.
  apply (interesting_cols_narrow ["."; "x"; "."] 6). simpl. lia.
Defined.

Lemma scan_unset roles ix acc :
  Forall (fun role => role = ".") roles → scan roles ix (-1) acc = acc.
Proof.
  intros Hall. revert ix. induction Hall as [|role roles -> _ IH]; intros ix; [done|].
  cbn [scan]. rewrite bool_decide_eq_false_2 by (intros [? _]; done).
  rewrite bool_decide_eq_false_2 by (intros ?; done). apply IH.
Qed.

(** X18: a wide file on which no role is set shows its first columns,
    a gap and its last column.  With more columns than the limit, and a
    limit of three or more, the columns picked are [0 .. cols-3], the
    marker [-1], and the last column, each labelled with its index, the
    marker with the empty string. *)
Theorem interesting_cols_unset (setas : list string) cols :
  Forall (fun role => role = ".") setas →
  3 ≤ cols < Z.of_nat (length setas) →
  _interesting_cols (length setas) setas cols
    = Ret (range 0 (cols - 2) ++ [-1; Z.of_nat (length setas) - 1],
           plain_label <$> (range 0 (cols - 2) ++ [-1; Z.of_nat (length setas) - 1]),
           cols).
Proof.
  intros Hunset Hcols. unfold _interesting_cols.
  set (c := length setas) in *.
  rewrite bool_decide_eq_true_2 by lia.
  rewrite scan_unset by done. cbn [last removelast app].
  rewrite (bool_decide_eq_false_2 (None = Some (-1))) by done. cbn [app].
  rewrite length_range, Z.sub_0_r, Nat2Z.id.
  rewrite bool_decide_eq_false_2 by lia.
  set (n := Z.to_nat cols).
  assert (cols = Z.of_nat n) as Hn by lia.
  replace (cols - 3) with (Z.of_nat (n - 3)) at 1 by lia.
  rewrite (py_get_nat (range 0 (Z.of_nat c)) (n - 3) (cols - 3)).
  2:{ rewrite lookup_range by lia. f_equal. lia. }
  assert (∀ (l : list Z) (i : nat) x, (i < length l)%nat →
            py_set l (Z.of_nat i) x = Ret (<[i := x]> l)) as Hset.
  { intros l i x Hi. unfold py_set, Stack.norm_index.
    rewrite bool_decide_eq_true_2 by lia. by rewrite Nat2Z.id. }
  cbn [mbind res_bind bind].
  rewrite bool_decide_eq_true_2 by lia.
  replace (cols - 2) with (Z.of_nat (n - 2)) at 1 by lia.
  rewrite Hset by (rewrite length_range; lia). cbn [mbind res_bind bind].
  replace (cols - 1) with (Z.of_nat (n - 1)) by lia.
  rewrite Hset by (rewrite length_insert, length_range; lia).
  cbn [mbind res_bind bind fst snd].
  set (picked := py_upto _ _).
  assert (picked = range 0 (cols - 2) ++ [-1; Z.of_nat c - 1]) as ->.
  { unfold picked, py_upto. rewrite bool_decide_eq_true_2 by lia. fold n.
    apply list_eq. intros i.
    destruct (decide (i < n)%nat) as [Hi|Hi].
    - rewrite lookup_take_lt by done.
      destruct (decide (i = n - 1)%nat) as [->|H1].
      { rewrite list_lookup_insert_eq by (rewrite length_insert, length_range; lia).
        rewrite lookup_app_r by (rewrite length_range; lia).
        rewrite length_range. by replace (n - 1 - Z.to_nat (cols - 2 - 0))%nat with 1%nat by lia. }
      rewrite list_lookup_insert_ne by lia.
      destruct (decide (i = n - 2)%nat) as [->|H2].
      { rewrite list_lookup_insert_eq by (rewrite length_range; lia).
        rewrite lookup_app_r by (rewrite length_range; lia).
        rewrite length_range. by replace (n - 2 - Z.to_nat (cols - 2 - 0))%nat with 0%nat by lia. }
      rewrite list_lookup_insert_ne by lia.
      rewrite lookup_app_l by (rewrite length_range; lia).
      by rewrite !lookup_range by lia.
    - rewrite lookup_take_ge by lia. symmetry. apply lookup_ge_None_2.
      rewrite length_app, length_range. simpl. lia. }
  rewrite (mapM_pointwise _ plain_label); [done|].
  apply Forall_app. split.
  - apply Forall_forall. intros x Hx. unfold range in Hx.
    apply list_elem_of_fmap in Hx as (i & -> & Hi). apply elem_of_seq in Hi.
    destruct (lookup_lt_is_Some_2 setas i) as [role Hrole]; [fold c; lia|].
    rewrite Z.add_0_l, (label_at _ _ _ Hrole).
    rewrite Forall_forall in Hunset.
    rewrite (Hunset role) by (by eapply list_elem_of_lookup_2).
    unfold role_label, plain_label.
    rewrite bool_decide_eq_false_2 by (intros ?; done).
    by rewrite bool_decide_eq_false_2 by lia.
  - apply List.Forall_cons; [done|]. apply List.Forall_cons; [|apply List.Forall_nil].
    destruct (lookup_lt_is_Some_2 setas (c - 1)) as [role Hrole]; [fold c; lia|].
    replace (Z.of_nat c - 1) with (Z.of_nat (c - 1)) by lia.
    rewrite (label_at _ _ _ Hrole).
    rewrite Forall_forall in Hunset.
    rewrite (Hunset role) by (by eapply list_elem_of_lookup_2).
    unfold role_label, plain_label.
    rewrite bool_decide_eq_false_2 by (intros ?; done).
    by rewrite bool_decide_eq_false_2 by lia.
Qed.

Lemma interesting_cols_unset_witness :
  _interesting_cols 8 (replicate 8 ".") 6
    = Ret ([0; 1; 2; 3; -1; 7], ["0"; "1"; "2"; "3"; ""; "7"], 6).
Proof.
  apply (interesting_cols_unset (replicate 8 ".") 6).
  - repeat (apply List.Forall_cons; [reflexivity|]). apply List.Forall_nil.
  - simpl. lia.
Defined.

End InterestingColumns.

Section InterestingInvariant.
Import Py Interesting.
Local Open Scope Z_scope.

(** An entry that the callers of [_interesting_cols] can use: the gap
    marker, or the index of a column of the file. *)
Definition entry_ok (c : Z) (i : Z) : Prop := i = -1 ∨ 0 ≤ i < c.

Lemma scan_entries roles : ∀ ix last acc,
  0 ≤ ix →
  Forall (entry_ok ix) acc →
  Forall (entry_ok (ix + Z.of_nat (length roles))) (scan roles ix last acc).
Proof.
  induction roles as [|typ roles IH]; intros ix last acc Hix Hacc.
  - simpl. by rewrite Z.add_0_r.
  - cbn [scan].
    set (step1 := if bool_decide (last ≠ -1 ∧ last ≠ ix - 1)
                  then (acc ++ [-1], -1) else (acc, last)).
    assert (Forall (entry_ok ix) step1.1) as H1.
    { unfold step1. case_bool_decide; simpl; [|done].
      apply Forall_app. split; [done|]. apply Forall_singleton. by left. }
    destruct step1 as [acc1 last1]. simpl in H1.
    set (step2 := if bool_decide (typ ≠ ".") then (acc1 ++ [ix], ix) else (acc1, last1)).
    assert (Forall (entry_ok (ix + 1)) step2.1) as H2.
    { assert (Forall (entry_ok (ix + 1)) acc1) as Hw.
      { eapply Forall_impl; [exact H1|]. intros i [?|?]; [by left|right; lia]. }
      unfold step2. case_bool_decide; simpl; [|done].
      apply Forall_app. split; [done|]. apply Forall_singleton. right. lia. }
    destruct step2 as [acc2 last2]. simpl in H2.
    replace (ix + Z.of_nat (length (typ :: roles)))
      with (ix + 1 + Z.of_nat (length roles)) by (simpl; lia).
    apply IH; [lia|done].
Qed.

Lemma max_of_lower (l : list Z) : Forall (fun i => -1 ≤ i) l → -1 ≤ max_of l.
Proof.
  unfold max_of. intros Hall.
  assert (-1 ≤ hd 0 l) as Hhd by (destruct Hall; simpl; lia).
  generalize dependent (hd 0 l). intros z Hz.
  induction Hall as [|x l Hx _ IH]; simpl; lia.
Qed.

Lemma py_set_entries c (l l' : list Z) i x :
  py_set l i x = Ret l' → entry_ok c x → Forall (entry_ok c) l → Forall (entry_ok c) l'.
Proof.
  unfold py_set. destruct (Stack.norm_index (length l) i) as [k|]; [|done].
  intros [= <-] Hx Hl. by apply Forall_insert.
Qed.

Lemma py_set_length (l l' : list Z) i x :
  py_set l i x = Ret l' → length l' = length l.
Proof.
  unfold py_set. destruct (Stack.norm_index (length l) i) as [k|]; [|done].
  intros [= <-]. apply length_insert.
Qed.

(** X19: whenever [_interesting_cols] returns, its answer is fit for
    use: every entry picked is the gap marker [-1] or the index of a
    column of the file, there is one label for each entry, and for a limit
    that is not negative no more entries are picked than the limit
    allows.  The limit returned is never above the one given. *)
Theorem interesting_cols_entries (setas : list string) cols picked labels cols' :
  _interesting_cols (length setas) setas cols = Ret (picked, labels, cols') →
  Forall (entry_ok (Z.of_nat (length setas))) picked ∧
  length labels = length picked ∧
  cols' ≤ cols ∧
  (0 ≤ cols → Z.of_nat (length picked) ≤ cols).
Proof.
  unfold _interesting_cols. set (c := length setas).
  case_bool_decide as Hwide.
  - set (scanned := scan setas 0 (-1) []).
    set (trimmed := if bool_decide (last scanned = Some (-1))
                    then removelast scanned else scanned).
    set (c_start := match trimmed with [] => 0 | _ => max_of trimmed + 1 end).
    set (all := trimmed ++ range c_start (Z.of_nat c)).
    set (cols1 := if bool_decide (Z.of_nat (length all) < cols)
                  then Z.of_nat (length all) else cols).
    assert (Forall (entry_ok (Z.of_nat c)) scanned) as Hscanned.
    { unfold scanned. apply (scan_entries setas 0 (-1) []); [lia|done]. }
    assert (Forall (entry_ok (Z.of_nat c)) trimmed) as Htrimmed.
    { unfold trimmed. case_bool_decide; [|done].
      rewrite removelast_firstn_len. by apply Forall_take. }
    assert (0 ≤ c_start) as Hstart.
    { unfold c_start. destruct trimmed as [|t trimmed'] eqn:Ht; [done|].
      rewrite <- Ht in *. pose proof (max_of_lower trimmed) as Hmax.
      assert (-1 ≤ max_of trimmed); [|lia]. apply Hmax.
      eapply Forall_impl; [exact Htrimmed|]. intros i [?|?]; lia. }
    assert (Forall (entry_ok (Z.of_nat c)) all) as Hall.
    { unfold all. apply Forall_app. split; [done|].
      apply Forall_forall. intros x Hx. unfold range in Hx.
      apply list_elem_of_fmap in Hx as (i & -> & Hi). apply elem_of_seq in Hi.
      right. lia. }
    assert (cols1 ≤ cols ∧ cols1 ≤ Z.of_nat (length all) ∧ (0 ≤ cols → 0 ≤ cols1))
      as (Hle1 & Hle2 & Hle3).
    { unfold cols1. case_bool_decide; lia. }
    destruct (py_get all (cols1 - 3)) as [x|e] eqn:Hget; [|done].
    cbn [mbind res_bind bind].
    assert (0 < c)%nat as Hc.
    { unfold py_get in Hget.
      destruct (Stack.norm_index (length all) (cols1 - 3)) as [k|] eqn:Hk; [|done].
      simpl in Hget. destruct (all !! k) as [y|] eqn:Hy; [|done].
      apply list_elem_of_lookup_2 in Hy. rewrite Forall_forall in Hall.
      destruct (Hall y Hy) as [->|?]; [|lia].
      unfold all in Hy. apply elem_of_app in Hy as [Hy|Hy].
      - rewrite Forall_forall in Hscanned.
        assert (length setas ≠ 0)%nat; [|unfold c; lia].
        intros Hnil. apply nil_length_inv in Hnil.
        unfold trimmed, scanned in Hy. rewrite Hnil in Hy. simpl in Hy.
        by apply elem_of_nil in Hy.
      - unfold range in Hy. apply list_elem_of_fmap in Hy as (i & Hi & _). lia. }
    destruct (py_set all (cols1 - 2) _) as [l1|e] eqn:Hset1; [|done].
    cbn [mbind res_bind bind].
    destruct (py_set l1 (cols1 - 1) _) as [l2|e] eqn:Hset2; [|done].
    cbn [mbind res_bind bind fst snd].
    assert (Forall (entry_ok (Z.of_nat c)) l1) as Hl1.
    { eapply py_set_entries; [exact Hset1| |exact Hall].
      case_bool_decide; unfold entry_ok; lia. }
    assert (Forall (entry_ok (Z.of_nat c)) l2) as Hl2.
    { eapply py_set_entries; [exact Hset2| |exact Hl1]. right. lia. }
    assert (length l2 = length all) as Hlen2.
    { rewrite (py_set_length _ _ _ _ Hset2). apply (py_set_length _ _ _ _ Hset1). }
    destruct (mapM (label setas) (py_upto l2 cols1)) as [labs|e] eqn:Hlabs; [|done].
    cbn [mbind res_bind bind]. intros [= <- <- <-].
    split; [|split; [|split]].
    + unfold py_upto. destruct (bool_decide (0 ≤ cols1)); by apply Forall_take.
    + by apply mapM_length in Hlabs.
    + done.
    + intros Hpos. unfold py_upto.
      destruct (bool_decide (0 ≤ cols1)) eqn:Hc1; rewrite length_take.
      * apply bool_decide_eq_true in Hc1. lia.
      * apply bool_decide_eq_false in Hc1. lia.
  - cbn [mbind res_bind bind fst snd].
    destruct (mapM (label setas) (range 0 (Z.of_nat c))) as [labs|e] eqn:Hlabs; [|done].
    cbn [mbind res_bind bind]. intros [= <- <- <-].
    split; [|split; [|split]].
    + apply Forall_forall. intros x Hx. unfold range in Hx.
      apply list_elem_of_fmap in Hx as (i & -> & Hi). apply elem_of_seq in Hi.
      right. lia.
    + by apply mapM_length in Hlabs.
    + done.
    + intros _. rewrite length_range. lia.
Qed.

Lemma interesting_cols_entries_witness :
  Forall (entry_ok 8) [0; -1; 3; -1; 7] ∧
  length ["0 (x)"; ""; "3 (y)"; ""; "7 (e)"] = length [0; -1; 3; -1; 7] ∧
  5 ≤ 6 ∧
  (0 ≤ 6 → Z.of_nat (length [0; -1; 3; -1; 7]) ≤ 6).
Proof.
  apply (interesting_cols_entries ["x"; "."; "."; "y"; "."; "."; "."; "e"] 6
           [0; -1; 3; -1; 7] ["0 (x)"; ""; "3 (y)"; ""; "7 (e)"] 5).
  reflexivity.
Defined.

End InterestingInvariant.

(** ** The scan of the metadata column *)

Section MetadataScan.
Import Py Text Tdi TdiScan.

(** A row of the metadata block: it has a first field, and that field
    is not blank. *)
Definition keyed (row : list string) : Prop :=
  ∃ f0 fs, row = f0 :: fs ∧ strip f0 ≠ "".

(** A row that ends the metadata block: its first field is blank. *)
Definition blank_key (row : list string) : Prop :=
  ∃ f0 fs, row = f0 :: fs ∧ strip f0 = "".

(** The number of rows of the block that carry data. *)
Definition with_data (rows : list (list string)) : nat :=
  length (filter (fun row => has_data row = true) rows).

Lemma with_data_cons row rows :
  with_data (row :: rows) = (if has_data row then 1 else 0) + with_data rows.
Proof.
  unfold with_data. rewrite filter_cons.
  destruct (has_data row); [by rewrite decide_True|by rewrite decide_False].
Qed.

Lemma scan_rows_keyed meta : ∀ rest st,
  Forall keyed meta →
  scan_rows (meta ++ rest) st
    = scan_rows rest
        (mkCounters (data_array st + with_data meta)
           (metaDataArray st + length meta)
           (foldl Nat.max (cols st) (length <$> meta))
           (match last meta with
            | Some row => Some (has_data row)
            | None => still_data st
            end)
           (keys st ++ (hd "" <$> meta))).
Proof.
  induction meta as [|row meta IH]; intros rest st Hmeta.
  - simpl. unfold with_data. simpl. rewrite !Nat.add_0_r, app_nil_r. by destruct st.
  - apply Forall_cons in Hmeta as [(f0 & fs & -> & Hkey) Hmeta].
    cbn [app scan_rows row0 mbind res_bind bind].
    rewrite bool_decide_eq_false_2 by done.
    rewrite IH by done. f_equal.
    rewrite with_data_cons.
    assert (match last ((f0 :: fs) :: meta) with
            | Some row => Some (has_data row)
            | None => still_data st
            end
            = match last meta with
              | Some row => Some (has_data row)
              | None => Some (has_data (f0 :: fs))
              end) as Hlast.
    { rewrite last_cons. by destruct (last meta). }
    rewrite Hlast.
    destruct (has_data (f0 :: fs)) eqn:Hd;
      cbn [data_array metaDataArray cols still_data keys fmap list_fmap foldl length hd];
      (f_equal; first [lia | by destruct (last meta) | by rewrite <- app_assoc]).
Qed.

(** X20: the reading of metadata stops at the first row whose first
    field is blank.  The entries handed to the metadata store are the
    first fields of the rows before it, in order; the rows after it play
    no part; and the numbers are then read from the whole file when that
    row carries data, from the file less a footer when only rows of the
    block did, and not at all otherwise. *)
Theorem load_scan_stops_at_blank_key content fmt hs meta brk rest :
  header_check content = Ret (fmt, hs) →
  later_rows content = meta ++ brk :: rest →
  Forall keyed meta →
  blank_key brk →
  let usecols := seq 1 (foldl Nat.max 0 (length <$> meta) - 1) in
  _load_scan content
    = Ret (fmt, hs, hd "" <$> meta,
           if has_data brk then ReadAll usecols
           else if bool_decide (0 < with_data meta)
                then ReadAbove (Z.of_nat (length meta) - Z.of_nat (with_data meta))
                       usecols
                else NoData).
Proof.
  intros Hhead Hrows Hmeta (f0 & fs & -> & Hblank) usecols.
  unfold _load_scan. rewrite Hhead, Hrows. cbn [mbind res_bind bind].
  rewrite scan_rows_keyed by done.
  cbn [scan_rows row0 mbind res_bind bind data_array metaDataArray cols still_data keys].
  rewrite bool_decide_eq_true_2 by done.
  destruct (has_data (f0 :: fs)) eqn:Hd; cbn [mbind res_bind bind].
  - unfold plan. simpl. done.
  - unfold plan. simpl. case_bool_decide; done.
Qed.

Lemma load_scan_stops_at_blank_key_witness :
  let nl := String "010"%char "" in
  let content := "TDI Format 1.5" +:+ String tab "A" +:+ nl
                 +:+ "k=1" +:+ String tab "10" +:+ nl
                 +:+ String tab "11" +:+ nl
                 +:+ "late=2" +:+ String tab "12" +:+ nl in
  _load_scan content = Ret (Fmt_1_5, ["A"], ["k=1"], ReadAll [1]).
Proof.
  intros nl content.
  apply (load_scan_stops_at_blank_key content Fmt_1_5 ["A"] [["k=1"; "10"]]
           [""; "11"] [["late=2"; "12"]]).
  - reflexivity.
  - reflexivity.
  - apply List.Forall_cons; [|apply List.Forall_nil].
    exists "k=1", ["10"]. split; [reflexivity|discriminate].
  - exists "", ["11"]. split; reflexivity.
Defined.

(** X21: a file that ends with its header line is not loaded.  When the
    header check passes and no row follows the first one, the loop over
    the rows never binds [still_data], and the test that follows it
    raises [UnboundLocalError], which is not a [StonerLoadError]. *)
Theorem load_scan_header_only content fmt hs :
  header_check content = Ret (fmt, hs) →
  later_rows content = [] →
  _load_scan content = Raise (OtherError "UnboundLocalError") ∧
  is_load_error (OtherError "UnboundLocalError") = false.
Proof.
  intros Hhead Hrows. unfold _load_scan. by rewrite Hhead, Hrows.
Qed.

Lemma load_scan_header_only_witness :
  _load_scan ("TDI Format 1.5" +:+ String tab "A" +:+ String "010"%char "")
    = Raise (OtherError "UnboundLocalError") ∧
  is_load_error (OtherError "UnboundLocalError") = false.
Proof.
  apply (load_scan_header_only _ Fmt_1_5 ["A"]); reflexivity.
Defined.

End MetadataScan.

(** ** The file name written by [to_tiff] *)

Section TiffName.
Import Py Text Tiff.

Lemma substring_all s : String.substring 0 (String.length s) s = s.
Proof. induction s as [|a s IH]; simpl; [done|]. by rewrite IH. Qed.

Lemma append_empty_r s : s +:+ "" = s.
Proof.
  induction s as [|a s IH]; [done|].
  change (String a (s +:+ "") = String a s). by rewrite IH.
Qed.

Lemma substring_split n s :
  n ≤ String.length s →
  String.substring 0 n s +:+ String.substring n (String.length s - n) s = s.
Proof.
  revert n. induction s as [|a s IH]; intros n Hn.
  - destruct n; [done|simpl in Hn; lia].
  - destruct n as [|n].
    + rewrite Nat.sub_0_r. change (String.substring 0 0 (String a s)) with "".
      apply (substring_all (String a s)).
    + simpl in *.
      change (String a (String.substring 0 n s
                        +:+ String.substring n (String.length s - n) s) = String a s).
      rewrite IH by lia. done.
Qed.

Lemma get_length n s c : String.get n s = Some c → n < String.length s.
Proof.
  revert n. induction s as [|a s IH]; intros n; simpl; [done|].
  destruct n as [|n]; [lia|]. intros H. apply IH in H. lia.
Qed.

(** Root and extension put together give the path back. *)
Lemma splitext_join p : (splitext p).1 +:+ (splitext p).2 = p.
Proof.
  unfold splitext. destruct (_ && _) eqn:Hc; simpl; [|apply append_empty_r].
  apply andb_prop in Hc as [Hlt _]. apply Z.ltb_lt in Hlt.
  assert (-1 ≤ rfind slash p)%Z as Hs.
  { unfold rfind. destruct (rfind_from_spec slash p 0 (-1)) as [->|[? _]]; lia. }
  unfold slice_to, slice_from. apply substring_split.
  pose proof (rfind_get dot p ltac:(lia)) as Hget. apply get_length in Hget. lia.
Qed.

(** X22: [to_tiff] writes to the name it is given when that name ends
    in the extension [.tif] or [.tiff]; for any other name it keeps the
    root and puts [.tiff] in the place of the extension.  The name
    written to always ends in one of the two. *)
Theorem tiffname_keeps_tiff_extension filename :
  ((splitext filename).2 ∈ [".tif"; ".tiff"] → tiffname filename = filename) ∧
  ((splitext filename).2 ∉ [".tif"; ".tiff"] →
     tiffname filename = (splitext filename).1 +:+ ".tiff") ∧
  (tiffname filename = (splitext filename).1 +:+ ".tif" ∨
   tiffname filename = (splitext filename).1 +:+ ".tiff").
Proof.
  unfold tiffname. split; [|split].
  - intros Hin. rewrite bool_decide_eq_true_2 by done. apply splitext_join.
  - intros Hnot. by rewrite bool_decide_eq_false_2.
  - case_bool_decide as Hin; [|by right].
    apply elem_of_cons in Hin as [->|Hin]; [by left|].
    apply list_elem_of_singleton in Hin as ->. by right.
Qed.

End TiffName.

(** ** The image stack: replacing a stored image *)

Section StackOverwrite.
Import Py Stack StackRead.
Context {cell meta : Type}.
Variable zero : cell.
Variable cast : dtype → dtype → cell → cell.
Variable md_lookup : list string → string → option string.
Variable make_name : @ImageStack cell meta → @image cell meta → string.
Abbreviation ImageStack := (@ImageStack cell meta).
Abbreviation image := (@image cell meta).

Ltac run_op :=
  cbv beta iota delta
    [mbind mret op_mbind op_mret op_bind op_ret get modify raise lift].

Lemma slice_overwritten r c rows cols (data page : list (list cell)) :
  page_ok r c data → page_ok rows cols page → r ≤ rows → c ≤ cols →
  slice_page r c (write_page r c data page) = data.
Proof.
  intros [Hlen Hrows] [Hplen Hprows] Hr Hc. unfold slice_page, write_page.
  apply list_eq. intros i.
  rewrite list_lookup_fmap.
  destruct (decide (i < r)) as [Hi|Hi].
  - rewrite lookup_take_lt by done. rewrite list_lookup_imap.
    destruct (lookup_lt_is_Some_2 page i) as [line Hline]; [lia|].
    rewrite Hline. simpl.
    destruct (lookup_lt_is_Some_2 data i) as [row Hrow]; [lia|].
    rewrite Hrow. f_equal.
    assert (length row = c) as Hrc.
    { rewrite Forall_forall in Hrows. apply Hrows. by eapply list_elem_of_lookup_2. }
    assert (length line = cols) as Hlc.
    { rewrite Forall_forall in Hprows. apply Hprows. by eapply list_elem_of_lookup_2. }
    apply list_eq. intros j.
    destruct (decide (j < c)) as [Hj|Hj].
    + rewrite lookup_take_lt by done. rewrite list_lookup_imap.
      destruct (lookup_lt_is_Some_2 line j) as [y Hy]; [lia|].
      rewrite Hy. simpl. rewrite bool_decide_eq_true_2 by done.
      destruct (lookup_lt_is_Some_2 row j) as [x Hx]; [lia|].
      by rewrite Hx.
    + rewrite lookup_take_ge by lia. symmetry. apply lookup_ge_None_2. lia.
  - rewrite lookup_take_ge by lia. simpl. symmetry. apply lookup_ge_None_2. lia.
Qed.

Lemma index_of_first name (l : list string) :
  name ∈ l → ∃ i, index_of name l = Some i ∧ l !! i = Some name.
Proof.
  intros Hin. unfold index_of.
  destruct (list_find_elem_of (fun y => y = name) l name Hin eq_refl) as [[i y] Hfind].
  rewrite Hfind. exists i. split; [done|].
  apply list_find_Some in Hfind as (Hi & -> & _). done.
Qed.

Lemma dict_set_known name (md : meta) d :
  name ∈ d.*1 →
  (dict_set name md d).*1 = d.*1 ∧ dict_get name (dict_set name md d) = Ret md.
Proof.
  induction d as [|[k v] d IH]; simpl; [by intros ?%elem_of_nil|].
  intros Hin. case_bool_decide as Hk.
  - subst k. split; [done|]. unfold dict_get. simpl. by rewrite decide_True.
  - apply elem_of_cons in Hin as [Heq|Hin]; [by subst|].
    destruct (IH Hin) as [Hkeys Hget].
    split; [rewrite fmap_cons; f_equal; exact Hkeys|].
    unfold dict_get in *. simpl. rewrite decide_False by done.
    destruct (list_find _ (dict_set name md d)) as [[i [k' v']]|]; simpl in *; done.
Qed.

(** X23: storing an image under a name that the stack holds replaces
    the image at the position of that name.  The call succeeds; the names
    and their order stay as they were; the size recorded at the position
    is that of the new image; the buffer is left with as many pages as
    there are sizes; and [_instantiate] at the position returns the new
    image with its shape and metadata and with its cells as the buffer
    holds them: stored in the dtype of the buffer, that is converted by
    numpy when the dtypes differ and unchanged when the buffer has the
    dtype of the image. *)
Theorem overwritten_image_reads_back name (value : image) (s : ImageStack) :
  name ∈ names s →
  length (_sizes s) = length (names s) →
  buffer_ok s →
  image_ok value →
  let after := __setter__ zero cast md_lookup make_name (Some (KeyStr name)) value false s in
  ∃ i, index_of name (names s) = Some i ∧
       after.2 = Ret () ∧
       names after.1 = names s ∧
       _names after.1 = _names s ∧
       _sizes after.1 = <[i := im_shape value]> (_sizes s) ∧
       length (st_pages after.1) = length (_sizes s) ∧
       _instantiate after.1 (Z.of_nat i)
         = Ret (mkImage (im_shape value)
                  (store_page cast (im_dtype value) (st_dtype after.1) (im_data value))
                  (im_metadata value) (st_dtype after.1)) ∧
       (st_dtype after.1 = im_dtype value →
        _instantiate after.1 (Z.of_nat i)
          = Ret (mkImage (im_shape value) (im_data value) (im_metadata value)
                   (im_dtype value))).
Proof.
  intros Hin Hs Hbuf Hok after.
  destruct (index_of_first name (names s) Hin) as (i & Hidx & Hname).
  exists i. split; [done|].
  assert (i < length (names s)) as Hi by (by eapply lookup_lt_Some).
  destruct (dict_set_known name (im_metadata value) (_metadata s) Hin) as [Hkeys Hget].
  set (s1 := with_metadata (dict_set name (im_metadata value))
               (with_sizes (fun sz => <[i := im_shape value]> sz) s)).
  set (dt := if bool_decide ((max_size s1, length (_sizes s1)).2 = 1)
             then Some (im_dtype value) else None).
  set (s2 := _resize_stack zero cast (max_size s1, length (_sizes s1)) dt s1).
  set (s3 := with_pages
               (alter (write_page (im_shape value).1 (im_shape value).2
                         (store_page cast (im_dtype value) (st_dtype s2) (im_data value)))
                  i)
               s2).
  assert (_sizes s1 = <[i := im_shape value]> (_sizes s)) as Hs1 by done.
  assert (length (_sizes s1) = length (_sizes s)) as Hls1
    by (rewrite Hs1; apply length_insert).
  pose proof (resize_stack_shape zero cast (max_size s1, length (_sizes s1)) dt s1) as Hshape.
  fold s2 in Hshape. unfold stack_shape in Hshape. injection Hshape as Hrc Hp2.
  assert (st_rows s2 = (max_size s1).1 ∧ st_cols s2 = (max_size s1).2) as [Hr2 Hc2]
    by (by rewrite <- Hrc).
  destruct (resize_stack_lists zero cast (max_size s1, length (_sizes s1)) dt s1)
    as [Hn2 Hs2].
  fold s2 in Hn2, Hs2.
  pose proof (resize_stack_metadata zero cast (max_size s1, length (_sizes s1)) dt s1) as Hm2.
  fold s2 in Hm2.
  assert (length (st_pages s2) = length (_sizes s)) as Hpag
    by (rewrite Hp2; exact Hls1).
  assert ((im_shape value).1 ≤ st_rows s2 ∧ (im_shape value).2 ≤ st_cols s2)
    as [Hfit1 Hfit2].
  { rewrite Hr2, Hc2. apply max_size_covers. rewrite Hs1.
    eapply list_elem_of_lookup_2. apply list_lookup_insert_eq. lia. }
  assert (buffer_ok s2) as Hbuf2.
  { unfold s2. by apply resize_stack_buffer_ok. }
  destruct (lookup_lt_is_Some_2 (st_pages s2) i) as [page Hpage]; [lia|].
  assert (page_ok (st_rows s2) (st_cols s2) page) as Hpok.
  { unfold buffer_ok in Hbuf2. rewrite Forall_forall in Hbuf2.
    apply Hbuf2. by eapply list_elem_of_lookup_2. }
  assert (after = (s3, Ret ())) as Hrun.
  { unfold after, __setter__. run_op.
    unfold __lookup__. run_op.
    rewrite bool_decide_eq_true_2 by done. rewrite Hidx.
    cbv beta iota.
    rewrite norm_index_nat by lia. cbv beta iota.
    change (with_metadata (dict_set name (im_metadata value))
              (with_sizes (fun sz => <[i := im_shape value]> sz) s)) with s1.
    fold dt. fold s2.
    unfold assign_page. run_op.
    rewrite norm_index_nat by lia.
    rewrite bool_decide_eq_true_2 by done. done. }
  rewrite Hrun. cbn [fst snd].
  split; [done|].
  split; [unfold names, s3; simpl; by rewrite Hm2|].
  split; [unfold s3; simpl; by rewrite Hn2|].
  split; [unfold s3; simpl; by rewrite Hs2|].
  split; [unfold s3; simpl; by rewrite length_alter|].
  match goal with |- ?A ∧ _ => assert A as Hread end;
    [|split; [exact Hread|];
      intros Hdt; rewrite Hread, Hdt; by rewrite (store_page_same cast)].
  unfold _instantiate.
  rewrite (item_nat _ (_sizes s3) i (im_shape value)).
  2:{ unfold s3. simpl. rewrite Hs2, Hs1. apply list_lookup_insert_eq. lia. }
  rewrite (item_nat _ (st_pages s3) i
             (write_page (im_shape value).1 (im_shape value).2
                (store_page cast (im_dtype value) (st_dtype s2) (im_data value)) page)).
  2:{ unfold s3. cbn [st_pages with_pages]. by rewrite list_lookup_alter_eq, Hpage. }
  rewrite (item_nat _ (names s3) i name).
  2:{ unfold names, s3. simpl. rewrite Hm2. unfold s1. simpl. by rewrite Hkeys. }
  cbn [mbind res_bind bind].
  assert (_metadata s3 = dict_set name (im_metadata value) (_metadata s)) as ->.
  { unfold s3. simpl. by rewrite Hm2. }
  rewrite Hget. cbn [mbind res_bind bind]. f_equal.
  rewrite (slice_overwritten _ _ (st_rows s2) (st_cols s2))
    by (try done; by apply (store_page_ok cast)).
  assert (st_rows s3 = st_rows s2 ∧ st_cols s3 = st_cols s2) as [-> ->] by done.
  rewrite !Nat.min_l by done. by destruct (im_shape value).
Qed.

End StackOverwrite.

Section StackOverwriteSample.
Import Py Stack StackRead.

Lemma overwritten_image_reads_back_witness :
  let after := __setter__ 0%Z (fun _ _ c => c) exact_only untitled (Some (KeyStr "a")) dot_image false
                 one_image in
  ∃ i, index_of "a" (names one_image) = Some i ∧
       after.2 = Ret () ∧
       names after.1 = names one_image ∧
       _names after.1 = _names one_image ∧
       _sizes after.1 = <[i := im_shape dot_image]> (_sizes one_image) ∧
       length (st_pages after.1) = length (_sizes one_image) ∧
       _instantiate after.1 (Z.of_nat i)
         = Ret (mkImage (im_shape dot_image)
                  (store_page (fun _ _ c => c) (im_dtype dot_image) (st_dtype after.1)
                     (im_data dot_image))
                  (im_metadata dot_image) (st_dtype after.1)) ∧
       (st_dtype after.1 = im_dtype dot_image →
        _instantiate after.1 (Z.of_nat i)
          = Ret (mkImage (im_shape dot_image) (im_data dot_image)
                   (im_metadata dot_image) (im_dtype dot_image))).
Proof.
  apply (overwritten_image_reads_back 0%Z (fun _ _ c => c) exact_only untitled "a" dot_image one_image).
  - vm_compute. apply list_elem_of_singleton. reflexivity.
  - reflexivity.
  - exact one_image_buffer_ok.
  - unfold image_ok, page_ok. vm_compute.
    repeat (apply List.Forall_cons || apply List.Forall_nil || split || reflexivity).
Defined.

End StackOverwriteSample.

(** ** Columns with a repeated header *)

Section RepeatedHeaders.
Import Py Duplicates.

Lemma index_from_Some x start ch j :
  index_from x start ch = Some j ↔
  start ≤ j ∧ ch !! j = Some x ∧ ∀ k, start ≤ k < j → ch !! k ≠ Some x.
Proof.
  unfold index_from. rewrite fmap_Some. split.
  - intros ([p y] & Hfind & ->). simpl.
    apply list_find_Some in Hfind as (Hp & -> & Hmin).
    rewrite lookup_drop in Hp. split; [lia|]. split; [done|].
    intros k Hk Hx. apply (Hmin (k - start) x); [|lia|done].
    rewrite lookup_drop. by replace (start + (k - start)) with k by lia.
  - intros (Hj & Hx & Hmin). exists (j - start, x). split; [|simpl; lia].
    apply list_find_Some. split; [|split; [done|]].
    + rewrite lookup_drop. by replace (start + (j - start)) with j by lia.
    + intros q y Hq Hlt ->. rewrite lookup_drop in Hq.
      apply (Hmin (start + q)); [lia|done].
Qed.

Lemma index_from_found x start ch j :
  start ≤ j → ch !! j = Some x →
  ∃ k, index_from x start ch = Some k ∧ k ≤ j.
Proof.
  intros Hj Hx.
  destruct (list_find_elem_of (fun y => y = x) (drop start ch) x) as [[p y] Hfind].
  - eapply list_elem_of_lookup_2. rewrite lookup_drop.
    by replace (start + (j - start)) with j by lia.
  - done.
  - exists (start + p). split; [unfold index_from; by rewrite Hfind|].
    assert (index_from x start ch = Some (start + p)) as Hk
      by (unfold index_from; by rewrite Hfind).
    apply index_from_Some in Hk as (_ & _ & Hmin).
    destruct (decide (start + p ≤ j)); [done|].
    exfalso. apply (Hmin j); [lia|done].
Qed.

Lemma NoDup_omap_inj {A B} (f : A → option B) (l : list A) :
  NoDup l →
  (∀ a a' b, a ∈ l → a' ∈ l → f a = Some b → f a' = Some b → a = a') →
  NoDup (omap f l).
Proof.
  induction 1 as [|a l Ha Hl IH]; intros Hinj; simpl; [constructor|].
  assert (NoDup (omap f l)) as Hrest.
  { apply IH. intros ?????. apply Hinj; by right. }
  destruct (f a) as [b|] eqn:Hb; [|done].
  apply NoDup_cons. split; [|done].
  intros Hin. apply list_elem_of_omap in Hin as (a' & Ha' & Hb').
  assert (a = a') as <-; [|done].
  apply (Hinj a a' b); [by left|by right|done|done].
Qed.

(** X24: with [duplicates] true and no column named, the positions that
    [del_column] collects for deletion are exactly the positions of the
    headers that have occurred before in the list, each of them once: the
    first column under every header is not among them, every later one
    is. *)
Theorem repeated_headers_collected ch :
  (∀ j, j ∈ repeated ch ↔ ∃ i x, i < j ∧ ch !! i = Some x ∧ ch !! j = Some x) ∧
  NoDup (repeated ch).
Proof.
  assert (∀ i j, (ch !! i ≫= fun chi => index_from chi (S i) ch) = Some j ↔
                 ∃ x, ch !! i = Some x ∧ S i ≤ j ∧ ch !! j = Some x ∧
                      ∀ k, S i ≤ k < j → ch !! k ≠ Some x) as Hstep.
  { intros i j. destruct (ch !! i) as [x|] eqn:Hi; simpl.
    - rewrite index_from_Some. split.
      + intros (? & ? & ?). by exists x.
      + by intros (x' & [= <-] & ? & ? & ?).
    - split; [done|]. by intros (x & ? & _). }
  split.
  - intros j. unfold repeated. rewrite list_elem_of_omap. split.
    + intros (i & _ & Hi). apply Hstep in Hi as (x & Hx & Hle & Hj & _).
      exists i, x. split; [lia|done].
    + intros (i & x & Hlt & Hi & Hj).
      remember (j - i) as d eqn:Hd. revert i Hlt Hi Hd.
      induction (lt_wf d) as [d _ IH]. intros i Hlt Hi Hd.
      destruct (index_from_found x (S i) ch j ltac:(lia) Hj) as (k & Hk & Hkj).
      destruct (decide (k = j)) as [->|Hne].
      * exists i. split.
        { apply elem_of_seq. apply lookup_lt_Some in Hi. lia. }
        rewrite Hi. simpl. exact Hk.
      * apply index_from_Some in Hk as (Hik & Hkx & _).
        apply (IH (j - k) ltac:(lia) k); [lia|done|done].
  - unfold repeated. apply NoDup_omap_inj; [apply NoDup_seq|].
    intros i i' j _ _ Hi Hi'.
    apply Hstep in Hi as (x & Hx & Hle & Hj & Hmin).
    apply Hstep in Hi' as (x' & Hx' & Hle' & Hj' & Hmin').
    assert (x' = x) as -> by congruence.
    destruct (decide (i = i')) as [|Hne]; [done|]. exfalso.
    destruct (decide (i < i')).
    + apply (Hmin i'); [lia|done].
    + apply (Hmin' i); [lia|done].
Qed.

End RepeatedHeaders.

(** ** What a clone leaves alone *)

Section CloneFrame.
Import Py Clone.

(** A copying routine that adds objects to the store and leaves the first
    [n] objects as they are, whether it returns or raises. *)
Definition keeps (n : nat) (copy : val → state → state * res val) : Prop :=
  ∀ v st, n ≤ length st.1 →
    length st.1 ≤ length (copy v st).1.1 ∧ take n (copy v st).1.1 = take n st.1.

Lemma shallow_copy_keeps n : keeps n shallow_copy.
Proof.
  intros v st Hn. unfold shallow_copy. destruct v as [| | | |l]; try done.
  destruct (st.1 !! l) as [[cells|items|kind items|w]|]; simpl; try done;
    rewrite length_app, take_app_le by done; (split; [lia|done]).
Qed.

Lemma or_shallow_keeps n deep : keeps n deep → keeps n (or_shallow deep).
Proof.
  intros Hdeep v st Hn. unfold or_shallow.
  destruct (Hdeep v st Hn) as [Hlen Htake].
  destruct (deep v st) as [st' [c|e]]; [done|]. simpl in *.
  destruct (shallow_copy_keeps n v st' ltac:(lia)) as [Hlen' Htake'].
  split; [lia|congruence].
Qed.

Lemma copy_parts_keeps n copy l parts st :
  keeps n copy → n ≤ l → n ≤ length st.1 →
  length st.1 ≤ length (copy_parts copy l parts st).1.1 ∧
  take n (copy_parts copy l parts st).1.1 = take n st.1.
Proof.
  intros Hcopy Hl. revert st.
  induction parts as [|[k v] parts IH]; intros st Hn; simpl; [done|].
  destruct (Hcopy v st Hn) as [Hlen Htake].
  destruct (copy v st) as [st' [c|e]]; [|done]. simpl in *.
  destruct (IH (push l k c st'.1, st'.2)) as [Hlen' Htake'].
  { simpl. unfold push. rewrite length_alter. by etrans. }
  simpl in *. unfold push in *.
  rewrite length_alter in Hlen'. rewrite take_alter_ge in Htake' by done.
  split; [lia|congruence].
Qed.

Lemma blank_length l' o : (∀ w, o ≠ OHandle w) → 0 < length (blank l' o).
Proof. destruct o as [cells|items|[]|w]; simpl; intros Hw; try lia. by destruct (Hw w). Qed.

Lemma deepcopy_keeps n fuel : keeps n (deepcopy fuel).
Proof.
  induction fuel as [|fuel IH]; intros v st Hn;
    (destruct v as [| | | |l]; simpl; [done..|]);
    (destruct (st.2 !! l); [done|]); [done|].
  destruct (st.1 !! l) as [o|] eqn:Ho; [|done].
  set (copy := match o with
               | OMap DataFileInstance _ => or_shallow (deepcopy fuel)
               | _ => deepcopy fuel
               end).
  assert (keeps n copy) as Hcopy.
  { subst copy. destruct o as [cells|items|[]|w]; auto using or_shallow_keeps. }
  destruct (copy_parts_keeps n copy (length st.1) (parts_of o)
              (st.1 ++ blank (length st.1) o, <[l:=length st.1]> st.2) Hcopy Hn)
    as [Hlen Htake].
  { simpl. rewrite length_app. lia. }
  simpl in Hlen, Htake. rewrite length_app in Hlen. rewrite take_app_le in Htake by done.
  destruct o as [cells|items|kind items|w]; [| | |done];
    fold copy; destruct (copy_parts copy _ _ _) as [st' [u|e]]; simpl in *;
    (split; [lia|done]).
Qed.

(** X25: a clone never writes to the store it is taken in.  Whether it
    succeeds or raises (an attribute that cannot be copied, a dangling
    reference, too deep a nesting), the store afterwards is the store
    before followed by the objects made on the way; and when it succeeds
    the instance returned is the first of these new objects, never an
    object of the original store. *)
Theorem clone_leaves_original fuel d (h : heap) :
  h `prefix_of` (clone fuel d h).1 ∧
  ∀ e, (clone fuel d h).2 = Ret e →
       e = length h ∧ is_Some ((clone fuel d h).1 !! e).
Proof.
  destruct (deepcopy_keeps (length h) fuel (VRef d) (h, ∅) ltac:(done)) as [Hlen Htake].
  simpl in Hlen, Htake. rewrite firstn_all in Htake.
  assert ((clone fuel d h).1 = (deepcopy fuel (VRef d) (h, ∅)).1.1) as Hheap.
  { unfold clone. by destruct (deepcopy fuel (VRef d) (h, ∅)) as [[h' m] [[]|]]. }
  split.
  - rewrite Hheap. exists (drop (length h) (deepcopy fuel (VRef d) (h, ∅)).1.1).
    by rewrite <- Htake at 2; rewrite take_drop.
  - intros e He. rewrite Hheap. clear Hheap Htake Hlen.
    unfold clone in He. destruct fuel as [|fuel]; simpl in *.
    { by rewrite lookup_empty in He. }
    rewrite lookup_empty in *.
    destruct (h !! d) as [o|] eqn:Ho; [|done].
    set (copy := match o with
                 | OMap DataFileInstance _ => or_shallow (deepcopy fuel)
                 | _ => deepcopy fuel
                 end) in *.
    assert (keeps 0 copy) as Hcopy.
    { subst copy. destruct o as [cells|items|[]|w];
        auto using or_shallow_keeps, deepcopy_keeps. }
    destruct (copy_parts_keeps 0 copy (length h) (parts_of o)
                (h ++ blank (length h) o, <[d:=length h]> ∅) Hcopy) as [Hlen _];
      [lia|simpl; lia|].
    simpl in Hlen. rewrite length_app in Hlen.
    destruct o as [cells|items|kind items|w]; [| | |done];
      fold copy in He |- *;
      destruct (copy_parts copy _ _ _) as [[h' m] [u|e']]; simpl in *;
      try done; injection He as <-;
      (split; [done|]); apply lookup_lt_is_Some; simpl in Hlen; try lia.
    pose proof (blank_length (length h) (OMap kind items) ltac:(done)). simpl in *. lia.
Qed.

End CloneFrame.

(** ** Storing an image in a stack that was emptied *)

Section StackCleared.
Import Py Stack StackRead StackClear.
Context {cell meta : Type}.
Variable zero : cell.
Variable cast : dtype → dtype → cell → cell.
Variable md_lookup : list string → string → option string.
Variable make_name : @ImageStack cell meta → @image cell meta → string.
Abbreviation ImageStack := (@ImageStack cell meta).
Abbreviation image := (@image cell meta).

Ltac run_op :=
  cbv beta iota delta
    [mbind mret op_mbind op_mret op_bind op_ret get modify raise lift].

(** X26: an image stored in a stack that was emptied by [__clear__]
    can be read back.  The call succeeds, the name is the only one of the
    stack and [_instantiate] at position 0 returns the image with its
    shape and metadata and with its cells as the buffer holds them:
    stored in the dtype of the buffer, that is converted by numpy when
    the dtypes differ and unchanged when the buffer has the dtype of the
    image.  The names and the sizes that were recorded before
    [__clear__] are still there, behind the new ones, and the buffer has
    a page for each of them and one more. *)
Theorem stored_after_clear name (value : image) (s : ImageStack) :
  md_lookup [] name = None →
  image_ok value →
  let after := __setter__ zero cast md_lookup make_name (Some (KeyStr name)) value false
                 (__clear__ s) in
  after.2 = Ret () ∧
  names after.1 = [name] ∧
  _names after.1 = name :: _names s ∧
  _sizes after.1 = im_shape value :: _sizes s ∧
  length (st_pages after.1) = S (S (length (_names s))) ∧
  _instantiate after.1 0
    = Ret (mkImage (im_shape value)
             (store_page cast (im_dtype value) (st_dtype after.1) (im_data value))
             (im_metadata value) (st_dtype after.1)) ∧
  (st_dtype after.1 = im_dtype value →
   _instantiate after.1 0
     = Ret (mkImage (im_shape value) (im_data value) (im_metadata value)
              (im_dtype value))).
Proof.
  intros Hmd Hok after.
  set (s1 := mkStack 1 0 [[[]]] float64 [(name, im_metadata value)]
               (name :: _names s) (im_shape value :: _sizes s) : ImageStack).
  set (dt := if bool_decide ((max_size s1, length (_names s1)).2 = 1)
             then Some (im_dtype value) else None).
  set (s2 := _resize_stack zero cast (max_size s1, length (_names s1)) dt s1).
  set (zp := zero_page zero (max_size s2).1 (max_size s2).2).
  set (s3 := with_pages (list_insert_at 0 zp) s2).
  set (s4 := with_pages
               (alter (write_page (im_shape value).1 (im_shape value).2
                         (store_page cast (im_dtype value) (st_dtype s2) (im_data value)))
                  0)
               s3).
  pose proof (resize_stack_shape zero cast (max_size s1, length (_names s1)) dt s1) as Hshape.
  fold s2 in Hshape. unfold stack_shape in Hshape.
  assert (length (st_pages s2) = length (_names s1)) as Hp2
    by exact (f_equal snd Hshape).
  assert (st_rows s2 = (max_size s1).1) as Hr2
    by exact (f_equal (fun x => x.1.1) Hshape).
  assert (st_cols s2 = (max_size s1).2) as Hc2
    by exact (f_equal (fun x => x.1.2) Hshape).
  clear Hshape.
  destruct (resize_stack_lists zero cast (max_size s1, length (_names s1)) dt s1)
    as [Hn2 Hs2].
  fold s2 in Hn2, Hs2.
  pose proof (resize_stack_metadata zero cast (max_size s1, length (_names s1)) dt s1) as Hm2.
  fold s2 in Hm2.
  assert (max_size s2 = max_size s1) as Hmax by (unfold max_size; by rewrite Hs2).
  assert ((im_shape value).1 ≤ st_rows s2 ∧ (im_shape value).2 ≤ st_cols s2)
    as [Hfit1 Hfit2].
  { rewrite Hr2, Hc2. apply max_size_covers. by left. }
  assert (after = (s4, Ret ())) as Hrun.
  { unfold after, __setter__. run_op.
    rewrite (lookup_fresh md_lookup name (__clear__ s)) by (by apply not_elem_of_nil || done).
    cbv beta iota. unfold __inserter__, len. run_op.
    change (with_sizes (list_insert_at 0 (im_shape value))
              (with_metadata (dict_set name (im_metadata value))
                 (with_names (list_insert_at 0 name) (__clear__ s)))) with s1.
    rewrite (bool_decide_eq_true_2 (0 ≤ length _)) by lia.
    cbv beta iota.
    change (with_sizes (list_insert_at 0 (im_shape value))
              (with_metadata (dict_set name (im_metadata value))
                 (with_names (list_insert_at 0 name) (__clear__ s)))) with s1.
    fold dt. fold s2.
    rewrite (bool_decide_eq_true_2 (0 ≤ length (st_pages s2))) by lia.
    cbv beta iota. fold zp. fold s3.
    unfold assign_page. run_op.
    rewrite (norm_index_nat _ 0) by (unfold s3; simpl; lia).
    rewrite bool_decide_eq_true_2; [done|].
    unfold s3. simpl. done. }
  rewrite Hrun. cbn [fst snd].
  split; [done|].
  split; [unfold names, s4, s3; simpl; by rewrite Hm2|].
  split; [unfold s4, s3; simpl; by rewrite Hn2|].
  split; [unfold s4, s3; simpl; by rewrite Hs2|].
  split.
  { unfold s4, s3. cbn [st_pages with_pages].
    rewrite length_alter. unfold list_insert_at.
    rewrite take_0, drop_0. cbn [app length]. by rewrite Hp2. }
  match goal with |- ?A ∧ _ => assert A as Hread end;
    [|split; [exact Hread|];
      intros Hdt; rewrite Hread, Hdt; by rewrite (store_page_same cast)].
  unfold _instantiate.
  rewrite (item_nat _ (_sizes s4) 0 (im_shape value)).
  2:{ unfold s4, s3. simpl. by rewrite Hs2. }
  rewrite (item_nat _ (st_pages s4) 0
             (write_page (im_shape value).1 (im_shape value).2
                (store_page cast (im_dtype value) (st_dtype s2) (im_data value)) zp)).
  2:{ unfold s4, s3. done. }
  rewrite (item_nat _ (names s4) 0 name).
  2:{ unfold names, s4, s3. simpl. by rewrite Hm2. }
  cbn [mbind res_bind bind].
  assert (_metadata s4 = [(name, im_metadata value)]) as ->.
  { unfold s4, s3. simpl. by rewrite Hm2. }
  unfold dict_get. simpl. rewrite decide_True by done.
  cbn [mbind res_bind bind]. f_equal.
  unfold zp. rewrite Hmax, <- Hr2, <- Hc2.
  rewrite (slice_written zero) by (try done; by apply (store_page_ok cast)).
  rewrite !Nat.min_l by done. by destruct (im_shape value).
Qed.

End StackCleared.

Section StackClearedSample.
Import Py Stack StackRead StackClear.

Lemma stored_after_clear_witness :
  let after := __setter__ 0%Z (fun _ _ c => c) exact_only untitled (Some (KeyStr "b")) dot_image false
                 (__clear__ one_image) in
  after.2 = Ret () ∧
  names after.1 = ["b"] ∧
  _names after.1 = "b" :: _names one_image ∧
  _sizes after.1 = im_shape dot_image :: _sizes one_image ∧
  length (st_pages after.1) = S (S (length (_names one_image))) ∧
  _instantiate after.1 0
    = Ret (mkImage (im_shape dot_image)
             (store_page (fun _ _ c => c) (im_dtype dot_image) (st_dtype after.1)
                (im_data dot_image))
             (im_metadata dot_image) (st_dtype after.1)) ∧
  (st_dtype after.1 = im_dtype dot_image →
   _instantiate after.1 0
     = Ret (mkImage (im_shape dot_image) (im_data dot_image) (im_metadata dot_image)
              (im_dtype dot_image))).
Proof.
  apply (stored_after_clear 0%Z (fun _ _ c => c) exact_only untitled "b" dot_image one_image).
  - reflexivity.
  - unfold image_ok, page_ok. vm_compute.
    repeat (apply List.Forall_cons || apply List.Forall_nil || split || reflexivity).
Defined.

End StackClearedSample.

(** ** Scan numbers and root names *)

Section ScanNumbers.
Import Py Attocube.

Lemma digit_char (x : N) :
  (x < 10)%N →
  is_digit (pretty_N_char x) = true ∧
  (Z.of_nat (nat_of_ascii (pretty_N_char x)) - 48)%Z = Z.of_N x.
Proof.
  intros Hx.
  assert (x = 0 ∨ x = 1 ∨ x = 2 ∨ x = 3 ∨ x = 4 ∨ x = 5 ∨ x = 6 ∨ x = 7
          ∨ x = 8 ∨ x = 9)%N as Hcases by lia.
  repeat (destruct Hcases as [->|Hcases]; [by vm_compute|]). subst x. by vm_compute.
Qed.

(** The digits that [pretty] puts in front of [s] are read back by
    [int] and taken whole by [\d+]. *)
Lemma pretty_go_read (x : N) : ∀ s,
  int_from 0 (pretty_N_go x s) = int_from (Z.of_N x) s ∧
  (digits s = s → digits (pretty_N_go x s) = pretty_N_go x s) ∧
  (x ≠ 0%N → ∃ c t, pretty_N_go x s = String c t ∧ is_digit c = true).
Proof.
  induction (N.lt_wf_0 x) as [x _ IH]. intros s.
  assert (x = 0 ∨ 0 < x)%N as [->|Hpos] by lia.
  { rewrite pretty_N_go_0. by repeat split. }
  rewrite pretty_N_go_step by done.
  destruct (digit_char (x `mod` 10)%N) as [Hd Hv]; [by apply N.mod_lt|].
  destruct (IH (x `div` 10)%N ltac:(by apply N.div_lt)
              (String (pretty_N_char (x `mod` 10)) s)) as (Hint & Hdig & Hhead).
  split; [|split].
  - rewrite Hint. simpl. rewrite Hv. f_equal.
    rewrite (N.div_mod x 10) at 3 by done. lia.
  - intros Hs. apply Hdig. simpl. by rewrite Hd, Hs.
  - intros _. destruct (decide (x `div` 10 = 0)%N) as [Hz|Hnz].
    + rewrite Hz, pretty_N_go_0. eauto.
    + by apply Hhead.
Qed.

Lemma pretty_read (x : N) :
  int_from 0 (pretty x) = Z.of_N x ∧ digits (pretty x) = pretty x ∧
  ∃ c t, pretty x = String c t ∧ is_digit c = true.
Proof.
  unfold pretty, pretty_N. case_decide as Hx.
  - subst x. split; [done|]. split; [done|]. by exists "0"%char, "".
  - destruct (pretty_go_read x "") as (Hint & Hdig & Hhead).
    split; [done|]. split; [by apply Hdig|by apply Hhead].
Qed.

Lemma zeros_read n s :
  int_from 0 (zeros n +:+ s) = int_from 0 s ∧
  (digits s = s → digits (zeros n +:+ s) = zeros n +:+ s).
Proof.
  induction n as [|n [IH1 IH2]]; [done|]. split.
  - exact IH1.
  - intros Hs. change (String "0" (digits (zeros n +:+ s)) = String "0" (zeros n +:+ s)).
    by rewrite IH2.
Qed.

(** A text without the letter S holds no match. *)
Fixpoint no_S (s : string) : bool :=
  match s with
  | "" => true
  | String c rest => negb (bool_decide (c = "S"%char)) && no_S rest
  end.

Lemma search_no_S s : no_S s = true → search s = None.
Proof.
  induction s as [|c rest IH]; [done|]. simpl.
  intros [Hc Hrest]%andb_true_iff. apply negb_true_iff, bool_decide_eq_false in Hc.
  rewrite <- (IH Hrest).
  destruct c as [[] [] [] [] [] [] [] []]; try done.
Qed.

Lemma digits_no_S s : digits s = s → no_S s = true.
Proof.
  induction s as [|c rest IH]; [done|]. simpl.
  destruct (is_digit c) eqn:Hc; [|done]. intros [= Hrest].
  rewrite (IH Hrest), andb_true_r. apply negb_true_iff, bool_decide_eq_false.
  intros ->. by vm_compute in Hc.
Qed.

Lemma no_S_app s t : no_S (s +:+ t) = no_S s && no_S t.
Proof. induction s as [|c s IH]; [done|]. simpl. by rewrite IH, andb_assoc. Qed.

Lemma no_S_zeros n : no_S (zeros n) = true.
Proof. induction n as [|n IH]; [done|]. exact IH. Qed.

Lemma zeros_app_head n c t : zeros n +:+ String c t ≠ "".
Proof. by destruct n. Qed.

(** X27: the root name that the constructor makes from a scan number
    gives the scan number back when the constructor is called with that
    root name, for every scan number that is not negative.  A negative
    scan number does not come back: its root name has a minus sign after
    [SC_], the pattern finds no match, and the scan number is -1. *)
Theorem scan_number_round_trip (scan : Z) :
  ∃ root_name,
    (root_and_scan (ScanNo scan)).1 = Some root_name ∧
    (root_and_scan (RootName root_name)).2
      = if bool_decide (0 ≤ scan)%Z then scan else (-1)%Z.
Proof.
  exists ("SC_" +:+ format_03d scan). split; [done|].
  unfold root_and_scan, format_03d. cbn [snd].
  destruct (pretty_read (Z.abs_N scan)) as (Hint & Hdig & c & t & Hhead & Hc).
  set (ds := pretty (Z.abs_N scan)) in *.
  case_bool_decide as Hneg.
  - rewrite bool_decide_eq_false_2 by lia.
    set (tail := zeros (3 - String.length "-" - String.length ds) +:+ ds).
    assert (no_S tail = true) as HnoS.
    { unfold tail. rewrite no_S_app.
      rewrite (digits_no_S ds Hdig), andb_true_r. apply no_S_zeros. }
    change (match search (String "S" (String "C" (String "_" (String "-" tail)))) with
            | Some group => int group | None => (-1)%Z end = (-1)%Z).
    assert (search (String "S" (String "C" (String "_" (String "-" tail)))) = None) as ->;
      [|done].
    change (search (String "C" (String "_" (String "-" tail))) = None).
    apply search_no_S. simpl. exact HnoS.
  - rewrite bool_decide_eq_true_2 by lia.
    set (tail := zeros (3 - String.length "" - String.length ds) +:+ ds).
    destruct (zeros_read (3 - String.length "" - String.length ds) ds) as [Hzi Hzd].
    fold tail in Hzi, Hzd. specialize (Hzd Hdig).
    change ("" +:+ tail) with tail.
    assert (tail ≠ "") as Hne.
    { unfold tail. rewrite Hhead. apply zeros_app_head. }
    assert (search ("SC_" +:+ tail) = Some tail) as ->.
    { change (search (String "S" (String "C" (String "_" tail))) = Some tail).
      simpl. rewrite Hzd. by rewrite bool_decide_eq_false_2. }
    unfold int. rewrite Hzi, Hint. lia.
Qed.

End ScanNumbers.

(** ** Saving twice *)

Section SaveAgain.
Import Py Text Loader Save.
Variable lay_out : gmap string mdval → list (list Z) → res (list string).

Lemma rfind_from_none c s : ∀ i last,
  (∀ j, String.get j s ≠ Some c) → rfind_from c s i last = last.
Proof.
  induction s as [|a rest IH]; intros i last Hno; simpl; [done|].
  rewrite IH by (intros j; apply (Hno (S j))).
  rewrite bool_decide_eq_false_2; [done|].
  intros ->. by apply (Hno 0).
Qed.

Lemma rfind_from_found c s : ∀ i last r,
  String.get r s = Some c → (∀ j, r < j → String.get j s ≠ Some c) →
  rfind_from c s i last = (i + Z.of_nat r)%Z.
Proof.
  induction s as [|a rest IH]; intros i last r Hget Hlast; simpl in *; [done|].
  destruct r as [|r].
  - injection Hget as ->. rewrite bool_decide_eq_true_2 by done.
    rewrite rfind_from_none; [lia|].
    intros j. apply (Hlast (S j)). lia.
  - rewrite (IH _ _ r Hget); [lia|].
    intros j Hj. apply (Hlast (S j)). lia.
Qed.

(** [rfind] answers -1 when the character is not there and the place
    of its last occurrence when it is. *)
Lemma rfind_from_inv c s : ∀ i last,
  (rfind_from c s i last = last ∧ ∀ j, String.get j s ≠ Some c) ∨
  ∃ r, rfind_from c s i last = (i + Z.of_nat r)%Z ∧ String.get r s = Some c ∧
       ∀ j, r < j → String.get j s ≠ Some c.
Proof.
  induction s as [|a rest IH]; intros i last; simpl; [by left|].
  destruct (IH (i + 1)%Z (if bool_decide (a = c) then i else last))
    as [[Heq Hno]|(r & Heq & Hget & Hlast)].
  - rewrite Heq. case_bool_decide as Hac.
    + right. exists 0. split; [lia|]. split; [by subst|].
      intros [|j] Hj; [lia|]. apply Hno.
    + left. split; [done|]. intros [|j]; [congruence|]. apply Hno.
  - right. exists (S r). split; [lia|]. split; [done|].
    intros [|j] Hj; [lia|]. apply Hlast. lia.
Qed.

Lemma rfind_inv c s :
  (rfind c s = (-1)%Z ∧ ∀ j, String.get j s ≠ Some c) ∨
  ∃ r, rfind c s = Z.of_nat r ∧ String.get r s = Some c ∧
       ∀ j, r < j → String.get j s ≠ Some c.
Proof.
  unfold rfind. destruct (rfind_from_inv c s 0 (-1)) as [?|(r & Heq & ?)]; [by left|].
  right. exists r. by rewrite Heq.
Qed.

Lemma get_append s t j :
  String.get j (s +:+ t) =
    if bool_decide (j < String.length s) then String.get j s
    else String.get (j - String.length s) t.
Proof.
  case_bool_decide as Hj.
  - symmetry. by apply append_correct1.
  - rewrite (append_correct2 s t (j - String.length s)). f_equal. lia.
Qed.

Lemma get_within s j : j < String.length s → String.get j s ≠ None.
Proof.
  revert j. induction s as [|a s IH]; intros j Hj; simpl in *; [lia|].
  destruct j as [|j]; [done|]. apply IH. lia.
Qed.

Lemma substring_append_l s t : String.substring 0 (String.length s) (s +:+ t) = s.
Proof.
  induction s as [|a s IH]; simpl.
  - by destruct t.
  - change (String a s +:+ t) with (String a (s +:+ t)). by rewrite IH.
Qed.

Lemma substring_append_r s t :
  String.substring (String.length s) (String.length t) (s +:+ t) = t.
Proof.
  induction s as [|a s IH]; simpl.
  - apply substring_all.
  - change (String a s +:+ t) with (String a (s +:+ t)). exact IH.
Qed.

Lemma length_append s t : String.length (s +:+ t) = String.length s + String.length t.
Proof.
  induction s as [|a s IH]; [done|].
  change (String a s +:+ t) with (String a (s +:+ t)). simpl. by rewrite IH.
Qed.

Lemma name_before_dot_true p k : ∀ i j c,
  (0 ≤ i)%Z → (i ≤ Z.of_nat j < i + Z.of_nat k)%Z →
  String.get j p = Some c → c ≠ dot →
  name_before_dot p i k = true.
Proof.
  induction k as [|k IH]; intros i j c Hi Hj Hget Hc; simpl; [lia|].
  destruct (String.get (Z.to_nat i) p) as [c0|] eqn:Hc0; [|done].
  case_bool_decide as Hdot; [|done].
  apply (IH (i + 1)%Z j c); [lia| |done|done].
  destruct (decide (j = Z.to_nat i)) as [->|]; [congruence|lia].
Qed.

Lemma name_before_dot_inv p k : ∀ i,
  (0 ≤ i)%Z → Z.to_nat i + k ≤ String.length p →
  name_before_dot p i k = true →
  ∃ j c, (i ≤ Z.of_nat j < i + Z.of_nat k)%Z ∧ String.get j p = Some c ∧ c ≠ dot.
Proof.
  induction k as [|k IH]; intros i Hi Hlen; simpl; [done|].
  destruct (String.get (Z.to_nat i) p) as [c0|] eqn:Hc0.
  - case_bool_decide as Hdot.
    + intros Hk. destruct (IH (i + 1)%Z ltac:(lia) ltac:(lia) Hk) as (j & c & Hj & Hget & Hc).
      exists j, c. split; [lia|done].
    + intros _. exists (Z.to_nat i), c0. split; [lia|done].
  - by destruct (get_within p (Z.to_nat i) ltac:(lia)).
Qed.

(** A path whose last component has a character other than the dot. *)
Definition named (p : string) : Prop :=
  ∃ j c, (rfind slash p < Z.of_nat j)%Z ∧ String.get j p = Some c ∧ c ≠ dot.

(** Such a root followed by [.txt] is split into the root and [.txt]. *)
Lemma splitext_txt root : named root → splitext (root +:+ ".txt") = (root, ".txt").
Proof.
  intros (j & c & Hsep & Hget & Hc).
  pose proof (get_length _ _ _ Hget) as Hj.
  set (p := root +:+ ".txt"). set (n := String.length root) in *.
  assert (∀ k, String.get k p =
               if bool_decide (k < n) then String.get k root
               else String.get (k - n) ".txt") as Hp
    by (intros k; apply get_append).
  assert (∀ k a, n ≤ k → String.get k p = Some a → a ≠ slash ∧ (n < k → a ≠ dot))
    as Htxt.
  { intros k a Hk. rewrite Hp, bool_decide_eq_false_2 by lia.
    destruct (k - n) as [|[|[|[|m]]]] eqn:Hkn; simpl; intros [= <-];
      (split; [done|]); try done. lia. }
  assert (rfind slash p = rfind slash root) as Hs.
  { destruct (rfind_inv slash root) as [[Heq Hno]|(r & Heq & Hr & Hlast)]; rewrite Heq.
    - apply rfind_from_none. intros k Hk.
      destruct (decide (k < n)) as [Hlt|Hge].
      + rewrite Hp, bool_decide_eq_true_2 in Hk by done. by apply (Hno k).
      + by destruct (Htxt k slash ltac:(lia) Hk).
    - unfold rfind. rewrite (rfind_from_found slash p 0 (-1) r); [lia| |].
      + rewrite Hp, bool_decide_eq_true_2; [done|]. by eapply get_length.
      + intros k Hrk Hk. destruct (decide (k < n)) as [Hlt|Hge].
        * rewrite Hp, bool_decide_eq_true_2 in Hk by done. by apply (Hlast k).
        * by destruct (Htxt k slash ltac:(lia) Hk). }
  assert (rfind dot p = Z.of_nat n) as Hd.
  { unfold rfind. rewrite (rfind_from_found dot p 0 (-1) n); [lia| |].
    - rewrite Hp, bool_decide_eq_false_2 by lia. by rewrite Nat.sub_diag.
    - intros k Hnk Hk. destruct (Htxt k dot ltac:(lia) Hk) as [_ Hnd]. by apply Hnd. }
  unfold splitext. fold p. rewrite Hs, Hd.
  assert ((rfind slash root <? Z.of_nat n)%Z = true) as -> by (apply Z.ltb_lt; lia).
  assert (-1 ≤ rfind slash root)%Z as Hge.
  { destruct (rfind_inv slash root) as [[-> _]|(r & -> & _)]; lia. }
  rewrite (name_before_dot_true p _ (rfind slash root + 1)%Z j c); [|lia|lia| |done].
  2:{ rewrite Hp, bool_decide_eq_true_2 by done. done. }
  simpl. unfold slice_to, slice_from. rewrite Nat2Z.id. f_equal.
  - apply substring_append_l.
  - unfold p, n. rewrite length_append.
    replace (String.length root + String.length ".txt" - String.length root)
      with (String.length ".txt") by lia.
    apply substring_append_r.
Qed.

(** The root that [splitext] cuts off a named path is named. *)
Lemma splitext_named p : named p → named (splitext p).1.
Proof.
  intros Hp. unfold splitext.
  destruct (_ && _) eqn:Hcond; [|done]. simpl.
  apply andb_prop in Hcond as [Hlt Hname]. apply Z.ltb_lt in Hlt.
  assert (-1 ≤ rfind slash p)%Z as Hge.
  { destruct (rfind_inv slash p) as [[-> _]|(r & -> & _)]; lia. }
  pose proof (rfind_get dot p ltac:(lia)) as Hdot. apply get_length in Hdot.
  apply name_before_dot_inv in Hname as (j & c & Hj & Hget & Hc); [|lia|lia].
  set (d := Z.to_nat (rfind dot p)) in *.
  assert (∀ k, k < d → String.get k (slice_to (rfind dot p) p) = String.get k p) as Hroot.
  { intros k Hk. unfold slice_to. fold d.
    rewrite (substring_correct1 p 0 d k Hk). f_equal. lia. }
  exists j, c. split; [|split; [|done]].
  - destruct (rfind_inv slash (slice_to (rfind dot p) p))
      as [[-> _]|(r & -> & Hr & _)]; [lia|].
    destruct (decide (r < d)) as [Hrd|Hrd].
    + rewrite Hroot in Hr by done.
      destruct (rfind_inv slash p) as [[_ Hno]|(r' & Heq & _ & Hlast)];
        [by destruct (Hno r)|].
      destruct (decide (r' < r)) as [Hlt'|]; [by destruct (Hlast r Hlt')|lia].
    + unfold slice_to in Hr. fold d in Hr.
      rewrite (substring_correct2 p 0 d r) in Hr by lia. done.
  - rewrite Hroot by lia. done.
Qed.

(** X28: a file that was saved is saved again under the same name.
    When the last component of the path given to [save] has a character
    other than the dot, a second [save] without a file name writes to the
    path that the first one wrote to, with the same header line, and
    leaves the instance as the first one left it. *)
Theorem save_again_same_file dialog self fname self' w :
  named fname →
  save lay_out dialog self (Some fname) = Ret (self', w) →
  save lay_out dialog self' None = Ret (self', w).
Proof.
  intros Hnamed. unfold save. cbn [mbind res_bind bind].
  assert (normalise _patterns fname = Ret ((splitext fname).1 +:+ ".txt")) as Hnorm.
  { unfold normalise. destruct (splitext fname) as [root ext] eqn:Hsplit.
    destruct (splitext_ext _ _ _ Hsplit) as [->|[rest ->]];
      by rewrite bool_decide_eq_false_2
        by (unfold _patterns; intros [[=]|[[=]|[]%elem_of_nil]%elem_of_cons]%elem_of_cons). }
  rewrite Hnorm. cbn [mbind res_bind bind].
  destruct (lay_out (metadata self) (data self)) as [lines|e] eqn:Hlines; [|done].
  cbn [mbind res_bind bind]. intros [= <- <-].
  cbn [Loader.filename set_filename metadata data].
  assert (normalise _patterns ((splitext fname).1 +:+ ".txt")
          = Ret ((splitext fname).1 +:+ ".txt")) as Hagain.
  { unfold normalise. rewrite (splitext_txt _ (splitext_named _ Hnamed)).
    by rewrite bool_decide_eq_false_2
      by (unfold _patterns; intros [[=]|[[=]|[]%elem_of_nil]%elem_of_cons]%elem_of_cons). }
  rewrite Hagain. cbn [mbind res_bind bind]. by rewrite Hlines.
Qed.

End SaveAgain.

Section SaveAgainSample.
Import Py Text Loader Save.

Lemma save_again_same_file_witness :
  ∃ self' w,
    save blank_lines None (mkDataFile [[1; 2]%Z] ∅ ["A"; "B"] None)
      (Some "results/run1.tdi") = Ret (self', w) ∧
    save blank_lines None self' None = Ret (self', w).
Proof.
  eexists _, _. split; [reflexivity|].
  apply (save_again_same_file blank_lines None
           (mkDataFile [[1; 2]%Z] ∅ ["A"; "B"] None) "results/run1.tdi").
  - exists 8, "r"%char. split; [by vm_compute|]. split; [reflexivity|discriminate].
  - reflexivity.
Defined.

End SaveAgainSample.
